(** * Release pipeline of the openEuler base images (main.go)

    A shallow embedding of [main.go]: the tag reconciler ([MatchTag]), the
    archive materializer ([ImagePrepare]) with its download, checksum and
    repackaging steps, and the command-line entry point ([main]).

    Go strings are byte strings and are modelled by [string] (a list of
    8-bit characters); [int64] values are modelled by [Z] with the
    wrap-around written out.  The operating system, the network and the
    external tools are a record of oracles ([Env]) together with an explicit
    mutable state ([State]); every run yields an outcome, a final state and
    the trace of the actions it performed. *)

From Stdlib Require Import ZArith Ascii String.
From stdpp Require Import base gmap strings list.

(** ** Strings *)

Module Str.

(** [strings.Split(s, sep)] for a separator of one byte. *)
Fixpoint Split (sep : ascii) (s : string) : list string :=
  match s with
  | EmptyString => [EmptyString]
  | String c rest =>
      if Ascii.eqb c sep then EmptyString :: Split sep rest
      else match Split sep rest with
           | [] => [String c EmptyString]
           | w :: ws => String c w :: ws
           end
  end.

(** [strings.Join(elems, sep)]. *)
Fixpoint Join (elems : list string) (sep : string) : string :=
  match elems with
  | [] => ""
  | [e] => e
  | e :: rest => e +:+ sep +:+ Join rest sep
  end.

(** [s[lo:hi]] on a string; [None] is the run-time panic
    "slice bounds out of range". *)
Definition slice (s : string) (lo hi : nat) : option string :=
  if decide (lo ≤ hi ∧ hi ≤ String.length s)
  then Some (String.substring lo (hi - lo) s)
  else None.

(** Whether the byte [c] occurs in [s]. *)
Fixpoint contains (c : ascii) (s : string) : bool :=
  match s with
  | EmptyString => false
  | String d rest => Ascii.eqb d c || contains c rest
  end.

Definition HasPrefix (s prefix : string) : bool := String.prefix prefix s.

End Str.

(** ** Reconciler (main.go, lines 181-200) *)

(** [SelectStringInList]: the index loop returns at the first equal entry. *)
Fixpoint SelectStringInList (SrcString : string) (DestinationTag : list string)
  : bool :=
  match DestinationTag with
  | [] => false
  | d :: rest =>
      if String.eqb d SrcString then true
      else SelectStringInList SrcString rest
  end.

(** The loop of [MatchTag], with [Result] as the slice built so far. *)
Fixpoint MatchTag_loop (SourceTag DestinationTag Result : list string)
  : list string :=
  match SourceTag with
  | [] => Result
  | s :: rest =>
      if SelectStringInList s DestinationTag
      then MatchTag_loop rest DestinationTag Result
      else MatchTag_loop rest DestinationTag (Result ++ [s])
  end.

Definition MatchTag (SourceTag DestinationTag : list string) : list string :=
  MatchTag_loop SourceTag DestinationTag [].

(** The reconciler as the specification words it: the elements of [source]
    that do not occur in [destination], in order, duplicates kept. *)
Definition reconcile_spec (source destination : list string) : list string :=
  filter (λ s, s ∉ destination) source.

(** ** Paths (path/filepath on a Unix host) *)

Module filepath.

Definition Separator : ascii := "/"%char.

(** One step of the lexical processing of [Clean] on the path elements
    kept so far (the last element first): [..] removes the element before
    it, is dropped at the root, and is kept at the start of a relative
    path. *)
Definition push (rooted : bool) (stack : list string) (elem : string)
  : list string :=
  if String.eqb elem ".." then
    match stack with
    | top :: below =>
        if String.eqb top ".." then elem :: stack else below
    | [] => if rooted then [] else [elem]
    end
  else elem :: stack.

Definition kept (elem : string) : bool :=
  negb (String.eqb elem "") && negb (String.eqb elem ".").

Definition elements (rooted : bool) (path : string) : list string :=
  rev (fold_left (push rooted) (List.filter kept (Str.Split Separator path)) []).

Definition assemble (rooted : bool) (elems : list string) : string :=
  let out := (if rooted then "/" else "") +:+ Str.Join elems "/" in
  if String.eqb out "" then "." else out.

(** [filepath.Clean]: the shortest path equivalent to [path] by purely
    lexical processing (runs of separators collapsed, [.] elements
    dropped, inner [..] elements resolved, [/..] at the root replaced by
    [/]; the empty result is [.]). *)
Definition Clean (path : string) : string :=
  let rooted := Str.HasPrefix path "/" in
  assemble rooted (elements rooted path).

(** [filepath.Join]: leading empty elements are skipped, the rest is
    joined with the separator and cleaned; no non-empty element gives
    the empty string. *)
Fixpoint Join (elem : list string) : string :=
  match elem with
  | [] => ""
  | e :: rest =>
      if String.eqb e "" then Join rest
      else Clean (Str.Join elem "/")
  end.

End filepath.

(** The target directory of one version and architecture
    ([ImagePrepare], line 253). *)
Definition target_dir (pwd version arch : string) : string :=
  filepath.Join [pwd; "openEuler"; version; arch].

(** A single path element: not empty, neither [.] nor [..], no separator. *)
Definition is_element (s : string) : bool :=
  negb (String.eqb s "") && negb (String.eqb s ".")
  && negb (String.eqb s "..") && negb (Str.contains filepath.Separator s).

(** ** Machine integers *)

Module int64.

Definition wrap (z : Z) : Z := ((z + 2 ^ 63) mod 2 ^ 64 - 2 ^ 63)%Z.

Definition add (a b : Z) : Z := wrap (a + b).
Definition mul (a b : Z) : Z := wrap (a * b).

(** Go's [/] on [int64]: truncated division; [None] is the run-time
    panic "integer divide by zero". *)
Definition div (a b : Z) : option Z :=
  if decide (b = 0%Z) then None else Some (wrap (Z.quot a b)).

End int64.

(** ** Outcomes, traces and the state of a run *)

(** How a Go computation ends: it returns, it panics (exit status 2), it
    calls [log.Fatal] (exit status 1, deferred calls skipped) or it calls
    [os.Exit]. *)
Inductive Outcome (A : Type) : Type :=
| Ret (a : A)
| Panic (msg : string)
| Fatal (msg : string)
| Exit (code : Z).
Arguments Ret {A} a.
Arguments Panic {A} msg.
Arguments Fatal {A} msg.
Arguments Exit {A} code.

(** The actions of a run that are visible from outside the process. *)
Inductive Event : Type :=
| EvPrint (text : string)
| EvProgress (finished : bool) (hundredths : Z)
| EvMkdirAll (dir : string)
| EvHttpGet (url : string)
| EvCreate (path : string)
| EvChdir (dir : string)
| EvExec (command : string)
| EvVisit (url : string)
| EvBuild (dir name : string).

(** The state a run reads and writes: the regular files with their
    content, the working directory of the process and the counter of the
    wait group [wg].  The counter of a [sync.WaitGroup] is never negative
    (the call that would lower it below zero panics), so it is a natural
    number; its 32-bit bound is not modelled. *)
Record State : Type := mkState {
  files : gmap string string;
  cwd : string;
  wg : N
}.

(** The body of an HTTP response as the sequence of reads it serves: the
    chunks, then [io.EOF] or the error [failure]. *)
Record io_Reader : Type := mkReader {
  pending : list string;
  failure : option string
}.

Record Response : Type := mkResponse {
  ContentLength : Z;
  Body : io_Reader
}.

(** What the program takes from its environment: the host, the library
    functions outside the repository, the failures of system calls, the
    network and the external commands. *)
Record Env : Type := mkEnv {
  GOOS : string;
  sha256_Sum : string → string;
  ToUpper : string → string;
  ToLower : string → string;
  mkdir_error : string → option string;
  stat_error : string → option string;
  create_error : string → option string;
  open_error : string → option string;
  chdir_error : string → option string;
  http_reply : string → Response + string;
  (** [/bin/bash -c command] run in a working directory over the files:
      the files afterwards, the standard output and the error of [Output]. *)
  shell : string → string → gmap string string →
          gmap string string * string * option string;
  (** The directory listing of the mirror: text and [href] of each link,
      and the error of [Visit]. *)
  mirror_links : list (string * string);
  mirror_error : option string;
  (** The names of [results] in the tag list of the registry, or the error
      of the request. *)
  hub_names : list string + string;
  (** [buildImage]: the log lines and the error. *)
  build_result : string → string → list string * option string
}.

Definition M (A : Type) : Type := State → Outcome A * State * list Event.

Definition ret {A} (a : A) : M A := λ s, (Ret a, s, []).

Definition bind {A B} (m : M A) (k : A → M B) : M B :=
  λ s,
    match m s with
    | (Ret a, s1, t1) =>
        match k a s1 with
        | (o, s2, t2) => (o, s2, t1 ++ t2)
        end
    | (Panic msg, s1, t1) => (Panic msg, s1, t1)
    | (Fatal msg, s1, t1) => (Fatal msg, s1, t1)
    | (Exit code, s1, t1) => (Exit code, s1, t1)
    end.

Declare Scope go_scope.
Delimit Scope go_scope with go.
Notation "'let*' x ':=' m 'in' k" := (bind m (λ x, k))
  (at level 10, x pattern, m at level 100, k at level 200) : go_scope.
Notation "m ;; k" := (bind m (λ _, k))
  (at level 100, k at level 200, right associativity) : go_scope.
Local Open Scope go_scope.

Definition emit (e : Event) : M unit := λ s, (Ret tt, s, [e]).
Definition panic {A} (msg : string) : M A := λ s, (Panic msg, s, []).
Definition log_Fatal {A} (msg : string) : M A := λ s, (Fatal msg, s, []).
Definition os_Exit {A} (code : Z) : M A := λ s, (Exit code, s, []).

Definition outcome_of {A} (r : Outcome A * State * list Event) : Outcome A :=
  r.1.1.
Definition state_of {A} (r : Outcome A * State * list Event) : State := r.1.2.
Definition trace_of {A} (r : Outcome A * State * list Event) : list Event :=
  r.2.
Arguments outcome_of {A} !r /.
Arguments state_of {A} !r /.
Arguments trace_of {A} !r /.

(** The result of a computation that follows the actions [t]. *)
Definition prepend {A} (t : list Event) (r : Outcome A * State * list Event)
  : Outcome A * State * list Event :=
  (outcome_of r, state_of r, t ++ trace_of r).

(** [defer cleanup] around [body]: the deferred call runs when [body]
    returns and when it panics, not when the process exits.  A deferred
    call that panics ends the function in its panic, also when [body] had
    panicked (the run-time reports both; the outcome keeps the one raised
    last). *)
Definition defer {A} (cleanup : M unit) (body : M A) : M A :=
  λ s,
    match body s with
    | (Ret a, s1, t) => prepend t ((cleanup ;; ret a) s1)
    | (Panic msg, s1, t) => prepend t ((cleanup ;; panic msg) s1)
    | other => other
    end.

(** [forM_]: the body of a [for] loop over the entries of a slice; an
    abort of the body ends the loop. *)
Fixpoint forM_ {A} (l : list A) (body : A → M unit) : M unit :=
  match l with
  | [] => ret tt
  | x :: rest => body x ;; forM_ rest body
  end.

Definition Println (text : string) : M unit := emit (EvPrint text).

(** ** Hex encoding (encoding/hex) *)

Module hex.

Definition hextable : string := "0123456789abcdef".

Definition digit (n : N) : ascii :=
  match String.get (N.to_nat n) hextable with
  | Some c => c
  | None => "0"%char
  end.

(** [hex.EncodeToString]: two lower-case digits for each byte. *)
Fixpoint EncodeToString (src : string) : string :=
  match src with
  | EmptyString => ""
  | String v rest =>
      String (digit (N.shiftr (N_of_ascii v) 4))
        (String (digit (N.land (N_of_ascii v) 15)) (EncodeToString rest))
  end.

End hex.

(** ** Errors of the file system *)

Inductive error : Type :=
| ErrNotExist (path : string)
| ErrOther (msg : string).

Definition Error (e : error) : string :=
  match e with
  | ErrNotExist path => "stat " +:+ path +:+ ": no such file or directory"
  | ErrOther msg => msg
  end.

Definition os_IsNotExist (e : error) : bool :=
  match e with
  | ErrNotExist _ => true
  | ErrOther _ => false
  end.

(** [fmt.Println] of a slice of strings. *)
Definition format_slice (l : list string) : string :=
  "[" +:+ Str.Join l " " +:+ "]".

(** ** The downloader (main.go, lines 33-47) *)

Record Downloader : Type := mkDownloader {
  Reader : io_Reader;
  Total : Z;
  Current : Z
}.

(** One [Read] of a response body: the next chunk, or no bytes and the
    final error. *)
Definition io_Reader_Read (r : io_Reader) : io_Reader * string * option string :=
  match pending r with
  | chunk :: rest => (mkReader rest (failure r), chunk, None)
  | [] => (r, "", Some (default "EOF" (failure r)))
  end.

Definition divide (a b : Z) : M Z :=
  match int64.div a b with
  | Some q => ret q
  | None => panic "runtime error: integer divide by zero"
  end.

(** [Downloader.Read].  The two [Printf] calls are recorded with the
    integer [d.Current*10000/d.Total] they convert and print. *)
Definition Downloader_Read (d : Downloader)
  : M (Downloader * string * option string) :=
  match io_Reader_Read (Reader d) with
  | (r, data, err) =>
      let n := Z.of_nat (String.length data) in
      let d := mkDownloader r (Total d) (int64.add (Current d) n) in
      let* q := divide (int64.mul (Current d) 10000) (Total d) in
      emit (EvProgress false q) ;;
      (if decide (Current d = Total d) then
         let* q := divide (int64.mul (Current d) 10000) (Total d) in
         emit (EvProgress true q)
       else ret tt) ;;
      ret (d, data, err)
  end.

(** ** The program over an environment *)

Section Program.

Variable E : Env.

(** *** System calls *)

Definition os_Getwd : M string := λ s, (Ret (cwd s), s, []).

Definition os_Chdir (dir : string) : M (option string) :=
  λ s,
    match chdir_error E dir with
    | Some e => (Ret (Some e), s, [EvChdir dir])
    | None =>
        let target :=
          if Str.HasPrefix dir "/" then dir else filepath.Join [cwd s; dir] in
        (Ret None, mkState (files s) target (wg s), [EvChdir dir])
    end.

Definition os_MkdirAll (dir : string) : M (option string) :=
  emit (EvMkdirAll dir) ;; ret (mkdir_error E dir).

Definition os_Stat (path : string) : M (option error) :=
  λ s,
    match stat_error E path with
    | Some msg => (Ret (Some (ErrOther msg)), s, [])
    | None =>
        match files s !! path with
        | Some _ => (Ret None, s, [])
        | None => (Ret (Some (ErrNotExist path)), s, [])
        end
    end.

(** [os.Create]: the file exists and is empty afterwards. *)
Definition os_Create (path : string) : M (option string) :=
  λ s,
    match create_error E path with
    | Some e => (Ret (Some e), s, [EvCreate path])
    | None =>
        (Ret None, mkState (<[path := ""]> (files s)) (cwd s) (wg s),
         [EvCreate path])
    end.

(** [Write] on the file created at [path]: the bytes are appended. *)
Definition file_Write (path data : string) : M unit :=
  λ s,
    (Ret tt,
     mkState (<[path := default "" (files s !! path) +:+ data]> (files s))
       (cwd s) (wg s),
     []).

(** The content of a file, or the error of opening it. *)
Definition os_ReadFile (path : string) : M (string + string) :=
  λ s,
    match open_error E path with
    | Some e => (Ret (inr e), s, [])
    | None =>
        match files s !! path with
        | Some content => (Ret (inl content), s, [])
        | None =>
            (Ret (inr ("open " +:+ path +:+ ": no such file or directory")),
             s, [])
        end
    end.

Definition http_Get (url : string) : M (Response + string) :=
  emit (EvHttpGet url) ;; ret (http_reply E url).

Definition exec_Output (Command : string) : M (string * option string) :=
  λ s,
    match shell E Command (cwd s) (files s) with
    | (fs, out, err) =>
        (Ret (out, err), mkState fs (cwd s) (wg s), [EvExec Command])
    end.

(** *** The wait group [wg] *)

(** [wg.Add(delta)]: the counter changes by [delta]; a call that would make
    it negative panics, and the counter, which nothing reads after that, is
    left as it was. *)
Definition wg_Add (delta : Z) : M unit :=
  λ s,
    let v := (Z.of_N (wg s) + delta)%Z in
    if decide (v < 0)%Z
    then (Panic "sync: negative WaitGroup counter", s, [])
    else (Ret tt, mkState (files s) (cwd s) (Z.to_N v), []).

(** [wg.Done()] is [wg.Add(-1)]. *)
Definition wg_Done : M unit := wg_Add (-1).

(** [wg.Wait] returns when the counter is zero; with no other goroutine to
    lower it, a positive counter stops the program. *)
Definition wg_Wait : M unit :=
  λ s,
    if decide (wg s = 0%N) then (Ret tt, s, [])
    else (Panic "all goroutines are asleep - deadlock!", s, []).

(** *** Download (main.go, lines 49-72) *)

(** The loop of [io.Copy] from a downloader into the file at [dst]: one
    [Read] for each pending chunk and the one that meets the end. *)
Fixpoint io_Copy_loop (reads : list string) (dst : string) (d : Downloader)
  : M (option string) :=
  let* r := Downloader_Read d in
  match r with
  | (d, data, err) =>
      (if String.eqb data "" then ret tt else file_Write dst data) ;;
      match reads with
      | [] =>
          ret (match err with
               | Some e => if String.eqb e "EOF" then None else Some e
               | None => None
               end)
      | _ :: rest => io_Copy_loop rest dst d
      end
  end.

Definition io_Copy (dst : string) (d : Downloader) : M (option string) :=
  io_Copy_loop (pending (Reader d)) dst d.

Definition downloadFile (url filePath : string) : M unit :=
  defer wg_Done
    (let* got := http_Get url in
     match got with
     | inr err => log_Fatal err
     | inl resp =>
         let* err := os_Create filePath in
         match err with
         | Some e => panic e
         | None =>
             let downloader :=
               mkDownloader (Body resp) (ContentLength resp) 0 in
             let* err := io_Copy filePath downloader in
             match err with
             | Some e => log_Fatal e
             | None => ret tt
             end
         end
     end).

(** *** Version sources (main.go, lines 76-179) *)

Record WebPageInfo : Type := mkWebPageInfo {
  Path : string;
  URL : string;
  Version : string
}.

Definition is_digit (c : ascii) : bool :=
  (48 <=? nat_of_ascii c)%nat && (nat_of_ascii c <=? 57)%nat.

(** [MatchDockerImageDir]: the anchored pattern [^openEuler-[\d].*] has one
    match when the text starts with [openEuler-] and a digit, and none
    otherwise. *)
Definition MatchDockerImageDir (Text : string) : bool :=
  Str.HasPrefix Text "openEuler-"
  && match String.get 10 Text with
     | Some c => is_digit c
     | None => false
     end.

Definition mirror_url : string := "https://repo.openeuler.org/".

(** The callback of [GetOpenEulerTag] on one link of the listing. *)
Definition on_link (Result : list WebPageInfo) (link : string * string)
  : M (list WebPageInfo) :=
  let Path := link.1 in
  if MatchDockerImageDir Path then
    match Str.slice Path 10 (String.length Path - 1) with
    | Some v =>
        ret (Result ++ [mkWebPageInfo Path
                          (filepath.Join [mirror_url; link.2])
                          (ToLower E v)])
    | None => panic "runtime error: slice bounds out of range"
    end
  else ret Result.

Fixpoint on_links (Result : list WebPageInfo) (links : list (string * string))
  : M (list WebPageInfo) :=
  match links with
  | [] => ret Result
  | link :: rest =>
      let* Result := on_link Result link in
      on_links Result rest
  end.

Definition GetOpenEulerTag : M (list string) :=
  emit (EvVisit mirror_url) ;;
  let* Result := on_links [] (mirror_links E) in
  (match mirror_error E with
   | Some err => Println err
   | None => ret tt
   end) ;;
  ret (map Version Result).

Definition hub_url : string :=
  "https://hub.docker.com/v2/repositories/openeuler2k8s/openeuler/tags".

Definition GetDockerHubTag : M (list string) :=
  emit (EvHttpGet hub_url) ;;
  match hub_names E with
  | inr err => panic err
  | inl names => ret (List.filter (λ n, negb (String.eqb n "latest")) names)
  end.

(** *** Helpers of the materializer (main.go, lines 202-245) *)

Definition PathExists (path : string) : M (bool * option error) :=
  let* err := os_Stat path in
  match err with
  | None => ret (true, None)
  | Some e =>
      if os_IsNotExist e then ret (false, None) else ret (false, Some e)
  end.

Definition sha256encode (FilePath : string) : M string :=
  let* f := os_ReadFile FilePath in
  match f with
  | inr err => log_Fatal err
  | inl content => ret (hex.EncodeToString (sha256_Sum E content))
  end.

Definition ReadFile (FilePath : string) : M string :=
  let* r := os_ReadFile FilePath in
  match r with
  | inr err => panic err
  | inl content =>
      match Str.slice content 0 64 with
      | Some digest => ret digest
      | None => panic "runtime error: slice bounds out of range"
      end
  end.

Definition ExecCommand (Command : string) : M string :=
  Println Command ;;
  let* r := exec_Output Command in
  (match r.2 with
   | Some err => Println err
   | None => ret tt
   end) ;;
  ret r.1.

(** *** The materializer (main.go, lines 247-320) *)

Definition imageFile (arch : string) : string :=
  "openEuler-docker." +:+ arch +:+ ".tar.xz".
Definition rootfsFile (arch : string) : string :=
  "openEuler-docker-rootfs." +:+ arch +:+ ".tar".
Definition sha256sumFile (arch : string) : string :=
  "openEuler-docker." +:+ arch +:+ ".tar.xz.sha256sum".

Definition BasicURL (version : string) : string :=
  "https://repo.openeuler.org/openEuler-" +:+ ToUpper E version
  +:+ "/docker_img/".

(** Lines 264-282: each of the two files is downloaded when [PathExists]
    reports it absent. *)
Definition fetch_if_absent (path url : string) (announce : bool) : M unit :=
  let* r := PathExists path in
  match r with
  | (_, Some err) => panic (Error err)
  | (isExist, None) =>
      if isExist then ret tt
      else
        (if announce then Println url else ret tt) ;;
        wg_Add 1 ;;
        downloadFile url path
  end.

(** Lines 284-288: the digest of the image against the sidecar. *)
Definition verify_checksum (imagePath sha256sumPath : string) : M unit :=
  let* SrcSha256 := sha256encode imagePath in
  let* DestSha256 := ReadFile sha256sumPath in
  if String.eqb SrcSha256 DestSha256 then ret tt
  else panic "Sha256 Sum Error.".

(** Lines 298-316: the rootfs archive is repackaged by external commands. *)
Definition derive_rootfs (pwd dir arch : string) : M unit :=
  os_Chdir dir ;;
  let* result :=
    ExecCommand ("tar -xf openEuler-docker." +:+ arch
                 +:+ ".tar.xz --wildcards '*.tar' --exclude 'layer.tar'") in
  Println result ;;
  let* result := ExecCommand "ls | xargs -n1 | grep -v openEuler |grep *.tar" in
  Println result ;;
  let arr := Str.Split (ascii_of_nat 10) result in
  Println (format_slice arr) ;;
  let tarFileName := hd "" arr in
  let* result :=
    ExecCommand ("mv " +:+ tarFileName +:+ " openEuler-docker-rootfs."
                 +:+ arch +:+ ".tar") in
  Println result ;;
  let* result :=
    ExecCommand ("xz -z openEuler-docker-rootfs." +:+ arch +:+ ".tar") in
  Println result ;;
  let* result :=
    ExecCommand ("cp " +:+ pwd +:+ "/Dockerfile " +:+ dir +:+ "/Dockerfile") in
  Println result.

(** Lines 289-317: the check of the rootfs file, the assertion on the host
    and the branch that derives the archive. *)
Definition ensure_rootfs (pwd dir arch rootfsPath : string) : M unit :=
  let* r := PathExists rootfsPath in
  match r with
  | (_, Some err) => panic (Error err)
  | (isExist, None) =>
      let sysType := GOOS E in
      if negb (String.eqb sysType "linux") then panic "Only Linux Run."
      else if negb isExist then derive_rootfs pwd dir arch
      else ret tt
  end.

(** The body of the two loops of [ImagePrepare] for one version and one
    architecture (lines 251-317). *)
Definition ImagePrepare_pair (pwd version arch : string) : M unit :=
  let dir := filepath.Join [pwd; "openEuler"; version; arch] in
  let* err := os_MkdirAll dir in
  (match err with
   | Some e => Println e
   | None => ret tt
   end) ;;
  let imagePath := filepath.Join [dir; imageFile arch] in
  let sha256sumPath := filepath.Join [dir; sha256sumFile arch] in
  let rootfsPath := filepath.Join [dir; rootfsFile arch] in
  fetch_if_absent imagePath
    (BasicURL version +:+ arch +:+ "/" +:+ imageFile arch) true ;;
  fetch_if_absent sha256sumPath
    (BasicURL version +:+ arch +:+ "/" +:+ sha256sumFile arch) false ;;
  wg_Wait ;;
  verify_checksum imagePath sha256sumPath ;;
  ensure_rootfs pwd dir arch rootfsPath.

Definition ImagePrepare (MatchResult archs : list string) : M unit :=
  let* pwd := os_Getwd in
  forM_ MatchResult (λ version,
    forM_ archs (λ arch, ImagePrepare_pair pwd version arch)).

(** *** Entry point (main.go, lines 379-403) *)

Definition buildImage (dir name : string) : M (list string * option string) :=
  emit (EvBuild dir name) ;; ret (build_result E dir name).

Definition run : M unit :=
  let archs := [] ++ ["x86_64"] in
  let archs := archs ++ ["aarch64"] in
  let* OpenEulerTag := GetOpenEulerTag in
  let* DockerHubTag := GetDockerHubTag in
  let MatchResult := MatchTag OpenEulerTag DockerHubTag in
  ImagePrepare MatchResult archs.

Definition usage : string :=
  "bad num of arguments:" +:+ String (ascii_of_nat 10) ""
  +:+ String (ascii_of_nat 9) "1. = dir with image content"
  +:+ String (ascii_of_nat 10) "" +:+ String (ascii_of_nat 9) "2. = image name".

Definition main (Args : list string) : M unit :=
  run ;;
  (if negb (length Args =? 3)%nat then
     Println usage ;; os_Exit 0
   else ret tt) ;;
  let* r := buildImage (nth 1 Args "") (nth 2 Args "") in
  match r with
  | (_, Some err) => log_Fatal err
  | (msg, None) => Println (format_slice msg)
  end.

End Program.

(** The paths of one version and architecture under a working directory,
    as [ImagePrepare] computes them. *)
Definition imagePath (pwd version arch : string) : string :=
  filepath.Join [target_dir pwd version arch; imageFile arch].
Definition sha256sumPath (pwd version arch : string) : string :=
  filepath.Join [target_dir pwd version arch; sha256sumFile arch].
Definition rootfsPath (pwd version arch : string) : string :=
  filepath.Join [target_dir pwd version arch; rootfsFile arch].

(** The pairs of the two nested loops, in the order they are visited. *)
Definition pairs_of (versions archs : list string) : list (string * string) :=
  flat_map (λ version, map (λ arch, (version, arch)) archs) versions.

(** What the run shows of [os.MkdirAll] on a directory: the call and, when
    it fails, the printed error. *)
Definition mkdir_trace (E : Env) (dir : string) : list Event :=
  EvMkdirAll dir ::
  match mkdir_error E dir with
  | Some e => [EvPrint e]
  | None => []
  end.

(** A file that [os.Stat] finds. *)
Definition present (E : Env) (s : State) (path : string) : Prop :=
  stat_error E path = None ∧ is_Some (files s !! path).

(** A file with the given content that can be opened. *)
Definition holds (E : Env) (s : State) (path content : string) : Prop :=
  open_error E path = None ∧ files s !! path = Some content.

(** The events a run without download and without extraction can show. *)
Definition is_quiet (e : Event) : bool :=
  match e with
  | EvPrint _ | EvMkdirAll _ => true
  | _ => false
  end.

(** The computation leaves the state as it is and shows quiet events
    only. *)
Definition quiet_run {A} (m : M A) (s : State) : Prop :=
  state_of (m s) = s ∧ Forall (λ e, is_quiet e = true) (trace_of (m s)).

(** The three files of every pair of the run are there. *)
Definition populated (E : Env) (s : State) (versions archs : list string)
  : Prop :=
  ∀ version arch, version ∈ versions → arch ∈ archs →
    present E s (imagePath (cwd s) version arch)
    ∧ present E s (sha256sumPath (cwd s) version arch)
    ∧ present E s (rootfsPath (cwd s) version arch).

(** A piece of a path: not empty and without separator. *)
Definition piece (w : string) : Prop :=
  w ≠ "" ∧ Str.contains filepath.Separator w = false.

(** ** Sample environments and states *)


Definition with_mkdir_error (f : string → option string) (E : Env) : Env :=
  mkEnv (GOOS E) (sha256_Sum E) (ToUpper E) (ToLower E) f
    (stat_error E) (create_error E) (open_error E) (chdir_error E)
    (http_reply E) (shell E) (mirror_links E) (mirror_error E) (hub_names E)
    (build_result E).

Definition with_create_error (f : string → option string) (E : Env) : Env :=
  mkEnv (GOOS E) (sha256_Sum E) (ToUpper E) (ToLower E) (mkdir_error E)
    (stat_error E) f (open_error E) (chdir_error E)
    (http_reply E) (shell E) (mirror_links E) (mirror_error E) (hub_names E)
    (build_result E).

Definition with_http_reply (f : string → Response + string) (E : Env) : Env :=
  mkEnv (GOOS E) (sha256_Sum E) (ToUpper E) (ToLower E) (mkdir_error E)
    (stat_error E) (create_error E) (open_error E) (chdir_error E)
    f (shell E) (mirror_links E) (mirror_error E) (hub_names E)
    (build_result E).

Definition with_hub_names (names : list string + string) (E : Env) : Env :=
  mkEnv (GOOS E) (sha256_Sum E) (ToUpper E) (ToLower E) (mkdir_error E)
    (stat_error E) (create_error E) (open_error E) (chdir_error E)
    (http_reply E) (shell E) (mirror_links E) (mirror_error E) names
    (build_result E).

Fixpoint repeat_byte (n : nat) (c : ascii) : string :=
  match n with
  | O => ""
  | S n => String c (repeat_byte n c)
  end.

Fixpoint map_bytes (f : ascii → ascii) (s : string) : string :=
  match s with
  | EmptyString => ""
  | String c rest => String (f c) (map_bytes f rest)
  end.

Definition upper_byte (c : ascii) : ascii :=
  let n := nat_of_ascii c in
  if (97 <=? n)%nat && (n <=? 122)%nat then ascii_of_nat (n - 32) else c.

Definition lower_byte (c : ascii) : ascii :=
  let n := nat_of_ascii c in
  if (65 <=? n)%nat && (n <=? 90)%nat then ascii_of_nat (n + 32) else c.

(** A digest of 32 bytes for the samples: the length of the content,
    repeated. *)
Definition sample_sum (content : string) : string :=
  repeat_byte 32 (ascii_of_nat (String.length content)).

(** A Linux host without network, whose system calls succeed and whose
    mirror and registry list nothing. *)
Definition sample_env : Env :=
  mkEnv "linux" sample_sum (map_bytes upper_byte) (map_bytes lower_byte)
    (λ _, None) (λ _, None) (λ _, None) (λ _, None) (λ _, None)
    (λ _, inr "dial tcp: connect: network is unreachable")
    (λ _ _ fs, (fs, "", None))
    [] None (inl []) (λ _ _, ([], None)).

Definition sample_image : string := "image".

Definition sample_sidecar : string :=
  hex.EncodeToString (sample_sum sample_image)
  +:+ "  openEuler-docker.x86_64.tar.xz".

(** The working directory [/home/ci] with the given sidecar next to the
    image and the rootfs file of [22.03-lts] on [x86_64]. *)
Definition sample_state (sidecar : string) : State :=
  mkState
    (<[imagePath "/home/ci" "22.03-lts" "x86_64" := sample_image]>
       (<[sha256sumPath "/home/ci" "22.03-lts" "x86_64" := sidecar]>
          (<[rootfsPath "/home/ci" "22.03-lts" "x86_64" := "rootfs"]> ∅)))
    "/home/ci" 0.

Definition empty_state : State := mkState ∅ "/home/ci" 0.

(** The same process after a [wg.Add(1)]. *)
Definition added_state : State := mkState ∅ "/home/ci" 1.

(** A sidecar whose first digit was altered. *)
Definition tampered_sidecar : string :=
  match sample_sidecar with
  | String _ rest => String "f" rest
  | EmptyString => ""
  end.


(** A host on which the directory cannot be created, so that no file can
    be created in it either, while the mirror serves the image. *)
Definition denied_env : Env :=
  with_mkdir_error
    (λ _, Some "mkdir /home/ci/openEuler: permission denied")
    (with_create_error
       (λ path, Some ("open " +:+ path +:+ ": no such file or directory"))
       (with_http_reply
          (λ _, inl (mkResponse 5 (mkReader [sample_image] None)))
          sample_env)).

Definition image_url (E : Env) (version arch : string) : string :=
  BasicURL E version +:+ arch +:+ "/" +:+ imageFile arch.

(** A host that cannot resolve the registry. *)
Definition offline_env : Env :=
  with_hub_names (inr "dial tcp: lookup hub.docker.com: no such host")
    sample_env.

Definition newline : ascii := ascii_of_nat 10.

(** A mirror that serves the image of [22.03-lts] on [x86_64] in two
    chunks and its sidecar in one. *)
Definition serving_env : Env :=
  with_http_reply
    (λ url,
       if String.eqb url (image_url sample_env "22.03-lts" "x86_64")
       then inl (mkResponse 5 (mkReader ["ima"; "ge"] None))
       else if String.eqb url
                 (image_url sample_env "22.03-lts" "x86_64" +:+ ".sha256sum")
       then inl (mkResponse 96 (mkReader [sample_sidecar] None))
       else inr "404 Not Found")
    sample_env.

Definition is_request (e : Event) : bool :=
  match e with
  | EvHttpGet _ => true
  | _ => false
  end.

Definition is_command (e : Event) : bool :=
  match e with
  | EvExec _ => true
  | _ => false
  end.

(** The string [s] with its byte at index [i] replaced by [c]. *)
Fixpoint set_byte (i : nat) (c : ascii) (s : string) : string :=
  match s with
  | EmptyString => ""
  | String d rest =>
      match i with
      | O => String c rest
      | S i => String d (set_byte i c rest)
      end
  end.

(** ** Further definitions: downloads, commands, temporary names *)

(** The version that [GetOpenEulerTag] reads off the text of a link. *)
Definition version_of (E : Env) (Text : string) : string :=
  ToLower E (String.substring 10 (String.length Text - 11) Text).

(** The bytes of a body: its chunks one after the other. *)
Definition concat_chunks (chunks : list string) : string :=
  foldr String.append "" chunks.

(** The error [io.Copy] returns for the final error of a body: none for
    [io.EOF]. *)
Definition copy_error (failure : option string) : option string :=
  match failure with
  | Some e => if String.eqb e "EOF" then None else Some e
  | None => None
  end.

Definition is_progress (e : Event) : bool :=
  match e with
  | EvProgress _ _ => true
  | _ => false
  end.

(** A mirror whose connection breaks after three bytes of the image. *)
Definition broken_env : Env :=
  with_http_reply
    (λ _, inl (mkResponse 5 (mkReader ["ima"] (Some "unexpected EOF"))))
    sample_env.

(** A computation that, when it returns, leaves the counter of the wait
    group as it found it. *)
Definition wg_kept {A} (m : M A) : Prop :=
  ∀ s a s' t, m s = (Ret a, s', t) → wg s' = wg s.

(** The first line of the output of a command, as [strings.Split(result,
    "\n")[0]] takes it. *)
Definition first_line (out : string) : string := hd "" (Str.Split newline out).

(** The commands of the repackaging (lines 299-314). *)
Definition tar_command (arch : string) : string :=
  "tar -xf openEuler-docker." +:+ arch
  +:+ ".tar.xz --wildcards '*.tar' --exclude 'layer.tar'".
Definition ls_command : string :=
  "ls | xargs -n1 | grep -v openEuler |grep *.tar".
Definition mv_command (tarFileName arch : string) : string :=
  "mv " +:+ tarFileName +:+ " openEuler-docker-rootfs." +:+ arch +:+ ".tar".
Definition xz_command (arch : string) : string :=
  "xz -z openEuler-docker-rootfs." +:+ arch +:+ ".tar".
Definition cp_command (pwd dir : string) : string :=
  "cp " +:+ pwd +:+ "/Dockerfile " +:+ dir +:+ "/Dockerfile".

(** What a command run in the state [s] writes to its standard output,
    the state it leaves, and what [ExecCommand] and the [fmt.Println] of its
    result show of it. *)
Definition command_output (E : Env) (Command : string) (s : State) : string :=
  (shell E Command (cwd s) (files s)).1.2.

Definition command_state (E : Env) (Command : string) (s : State) : State :=
  mkState (shell E Command (cwd s) (files s)).1.1 (cwd s) (wg s).

Definition command_trace (E : Env) (Command : string) (s : State)
  : list Event :=
  EvPrint Command :: EvExec Command ::
  match (shell E Command (cwd s) (files s)).2 with
  | Some err => [EvPrint err]
  | None => []
  end ++ [EvPrint (command_output E Command s)].

(** The state after [os.Chdir(dir)]: the working directory is [dir] unless
    the call failed. *)
Definition chdir_state (E : Env) (dir : string) (s : State) : State :=
  match chdir_error E dir with
  | Some _ => s
  | None =>
      mkState (files s)
        (if Str.HasPrefix dir "/" then dir else filepath.Join [cwd s; dir])
        (wg s)
  end.

(** ** Further definitions: the fetch step and a repackaged directory *)

Definition sidecar_url (E : Env) (version arch : string) : string :=
  BasicURL E version +:+ arch +:+ "/" +:+ sha256sumFile arch.

(** The mirror serves [content] for [url]: the request succeeds, the
    response declares a length other than zero and its body ends in
    [io.EOF] after the bytes of [content]. *)
Definition serves (E : Env) (url content : string) : Prop :=
  ∃ resp,
    http_reply E url = inl resp ∧ ContentLength resp ≠ 0%Z
    ∧ copy_error (failure (Body resp)) = None
    ∧ concat_chunks (pending (Body resp)) = content.

(** The content that the fetch step of a pair leaves at [path]: that of
    the file that is there or, for a file that is not there and can be
    created, what the mirror serves for [url]; in both cases a file that
    [os.Stat] and [os.Open] accept. *)
Definition supplied (E : Env) (s : State) (path url content : string)
  : Prop :=
  stat_error E path = None ∧ open_error E path = None
  ∧ (files s !! path = Some content
     ∨ (files s !! path = None ∧ create_error E path = None
        ∧ serves E url content)).

(** The request that the fetch step makes for [path]: none for a file
    that is there. *)
Definition absent_request (s : State) (path url : string) : list Event :=
  match files s !! path with
  | Some _ => []
  | None => [EvHttpGet url]
  end.

(** The state after the fetch step of a pair that was supplied with
    [image] and [sidecar]. *)
Definition fetched (s : State) (ip image sp sidecar : string) : State :=
  mkState (<[sp := sidecar]> (<[ip := image]> (files s))) (cwd s) (wg s).

(** The events of the fetch step. *)
Definition is_fetch (e : Event) : bool :=
  match e with
  | EvPrint _ | EvHttpGet _ | EvCreate _ | EvProgress _ _ => true
  | _ => false
  end.

(** The file that [xz -z] writes for the rootfs archive of a pair. *)
Definition compressedPath (pwd version arch : string) : string :=
  filepath.Join [target_dir pwd version arch; rootfsFile arch +:+ ".xz"].

(** The target directory of a pair as a completed first run leaves it: the
    image and its sidecar are there and the digest verifies; of the rootfs
    archive there is the compressed file [openEuler-docker-rootfs.<arch>.tar.xz]
    that the last but one command, [xz -z], wrote, and not the [.tar] file
    that it was given, which [xz -z] removes. *)
Definition repackaged (E : Env) (s : State) (version arch : string) : Prop :=
  ∃ image sidecar,
    present E s (imagePath (cwd s) version arch)
    ∧ holds E s (imagePath (cwd s) version arch) image
    ∧ present E s (sha256sumPath (cwd s) version arch)
    ∧ holds E s (sha256sumPath (cwd s) version arch) sidecar
    ∧ 64 ≤ String.length sidecar
    ∧ hex.EncodeToString (sha256_Sum E image) = String.substring 0 64 sidecar
    ∧ present E s (compressedPath (cwd s) version arch)
    ∧ stat_error E (rootfsPath (cwd s) version arch) = None
    ∧ files s !! rootfsPath (cwd s) version arch = None.

Definition with_shell
  (f : string → string → gmap string string →
       gmap string string * string * option string) (E : Env) : Env :=
  mkEnv (GOOS E) (sha256_Sum E) (ToUpper E) (ToLower E) (mkdir_error E)
    (stat_error E) (create_error E) (open_error E) (chdir_error E)
    (http_reply E) f (mirror_links E) (mirror_error E) (hub_names E)
    (build_result E).

(** A shell that does to the files what the tools of the repackaging do:
    [tar -xf] unpacks the layer of the archive it is given, the listing
    names that layer, [mv] renames a file, [xz -z] replaces a file by its
    compressed form unless that exists, and [cp] copies a file; a command
    whose file is not there fails. *)
Definition tools (Command dir : string) (fs : gmap string string)
  : gmap string string * string * option string :=
  let words := Str.Split " " Command in
  let verb := hd "" words in
  let inside name := filepath.Join [dir; name] in
  let failed := (fs, "", Some "exit status 1") in
  if String.eqb verb "tar" then
    match fs !! inside (nth 2 words "") with
    | Some _ => (<[inside "a3f5c1.tar" := "rootfs"]> fs, "", None)
    | None => failed
    end
  else if String.eqb verb "ls" then
    match fs !! inside "a3f5c1.tar" with
    | Some _ => (fs, "a3f5c1.tar" +:+ String newline "", None)
    | None => failed
    end
  else if String.eqb verb "mv" then
    match fs !! inside (nth 1 words "") with
    | Some content =>
        (<[inside (nth 2 words "") := content]>
           (delete (inside (nth 1 words "")) fs), "", None)
    | None => failed
    end
  else if String.eqb verb "xz" then
    match fs !! inside (nth 2 words ""),
          fs !! inside (nth 2 words "" +:+ ".xz") with
    | Some content, None =>
        (<[inside (nth 2 words "" +:+ ".xz") := "xz:" +:+ content]>
           (delete (inside (nth 2 words "")) fs), "", None)
    | _, _ => failed
    end
  else if String.eqb verb "cp" then
    match fs !! nth 1 words "" with
    | Some content => (<[nth 2 words "" := content]> fs, "", None)
    | None => failed
    end
  else failed.

(** The serving mirror on a host with these tools. *)
Definition unix_env : Env := with_shell tools serving_env.

(** A working directory that holds the Dockerfile and nothing else. *)
Definition first_state : State :=
  mkState {[ "/home/ci/Dockerfile" := "FROM scratch" ]} "/home/ci" 0.

(** A new process started in the same working directory after the run in
    [first_state] has ended: the files are those that the run left. *)
Definition second_state : State :=
  mkState
    (files (state_of (ImagePrepare unix_env ["22.03-lts"] ["x86_64"]
                        first_state)))
    "/home/ci" 0.

(** A mirror that serves the image with a sidecar whose first digit was
    altered. *)
Definition tampering_env : Env :=
  with_http_reply
    (λ url,
       if String.eqb url (image_url sample_env "22.03-lts" "x86_64")
       then inl (mkResponse 5 (mkReader ["ima"; "ge"] None))
       else if String.eqb url (sidecar_url sample_env "22.03-lts" "x86_64")
       then inl (mkResponse 96 (mkReader [tampered_sidecar] None))
       else inr "404 Not Found")
    sample_env.

(** A registry that already has the two versions of the mirror. *)
Definition published_env : Env :=
  mkEnv "linux" sample_sum (map_bytes upper_byte) (map_bytes lower_byte)
    (λ _, None) (λ _, None) (λ _, None) (λ _, None) (λ _, None)
    (λ _, inr "unreachable") (λ _ _ fs, (fs, "", None))
    [("../", "../"); ("openEuler-20.03-LTS/", "openEuler-20.03-LTS/");
     ("openEuler-22.03-LTS/", "openEuler-22.03-LTS/")]
    None (inl ["latest"; "22.03-lts"; "20.03-lts"]) (λ _ _, ([], None)).

(** [tempFileName].  [random] is what [rand.Read] leaves in the 16 bytes,
    or its error; [TempDir] is the result of [os.TempDir()]. *)
Definition tempFileName (TempDir : string) (random : string + string)
  (prefix suffix : string) : string * option string :=
  match random with
  | inr err => ("", Some err)
  | inl randBytes =>
      (filepath.Join
         [TempDir; prefix +:+ hex.EncodeToString randBytes +:+ suffix],
       None)
  end.

(** The value of a hex digit, and the byte that two digits write. *)
Definition unhex_digit (c : ascii) : N :=
  match String.index 0 (String c "") hex.hextable with
  | Some i => N.of_nat i
  | None => 0
  end.

Definition unhex_byte (hi lo : ascii) : ascii :=
  ascii_of_N (16 * unhex_digit hi + unhex_digit lo).

Fixpoint unhex (s : string) : string :=
  match s with
  | String hi (String lo rest) => String (unhex_byte hi lo) (unhex rest)
  | _ => ""
  end.

Fixpoint all_bytes (P : ascii → bool) (s : string) : bool :=
  match s with
  | EmptyString => true
  | String c rest => P c && all_bytes P rest
  end.

Definition is_lower_hex (c : ascii) : bool := Str.contains c hex.hextable.

Definition is_mkdir (e : Event) : bool :=
  match e with
  | EvMkdirAll _ => true
  | _ => false
  end.

(** A computation that never calls [os.MkdirAll]. *)
Definition no_mkdir {A} (m : M A) : Prop :=
  ∀ s, List.filter is_mkdir (trace_of (m s)) = [].

(** * Properties *)

(** ** Sample evaluations *)

Example split_demo : Str.Split "/"%char "/a//b/" = [""; "a"; ""; "b"; ""].
Proof. reflexivity. Qed.

Example clean_demo :
  filepath.Clean "/a/./b/../../c//" = "/c"
  ∧ filepath.Clean "a/../.." = ".."
  ∧ filepath.Clean "/.." = "/"
  ∧ filepath.Clean "" = "."
  ∧ filepath.Clean "a/.." = ".".
Proof. repeat split; reflexivity. Qed.

Example target_dir_demo :
  target_dir "/home/ci" "22.03-lts" "x86_64"
  = "/home/ci/openEuler/22.03-lts/x86_64".
Proof. reflexivity. Qed.

Example clean_relative :
  filepath.Clean "a/b/../../.." = ".."
  ∧ filepath.Clean "../a/.." = ".."
  ∧ filepath.Clean "../.." = "../.."
  ∧ filepath.Clean "//a///b/." = "/a/b"
  ∧ filepath.Join [""; "a"; ""; "b"] = "a/b"
  ∧ filepath.Join [""; ""] = "".
Proof. repeat split; reflexivity. Qed.

Example MatchTag_demo :
  MatchTag ["openeuler-22.03"; "openeuler-20.03"] ["openeuler-20.03"]
  = ["openeuler-22.03"].
Proof. reflexivity. Qed.

Example hex_demo :
  hex.EncodeToString (String (ascii_of_nat 0) (String (ascii_of_nat 171) "z"))
  = "00ab7a".
Proof. reflexivity. Qed.


(** ** The reconciler *)

Lemma SelectStringInList_elem (s : string) (D : list string) :
  SelectStringInList s D = true ↔ s ∈ D.
Proof.
  induction D as [|d D IH]; simpl.
  - split; [discriminate | intros H; inversion H].
  - destruct (String.eqb_spec d s) as [->|Hne].
    + split; [intros _; left | reflexivity].
    + rewrite IH. split; [intros H; by right|].
      intros H. inversion H; subst; [by destruct Hne | done].
Qed.

Lemma MatchTag_loop_filter (S D R : list string) :
  MatchTag_loop S D R = R ++ filter (λ s, s ∉ D) S.
Proof.
  revert R. induction S as [|s S IH]; intros R; simpl.
  - by rewrite app_nil_r.
  - destruct (SelectStringInList s D) eqn:Hsel.
    + apply SelectStringInList_elem in Hsel.
      rewrite IH, filter_cons_False; [done | by intros Hn; apply Hn].
    + assert (s ∉ D) as Hn.
      { intros Hin. apply SelectStringInList_elem in Hin. congruence. }
      rewrite IH, filter_cons_True by done. by rewrite <- app_assoc.
Qed.

(** C1.  [MatchTag] returns the entries of the source that occur nowhere
    in the destination (membership is equality of strings), in the order of
    the source and with its duplicates; an empty source gives the empty
    result and an empty destination gives the source back. *)
Theorem MatchTag_reconcile (source destination : list string) :
  MatchTag source destination = reconcile_spec source destination
  ∧ MatchTag [] destination = []
  ∧ MatchTag source [] = source.
Proof.
  unfold MatchTag, reconcile_spec. split; [|split].
  - by rewrite MatchTag_loop_filter.
  - reflexivity.
  - rewrite MatchTag_loop_filter. simpl.
    induction source as [|s S IH]; [done|].
    rewrite filter_cons_True; [by rewrite IH | by intros H; inversion H].
Qed.

(** ** Splitting and joining on the separator *)

Section SplitJoin.

Variable sep : ascii.

Lemma Split_nonempty (s : string) : Str.Split sep s ≠ [].
Proof.
  destruct s as [|c s]; simpl; [done|].
  destruct (Ascii.eqb c sep); [done|].
  by destruct (Str.Split sep s).
Qed.

Lemma Split_app_sep (s1 s2 : string) :
  Str.Split sep (s1 +:+ String sep s2) = Str.Split sep s1 ++ Str.Split sep s2.
Proof.
  induction s1 as [|c s1 IH]; simpl.
  - by rewrite Ascii.eqb_refl.
  - destruct (Ascii.eqb c sep); [by rewrite IH|].
    rewrite IH. pose proof (Split_nonempty s1) as Hne.
    by destruct (Str.Split sep s1).
Qed.

Lemma Split_without_sep (s : string) :
  Str.contains sep s = false → Str.Split sep s = [s].
Proof.
  induction s as [|c s IH]; simpl; [done|].
  intros H. apply orb_false_iff in H as [Hc Hs].
  rewrite Hc, (IH Hs). done.
Qed.

Lemma Split_pieces (s : string) :
  Forall (λ w, Str.contains sep w = false) (Str.Split sep s).
Proof.
  induction s as [|c s IH]; simpl.
  - by constructor.
  - destruct (Ascii.eqb c sep) eqn:Hc; [by constructor|].
    destruct (Str.Split sep s) as [|w ws].
    + constructor; [simpl; by rewrite Hc | done].
    + inversion IH; subst. constructor; [simpl; by rewrite Hc | done].
Qed.

Lemma Split_Join (elems : list string) :
  elems ≠ [] →
  Forall (λ w, Str.contains sep w = false) elems →
  Str.Split sep (Str.Join elems (String sep "")) = elems.
Proof.
  induction elems as [|e rest IH]; [done|].
  intros _ Hall. inversion Hall as [|? ? He Hrest]; subst.
  destruct rest as [|e' rest].
  - simpl. by apply Split_without_sep.
  - change (Str.Join (e :: e' :: rest) (String sep ""))
      with (e +:+ String sep (Str.Join (e' :: rest) (String sep ""))).
    rewrite Split_app_sep, (Split_without_sep e He), IH by done. done.
Qed.

End SplitJoin.

(** ** Cleaned paths *)

Section Paths.

Import filepath.

Lemma is_element_piece (w : string) : is_element w = true → piece w.
Proof.
  unfold is_element, piece. rewrite !andb_true_iff, !negb_true_iff.
  intros [[[H1 _] _] H4]. split; [|done].
  intros ->. discriminate.
Qed.

Lemma is_element_kept (w : string) : is_element w = true → kept w = true.
Proof.
  unfold is_element, kept. rewrite !andb_true_iff. tauto.
Qed.

Lemma is_element_push (rooted : bool) (stack : list string) (w : string) :
  is_element w = true → push rooted stack w = w :: stack.
Proof.
  unfold is_element, push. rewrite !andb_true_iff, !negb_true_iff.
  intros [[[_ _] ->] _]. done.
Qed.

Lemma push_pieces (rooted : bool) (stack : list string) (w : string) :
  Forall piece stack → piece w → Forall piece (push rooted stack w).
Proof.
  intros Hst Hw. unfold push.
  destruct (String.eqb w "..").
  - destruct stack as [|top below].
    + destruct rooted; [done | by constructor].
    + destruct (String.eqb top ".."); [by constructor|].
      by inversion Hst.
  - by constructor.
Qed.

Lemma fold_push_pieces (rooted : bool) (ws stack : list string) :
  Forall piece ws → Forall piece stack →
  Forall piece (fold_left (push rooted) ws stack).
Proof.
  revert stack. induction ws as [|w ws IH]; intros stack Hws Hst; simpl.
  - done.
  - inversion Hws; subst. apply IH; [done|]. by apply push_pieces.
Qed.

Lemma kept_Split_pieces (path : string) :
  Forall piece (List.filter kept (Str.Split Separator path)).
Proof.
  apply List.Forall_forall. intros w Hin.
  apply List.filter_In in Hin as [Hin Hk]. split.
  - intros ->. discriminate.
  - pose proof (Split_pieces Separator path) as Hall.
    rewrite List.Forall_forall in Hall. by apply Hall.
Qed.

Lemma elements_pieces (rooted : bool) (path : string) :
  Forall piece (elements rooted path).
Proof.
  unfold elements. apply Forall_rev.
  apply fold_push_pieces; [apply kept_Split_pieces | constructor].
Qed.

Lemma Split_Join_cons (e : string) (rest : list string) :
  rest ≠ [] →
  Str.Split Separator (Str.Join (e :: rest) "/")
  = Str.Split Separator e ++ Str.Split Separator (Str.Join rest "/").
Proof.
  intros Hne. destruct rest as [|e' rest]; [done|].
  change (Str.Join (e :: e' :: rest) "/")
    with (e +:+ String Separator (Str.Join (e' :: rest) "/")).
  apply Split_app_sep.
Qed.

(** The elements of the joined path are those of the working directory
    followed by the three that [ImagePrepare] appends. *)
Lemma elements_target (rooted : bool) (pwd version arch : string) :
  is_element version = true → is_element arch = true →
  elements rooted (Str.Join [pwd; "openEuler"; version; arch] "/")
  = elements rooted pwd ++ ["openEuler"; version; arch].
Proof.
  intros Hv Ha. unfold elements.
  rewrite Split_Join_cons by done.
  pose proof (Split_Join Separator ["openEuler"; version; arch]) as HSJ.
  change (String Separator "") with "/" in HSJ.
  rewrite HSJ; [|done|].
  - rewrite List.filter_app, fold_left_app.
    cbn [List.filter]. change (kept "openEuler") with true. cbn iota.
    rewrite (is_element_kept _ Hv), (is_element_kept _ Ha).
    cbn [fold_left].
    rewrite (is_element_push rooted _ "openEuler") by done.
    rewrite (is_element_push _ _ _ Hv), (is_element_push _ _ _ Ha).
    cbn [rev]. by rewrite <- !app_assoc.
  - repeat constructor; [by apply is_element_piece in Hv as [_ ?]
                        | by apply is_element_piece in Ha as [_ ?]].
Qed.

Lemma Join_pieces_head (L : list string) :
  L ≠ [] → Forall piece L →
  ∃ c s, Str.Join L "/" = String c s ∧ c ≠ Separator.
Proof.
  destruct L as [|e rest]; [done|]. intros _ Hall.
  inversion Hall as [|? ? [Hne Hsep] _]; subst.
  destruct e as [|c e]; [done|].
  simpl in Hsep. apply orb_false_iff in Hsep as [Hc _].
  exists c. destruct rest as [|e' rest].
  - exists e. split; [done|]. intros ->. by rewrite Ascii.eqb_refl in Hc.
  - eexists. split; [reflexivity|]. intros ->. by rewrite Ascii.eqb_refl in Hc.
Qed.

Lemma assemble_pieces (rooted : bool) (L : list string) :
  L ≠ [] → Forall piece L →
  assemble rooted L = (if rooted then "/" else "") +:+ Str.Join L "/".
Proof.
  intros Hne Hall. unfold assemble.
  destruct (Join_pieces_head L Hne Hall) as (c & s & -> & _).
  by destruct rooted.
Qed.

Lemma assemble_inj (r1 r2 : bool) (L1 L2 : list string) :
  L1 ≠ [] → L2 ≠ [] → Forall piece L1 → Forall piece L2 →
  assemble r1 L1 = assemble r2 L2 → r1 = r2 ∧ L1 = L2.
Proof.
  intros Hne1 Hne2 H1 H2.
  rewrite !assemble_pieces by done.
  destruct (Join_pieces_head L1 Hne1 H1) as (c1 & s1 & E1 & Hc1).
  destruct (Join_pieces_head L2 Hne2 H2) as (c2 & s2 & E2 & Hc2).
  assert (Str.Join L1 "/" = Str.Join L2 "/" → L1 = L2) as Hinj.
  { intros Heq.
    pose proof (Split_Join Separator L1 Hne1) as S1.
    pose proof (Split_Join Separator L2 Hne2) as S2.
    change (String Separator "") with "/" in S1, S2.
    rewrite <- S1, <- S2.
    - by rewrite Heq.
    - eapply Forall_impl; [exact H2 | by intros ? [_ ?]].
    - eapply Forall_impl; [exact H1 | by intros ? [_ ?]]. }
  destruct r1, r2; intros Heq.
  - split; [done|]. apply Hinj. cbn [String.append] in Heq.
    by injection Heq.
  - exfalso. rewrite E2 in Heq. cbn [String.append] in Heq.
    injection Heq as Hc _. by subst c2.
  - exfalso. rewrite E1 in Heq. cbn [String.append] in Heq.
    injection Heq as Hc _. by subst c1.
  - split; [done|]. by apply Hinj.
Qed.

Lemma prefix_empty (s : string) : String.prefix "" s = true.
Proof. by destruct s. Qed.

Lemma HasPrefix_Join (pwd : string) (rest : list string) :
  pwd ≠ "" →
  Str.HasPrefix (Str.Join (pwd :: rest) "/") "/" = Str.HasPrefix pwd "/".
Proof.
  intros Hne. destruct pwd as [|c pwd]; [done|].
  destruct rest as [|e rest]; [done|].
  unfold Str.HasPrefix.
  change (Str.Join (String c pwd :: e :: rest) "/")
    with (String c (pwd +:+ "/" +:+ Str.Join (e :: rest) "/")).
  change (String.prefix "/" (String c ?x))
    with (if ascii_dec "/" c then String.prefix "" x else false).
  destruct (ascii_dec "/" c); [|done]. by rewrite !prefix_empty.
Qed.

(** The shape of the target directory under a non-empty working
    directory. *)
Lemma target_dir_shape (pwd version arch : string) :
  pwd ≠ "" → is_element version = true → is_element arch = true →
  target_dir pwd version arch
  = assemble (Str.HasPrefix pwd "/")
      (elements (Str.HasPrefix pwd "/") pwd ++ ["openEuler"; version; arch]).
Proof.
  intros Hne Hv Ha. unfold target_dir.
  cbn [Join]. destruct (String.eqb_spec pwd ""); [done|].
  unfold Clean. rewrite HasPrefix_Join by done.
  by rewrite elements_target.
Qed.

End Paths.

(** ** The target directory *)

(** C6, counterexample.  Two different triples of inputs with the same
    target directory: a separator inside the version moves an element from
    one argument to the next. *)
Lemma target_dir_not_injective :
  ("/home/ci", "22.03/lts", "x86_64") ≠ ("/home/ci", "22.03", "lts/x86_64")
  ∧ target_dir "/home/ci" "22.03/lts" "x86_64"
    = target_dir "/home/ci" "22.03" "lts/x86_64".
Proof. split; [discriminate | reflexivity]. Qed.

(** C6, amended.  The target directory is a function of the working
    directory, the version and the architecture, and it separates any two
    triples whose working directories are cleaned paths (as [os.Getwd]
    returns them) and whose versions and architectures are single path
    elements: two such triples have the same target directory exactly when
    they are equal. *)
Theorem target_dir_injective_on_elements
  (pwd1 version1 arch1 pwd2 version2 arch2 : string) :
  filepath.Clean pwd1 = pwd1 → filepath.Clean pwd2 = pwd2 →
  is_element version1 = true → is_element arch1 = true →
  is_element version2 = true → is_element arch2 = true →
  target_dir pwd1 version1 arch1 = target_dir pwd2 version2 arch2
  ↔ pwd1 = pwd2 ∧ version1 = version2 ∧ arch1 = arch2.
Proof.
  intros Hc1 Hc2 Hv1 Ha1 Hv2 Ha2. split; [|by intros (-> & -> & ->)].
  assert (pwd1 ≠ "") as Hn1 by (intros ->; discriminate).
  assert (pwd2 ≠ "") as Hn2 by (intros ->; discriminate).
  rewrite !target_dir_shape by done. intros Heq.
  assert (∀ r p v a, is_element v = true → is_element a = true →
            Forall piece (filepath.elements r p ++ ["openEuler"; v; a]))
    as Hall.
  { intros r p v a Hv Ha. apply Forall_app. split.
    - apply elements_pieces.
    - repeat constructor; try (by apply is_element_piece); done. }
  apply assemble_inj in Heq as [Hr Hl].
  - apply app_inj_2 in Hl as [Hl Ht]; [|done].
    injection Ht as -> ->. split; [|done].
    assert (filepath.Clean pwd1 = filepath.Clean pwd2) as Hcc
      by (unfold filepath.Clean; cbv zeta; by rewrite Hl, Hr).
    congruence.
  - by destruct (filepath.elements _ pwd1).
  - by destruct (filepath.elements _ pwd2).
  - by apply Hall.
  - by apply Hall.
Qed.

(** C6, witness: the two architectures of one version. *)
Lemma target_dir_injective_on_elements_witness :
  target_dir "/home/ci" "22.03-lts" "x86_64"
  = target_dir "/home/ci" "22.03-lts" "aarch64"
  ↔ "/home/ci" = "/home/ci" ∧ "22.03-lts" = "22.03-lts" ∧ "x86_64" = "aarch64".
Proof.
  apply (target_dir_injective_on_elements
           "/home/ci" "22.03-lts" "x86_64" "/home/ci" "22.03-lts" "aarch64");
    reflexivity.
Defined.

(** ** Sequencing *)

Lemma bind_Ret {A B} (m : M A) (k : A → M B) (s s1 : State) (a : A)
  (t1 : list Event) :
  m s = (Ret a, s1, t1) → bind m k s = prepend t1 (k a s1).
Proof.
  intros H. unfold bind. rewrite H. by destruct (k a s1) as [[o s2] t2].
Qed.

Lemma prepend_nil {A} (r : Outcome A * State * list Event) : prepend [] r = r.
Proof. by destruct r as [[o s] t]. Qed.

Lemma prepend_prepend {A} (t1 t2 : list Event)
  (r : Outcome A * State * list Event) :
  prepend t1 (prepend t2 r) = prepend (t1 ++ t2) r.
Proof. unfold prepend. simpl. by rewrite app_assoc. Qed.

Lemma Println_result (text : string) (s : State) :
  Println text s = (Ret tt, s, [EvPrint text]).
Proof. reflexivity. Qed.

Lemma wg_Add_one (s : State) :
  wg_Add 1 s = (Ret tt, mkState (files s) (cwd s) (wg s + 1), []).
Proof.
  unfold wg_Add. cbv zeta. rewrite decide_False by lia.
  by replace (Z.to_N (Z.of_N (wg s) + 1)) with (wg s + 1)%N by lia.
Qed.

(** [wg.Done()] with the counter at zero panics; otherwise it lowers the
    counter by one. *)
Lemma wg_Done_result (s : State) :
  wg_Done s
  = if decide (wg s = 0%N)
    then (Panic "sync: negative WaitGroup counter", s, [])
    else (Ret tt, mkState (files s) (cwd s) (wg s - 1), []).
Proof.
  unfold wg_Done, wg_Add. cbv zeta.
  destruct (decide (wg s = 0%N)) as [H|H].
  - by rewrite decide_True by lia.
  - rewrite decide_False by lia.
    by replace (Z.to_N (Z.of_N (wg s) + -1)) with (wg s - 1)%N by lia.
Qed.

(** The deferred [wg.Done()] adds nothing to the trace. *)
Lemma trace_defer_Done {A} (body : M A) (s : State) :
  trace_of (defer wg_Done body s) = trace_of (body s).
Proof.
  unfold defer. destruct (body s) as [[[a| | | ] s1] t1]; try done;
    unfold bind; rewrite wg_Done_result; destruct (decide _); simpl;
    by rewrite app_nil_r.
Qed.

(** A body that returns with the counter above zero: the deferred
    [wg.Done()] lowers it. *)
Lemma defer_Done_Ret {A} (body : M A) (s s1 : State) (a : A)
  (t : list Event) :
  body s = (Ret a, s1, t) → wg s1 ≠ 0%N →
  defer wg_Done body s
  = (Ret a, mkState (files s1) (cwd s1) (wg s1 - 1), t).
Proof.
  intros Hb Hwg. unfold defer. rewrite Hb. unfold bind.
  rewrite wg_Done_result, decide_False by done.
  unfold prepend, ret. simpl. by rewrite app_nil_r.
Qed.

(** A body that returns with the counter at zero: the deferred
    [wg.Done()] panics. *)
Lemma defer_Done_zero {A} (body : M A) (s s1 : State) (a : A)
  (t : list Event) :
  body s = (Ret a, s1, t) → wg s1 = 0%N →
  defer wg_Done body s = (Panic "sync: negative WaitGroup counter", s1, t).
Proof.
  intros Hb Hwg. unfold defer. rewrite Hb. unfold bind.
  rewrite wg_Done_result, decide_True by done.
  unfold prepend. simpl. by rewrite app_nil_r.
Qed.

(** A body that calls [log.Fatal]: the deferred call does not run. *)
Lemma defer_Fatal {A} (cleanup : M unit) (body : M A) (s s1 : State)
  (msg : string) (t : list Event) :
  body s = (Fatal msg, s1, t) → defer cleanup body s = (Fatal msg, s1, t).
Proof. intros Hb. unfold defer. by rewrite Hb. Qed.

Lemma bind_not_Ret {A B} (m : M A) (k : A → M B) (s : State) :
  (∀ a, outcome_of (m s) ≠ Ret a) →
  ∀ b, outcome_of (bind m k s) ≠ Ret b.
Proof.
  intros H b. unfold bind.
  destruct (m s) as [[[a| | | ] s1] t1]; simpl in *; try done.
  by destruct (H a).
Qed.


(** ** The progress computation of the downloader *)

(** C4.  [Downloader.Read] divides by [d.Total] with no guard: a read on a
    downloader whose total is zero panics on the division, whatever the
    underlying reader returns, and every other read returns. *)
Theorem Downloader_Read_divides_by_Total (d : Downloader) (s : State) :
  match outcome_of (Downloader_Read d s) with
  | Ret _ => Total d ≠ 0%Z
  | Panic msg =>
      Total d = 0%Z ∧ msg = "runtime error: integer divide by zero"
  | Fatal _ | Exit _ => False
  end.
Proof.
  unfold Downloader_Read.
  destruct (io_Reader_Read (Reader d)) as [[r data] err].
  cbn [Total Current]. unfold divide, int64.div.
  destruct (decide (Total d = 0%Z)) as [Hz|Hnz]; [done|].
  unfold bind, emit, ret, outcome_of. simpl.
  destruct (decide _); simpl; [|done].
  destruct (decide (Total d = 0%Z)); done.
Qed.

Lemma Downloader_Read_zero (d : Downloader) (s : State) :
  Total d = 0%Z →
  Downloader_Read d s
  = (Panic "runtime error: integer divide by zero", s, []).
Proof.
  intros Hz. unfold Downloader_Read.
  destruct (io_Reader_Read (Reader d)) as [[r data] err].
  cbn [Total Current]. rewrite Hz. reflexivity.
Qed.

Lemma defer_Done_Panic {A} (body : M A) (s s1 : State) (msg : string)
  (t : list Event) :
  body s = (Panic msg, s1, t) → wg s1 ≠ 0%N →
  defer wg_Done body s
  = (Panic msg, mkState (files s1) (cwd s1) (wg s1 - 1), t).
Proof.
  intros Hb Hwg. unfold defer. rewrite Hb. unfold bind.
  rewrite wg_Done_result, decide_False by done.
  unfold prepend, panic. simpl. by rewrite app_nil_r.
Qed.

(** The download of a response that declares a length of zero, called as
    [ImagePrepare] calls it (after [wg.Add(1)]), stops in that panic at its
    first read. *)
Lemma downloadFile_zero_length (E : Env) (url filePath : string)
  (body : io_Reader) (s : State) :
  http_reply E url = inl (mkResponse 0 body) →
  create_error E filePath = None →
  wg s ≠ 0%N →
  outcome_of (downloadFile E url filePath s)
  = Panic "runtime error: integer divide by zero".
Proof.
  intros Hget Hcreate Hwg.
  assert (http_Get E url s = (Ret (inl (mkResponse 0 body)), s, [EvHttpGet url]))
    as H1 by (unfold http_Get, bind, emit, ret; by rewrite Hget).
  set (s0 := mkState (<[filePath := ""]> (files s)) (cwd s) (wg s)).
  assert (os_Create E filePath s = (Ret None, s0, [EvCreate filePath])) as H2
    by (unfold os_Create; by rewrite Hcreate).
  assert (io_Copy filePath (mkDownloader body 0 0) s0
          = (Panic "runtime error: integer divide by zero", s0, [])) as H3.
  { unfold io_Copy. cbn [Reader].
    destruct (pending body); cbn [io_Copy_loop]; unfold bind;
      by rewrite Downloader_Read_zero. }
  unfold downloadFile.
  rewrite (defer_Done_Panic _ s s0 "runtime error: integer divide by zero"
             [EvHttpGet url; EvCreate filePath]); [done| |done].
  rewrite (bind_Ret _ _ _ _ _ _ H1), (bind_Ret _ _ _ _ _ _ H2).
  cbn [ContentLength Body]. unfold bind at 1. rewrite H3. reflexivity.
Qed.

(** ** Stored downloads *)

Lemma append_empty_r (s : string) : s +:+ "" = s.
Proof.
  induction s as [|c s IH]; [done|].
  change (String c (s +:+ "") = String c s). by rewrite IH.
Qed.

Lemma append_assoc (s1 s2 s3 : string) :
  (s1 +:+ s2) +:+ s3 = s1 +:+ (s2 +:+ s3).
Proof.
  induction s1 as [|c s1 IH]; [done|].
  change (String c ((s1 +:+ s2) +:+ s3) = String c (s1 +:+ (s2 +:+ s3))).
  by rewrite IH.
Qed.

Lemma State_eta (s : State) : mkState (files s) (cwd s) (wg s) = s.
Proof. by destruct s. Qed.

(** A read with a declared length other than zero returns, leaves the
    state as it is and shows progress lines only. *)
Lemma Downloader_Read_nonzero (d : Downloader) (s : State) :
  Total d ≠ 0%Z →
  ∃ current t,
    Downloader_Read d s
    = (Ret (mkDownloader (io_Reader_Read (Reader d)).1.1 (Total d) current,
            (io_Reader_Read (Reader d)).1.2, (io_Reader_Read (Reader d)).2),
       s, t)
    ∧ Forall (λ e, is_progress e = true) t.
Proof.
  intros Hnz. unfold Downloader_Read.
  destruct (io_Reader_Read (Reader d)) as [[r data] err].
  cbn [fst snd Total Current].
  set (current := int64.add (Current d) (Z.of_nat (String.length data))).
  assert (∃ q, divide (int64.mul current 10000) (Total d) = ret q) as [q Hq].
  { unfold divide, int64.div. rewrite decide_False by done. by eexists. }
  rewrite !Hq. exists current.
  destruct (decide (current = Total d)); eexists; (split; [reflexivity|]);
    by repeat constructor.
Qed.

Lemma io_Copy_loop_stores (chunks : list string)
  (failure : option string) (dst : string) (total current : Z)
  (acc : string) (s : State) :
  total ≠ 0%Z → files s !! dst = Some acc →
  ∃ t,
    io_Copy_loop chunks dst
      (mkDownloader (mkReader chunks failure) total current) s
    = (Ret (copy_error failure),
       mkState (<[dst := acc +:+ concat_chunks chunks]> (files s))
         (cwd s) (wg s),
       t)
    ∧ Forall (λ e, is_progress e = true) t.
Proof.
  intros Hnz. revert current acc s.
  induction chunks as [|chunk rest IH]; intros current acc s Hacc.
  - cbn [io_Copy_loop].
    destruct (Downloader_Read_nonzero
                (mkDownloader (mkReader [] failure) total current) s Hnz)
      as (cur' & t & Hread & Ht).
    cbn in Hread. rewrite (bind_Ret _ _ _ _ _ _ Hread).
    exists t. split; [|done].
    unfold prepend. cbn [outcome_of state_of trace_of fst snd].
    rewrite app_nil_r, append_empty_r, insert_id, State_eta by done.
    by destruct failure.
  - cbn [io_Copy_loop].
    destruct (Downloader_Read_nonzero
                (mkDownloader (mkReader (chunk :: rest) failure) total current)
                s Hnz)
      as (cur' & t & Hread & Ht).
    cbn in Hread. rewrite (bind_Ret _ _ _ _ _ _ Hread).
    destruct (String.eqb_spec chunk "") as [->|Hne].
    + destruct (IH cur' acc s Hacc) as (t' & Hrest & Ht').
      exists (t ++ t'). split; [|by apply Forall_app].
      assert (ret tt s = (Ret tt, s, [])) as Hret by reflexivity.
      rewrite (bind_Ret _ _ _ _ _ _ Hret), prepend_nil, Hrest.
      reflexivity.
    + set (s1 := mkState (<[dst := acc +:+ chunk]> (files s)) (cwd s) (wg s)).
      assert (file_Write dst chunk s = (Ret tt, s1, [])) as Hw
        by (unfold file_Write, s1; by rewrite Hacc).
      destruct (IH cur' (acc +:+ chunk) s1) as (t' & Hrest & Ht').
      { unfold s1. cbn. apply lookup_insert_eq. }
      exists (t ++ t'). split; [|by apply Forall_app].
      rewrite (bind_Ret _ _ _ _ _ _ Hw), prepend_nil, Hrest.
      unfold s1, prepend. cbn.
      by rewrite insert_insert_eq, append_assoc.
Qed.

Lemma io_Copy_stores (dst : string) (resp : Response) (acc : string)
  (s : State) :
  ContentLength resp ≠ 0%Z → files s !! dst = Some acc →
  ∃ t,
    io_Copy dst (mkDownloader (Body resp) (ContentLength resp) 0) s
    = (Ret (copy_error (failure (Body resp))),
       mkState (<[dst := acc +:+ concat_chunks (pending (Body resp))]> (files s))
         (cwd s) (wg s),
       t)
    ∧ Forall (λ e, is_progress e = true) t.
Proof.
  intros Hnz Hacc. destruct resp as [total [chunks fail]].
  unfold io_Copy. cbn [Reader pending failure Body ContentLength] in *.
  by apply io_Copy_loop_stores.
Qed.

(** [downloadFile] after a request and a creation that succeed, on a
    response with a declared length other than zero: the body is stored,
    and the function ends in [log.Fatal] when the body failed, in the panic
    of the deferred [wg.Done()] when the counter is at zero, and returns
    with the counter lowered otherwise. *)
Lemma downloadFile_body (E : Env) (url filePath : string) (resp : Response)
  (s : State) :
  http_reply E url = inl resp → create_error E filePath = None →
  ContentLength resp ≠ 0%Z →
  ∃ t,
    Forall (λ e, is_progress e = true) t
    ∧ downloadFile E url filePath s
      = let s' :=
          mkState (<[filePath := concat_chunks (pending (Body resp))]> (files s))
            (cwd s) (wg s) in
        let actions := EvHttpGet url :: EvCreate filePath :: t in
        match copy_error (failure (Body resp)) with
        | Some e => (Fatal e, s', actions)
        | None =>
            if decide (wg s = 0%N)
            then (Panic "sync: negative WaitGroup counter", s', actions)
            else (Ret tt,
                  mkState (files s') (cwd s) (wg s - 1), actions)
        end.
Proof.
  intros Hget Hcreate Hnz.
  assert (http_Get E url s = (Ret (inl resp), s, [EvHttpGet url])) as H1
    by (unfold http_Get, bind, emit, ret; by rewrite Hget).
  set (s0 := mkState (<[filePath := ""]> (files s)) (cwd s) (wg s)).
  assert (os_Create E filePath s = (Ret None, s0, [EvCreate filePath])) as H2
    by (unfold os_Create; by rewrite Hcreate).
  destruct (io_Copy_stores filePath resp "" s0 Hnz) as (t & Hcopy & Ht);
    [apply lookup_insert_eq|].
  exists t. split; [done|]. cbv zeta.
  revert Hcopy. unfold s0. cbn [files cwd wg]. rewrite insert_insert_eq.
  change ("" +:+ concat_chunks (pending (Body resp)))
    with (concat_chunks (pending (Body resp))).
  set (s' := mkState
               (<[filePath := concat_chunks (pending (Body resp))]> (files s))
               (cwd s) (wg s)).
  intros Hcopy.
  unfold downloadFile.
  destruct (copy_error (failure (Body resp))) as [e|].
  - apply defer_Fatal.
    rewrite (bind_Ret _ _ _ _ _ _ H1), (bind_Ret _ _ _ _ _ _ H2),
      (bind_Ret _ _ _ _ _ _ Hcopy).
    unfold prepend, log_Fatal. simpl. by rewrite app_nil_r.
  - assert ((let* got := http_Get E url in
             match got with
             | inr err => log_Fatal err
             | inl resp =>
                 let* err := os_Create E filePath in
                 match err with
                 | Some e => panic e
                 | None =>
                     let* err :=
                       io_Copy filePath
                         (mkDownloader (Body resp) (ContentLength resp) 0) in
                     match err with
                     | Some e => log_Fatal e
                     | None => ret tt
                     end
                 end
             end) s = (Ret tt, s', EvHttpGet url :: EvCreate filePath :: t))
      as Hbody.
    { rewrite (bind_Ret _ _ _ _ _ _ H1), (bind_Ret _ _ _ _ _ _ H2),
        (bind_Ret _ _ _ _ _ _ Hcopy).
      unfold prepend, ret. simpl. by rewrite app_nil_r. }
    destruct (decide (wg s = 0%N)) as [Hz|Hpos].
    + by apply (defer_Done_zero _ s s' tt).
    + by rewrite (defer_Done_Ret _ _ _ _ _ Hbody) by done.
Qed.

(** ** Files that are already there *)

Section Materializer.

Variable E : Env.

Lemma PathExists_present (s : State) (path : string) :
  present E s path → PathExists E path s = (Ret (true, None), s, []).
Proof.
  intros [Hstat [content Hfile]].
  unfold PathExists, bind, os_Stat. by rewrite Hstat, Hfile.
Qed.

Lemma fetch_present (s : State) (path url : string) (announce : bool) :
  present E s path → fetch_if_absent E path url announce s = (Ret tt, s, []).
Proof.
  intros Hp. unfold fetch_if_absent.
  by rewrite (bind_Ret _ _ _ _ _ _ (PathExists_present s path Hp)).
Qed.

Lemma sha256encode_holds (s : State) (path content : string) :
  holds E s path content →
  sha256encode E path s
  = (Ret (hex.EncodeToString (sha256_Sum E content)), s, []).
Proof.
  intros [Hopen Hfile].
  unfold sha256encode, bind, os_ReadFile. by rewrite Hopen, Hfile.
Qed.

Lemma ReadFile_short (s : State) (path content : string) :
  holds E s path content → String.length content < 64 →
  ReadFile E path s
  = (Panic "runtime error: slice bounds out of range", s, []).
Proof.
  intros [Hopen Hfile] Hlen.
  unfold ReadFile, bind, os_ReadFile. rewrite Hopen, Hfile.
  unfold Str.slice. destruct (decide _) as [[_ H]|_]; [lia | done].
Qed.

Lemma ReadFile_long (s : State) (path content : string) :
  holds E s path content → 64 ≤ String.length content →
  ReadFile E path s = (Ret (String.substring 0 64 content), s, []).
Proof.
  intros [Hopen Hfile] Hlen.
  unfold ReadFile, bind, os_ReadFile. rewrite Hopen, Hfile.
  unfold Str.slice. destruct (decide _) as [_|H]; [done | lia].
Qed.

Lemma EncodeToString_length (src : string) :
  String.length (hex.EncodeToString src) = 2 * String.length src.
Proof. induction src as [|c src IH]; simpl; [done | lia]. Qed.

Lemma substring_length_le (n : nat) (s : string) :
  String.length (String.substring 0 n s) ≤ String.length s.
Proof.
  revert n. induction s as [|c s IH]; intros [|n]; simpl; try lia.
  specialize (IH n). lia.
Qed.

(** The digest of the image against the sidecar, when both can be read. *)
Lemma verify_checksum_result (s : State) (ip sp image sidecar : string) :
  holds E s ip image → holds E s sp sidecar →
  verify_checksum E ip sp s
  = if decide (String.length sidecar < 64) then
      (Panic "runtime error: slice bounds out of range", s, [])
    else if String.eqb (hex.EncodeToString (sha256_Sum E image))
              (String.substring 0 64 sidecar)
    then (Ret tt, s, [])
    else (Panic "Sha256 Sum Error.", s, []).
Proof.
  intros Hi Hs. unfold verify_checksum.
  rewrite (bind_Ret _ _ _ _ _ _ (sha256encode_holds s ip image Hi)).
  destruct (decide (String.length sidecar < 64)) as [Hlt|Hge].
  - unfold bind. by rewrite (ReadFile_short s sp sidecar Hs Hlt).
  - unfold bind. rewrite (ReadFile_long s sp sidecar Hs) by lia.
    by destruct (String.eqb _ _).
Qed.

(** A pair whose image and sidecar are there goes from [os.MkdirAll]
    straight to the verification. *)
Lemma pair_present_prefix (pwd version arch : string) (s : State) :
  present E s (imagePath pwd version arch) →
  present E s (sha256sumPath pwd version arch) →
  wg s = 0%N →
  ImagePrepare_pair E pwd version arch s
  = prepend (mkdir_trace E (target_dir pwd version arch))
      ((verify_checksum E (imagePath pwd version arch)
          (sha256sumPath pwd version arch) ;;
        ensure_rootfs E pwd (target_dir pwd version arch) arch
          (rootfsPath pwd version arch)) s).
Proof.
  intros Hi Hs Hwg. unfold ImagePrepare_pair.
  fold (target_dir pwd version arch).
  fold (imagePath pwd version arch) (sha256sumPath pwd version arch)
    (rootfsPath pwd version arch).
  set (dir := target_dir pwd version arch).
  assert (wg_Wait s = (Ret tt, s, [])) as Hwait
    by (unfold wg_Wait; by rewrite decide_True).
  assert (os_MkdirAll E dir s = (Ret (mkdir_error E dir), s, [EvMkdirAll dir]))
    as Hmk by reflexivity.
  rewrite (bind_Ret _ _ _ _ _ _ Hmk). unfold mkdir_trace.
  destruct (mkdir_error E dir) as [e|].
  - rewrite (bind_Ret _ _ _ _ _ _ (Println_result e s)).
    rewrite (bind_Ret _ _ _ _ _ _ (fetch_present s _ _ true Hi)).
    rewrite (bind_Ret _ _ _ _ _ _ (fetch_present s _ _ false Hs)).
    rewrite (bind_Ret _ _ _ _ _ _ Hwait).
    by rewrite !prepend_nil, prepend_prepend.
  - assert (ret tt s = (Ret tt, s, [])) as Hret by reflexivity.
    rewrite (bind_Ret _ _ _ _ _ _ Hret).
    rewrite (bind_Ret _ _ _ _ _ _ (fetch_present s _ _ true Hi)).
    rewrite (bind_Ret _ _ _ _ _ _ (fetch_present s _ _ false Hs)).
    rewrite (bind_Ret _ _ _ _ _ _ Hwait).
    by rewrite !prepend_nil.
Qed.

(** ** The two loops *)

Lemma bind_assoc {A B C} (m : M A) (k : A → M B) (h : B → M C) (s : State) :
  bind (bind m k) h s = bind m (λ a, bind (k a) h) s.
Proof.
  unfold bind. destruct (m s) as [[[a| | | ] s1] t1]; try done.
  destruct (k a s1) as [[[b| | | ] s2] t2]; try done.
  destruct (h b s2) as [[o s3] t3]. by rewrite app_assoc.
Qed.

Lemma bind_ext {A B} (m m' : M A) (k k' : A → M B) (s : State) :
  m s = m' s → (∀ a s1, k a s1 = k' a s1) → bind m k s = bind m' k' s.
Proof.
  intros Hm H. unfold bind. rewrite <- Hm.
  destruct (m s) as [[[a| | | ] s1] t1]; try done.
  by rewrite H.
Qed.

Lemma bind_abort {A} (m : M A) (k : A → M A) (s : State) :
  (∀ a, outcome_of (m s) ≠ Ret a) → bind m k s = m s.
Proof.
  intros H. unfold bind. destruct (m s) as [[[a| | | ] s1] t1]; try done.
  by destruct (H a).
Qed.

Lemma forM__app {A} (l1 l2 : list A) (body : A → M unit) (s : State) :
  forM_ (l1 ++ l2) body s = bind (forM_ l1 body) (λ _, forM_ l2 body) s.
Proof.
  revert s. induction l1 as [|x l1 IH]; intros s; simpl.
  - unfold bind, ret. by destruct (forM_ l2 body s) as [[o s2] t2].
  - rewrite bind_assoc. apply bind_ext; [done|]. intros _ s1. apply IH.
Qed.

Lemma forM__map {A B} (f : A → B) (l : list A) (body : B → M unit)
  (s : State) :
  forM_ (map f l) body s = forM_ l (λ x, body (f x)) s.
Proof.
  revert s. induction l as [|x l IH]; intros s; simpl; [done|].
  apply bind_ext; [done|]. intros _ s1. apply IH.
Qed.

(** An abort of the body ends the loop: the entries after it are not
    visited. *)
Lemma forM__abort {A} (before after : list A) (x : A) (body : A → M unit)
  (s s1 : State) (t1 : list Event) :
  forM_ before body s = (Ret tt, s1, t1) →
  (∀ u, outcome_of (body x s1) ≠ Ret u) →
  forM_ (before ++ x :: after) body s = prepend t1 (body x s1).
Proof.
  intros Hb Habort. rewrite forM__app, (bind_Ret _ _ _ _ _ _ Hb).
  simpl. by rewrite bind_abort.
Qed.

(** [ImagePrepare] visits the pairs in order, under the working directory
    it read at its start. *)
Lemma ImagePrepare_pairs (versions archs : list string) (s : State) :
  ImagePrepare E versions archs s
  = forM_ (pairs_of versions archs)
      (λ p, ImagePrepare_pair E (cwd s) p.1 p.2) s.
Proof.
  unfold ImagePrepare.
  assert (os_Getwd s = (Ret (cwd s), s, [])) as Hwd by reflexivity.
  rewrite (bind_Ret _ _ _ _ _ _ Hwd), prepend_nil.
  generalize (cwd s) as pwd. intros pwd. generalize s as s0.
  induction versions as [|v versions IH]; intros s0; simpl; [done|].
  rewrite forM__app. apply bind_ext.
  - by rewrite forM__map.
  - intros _ s1. apply IH.
Qed.

Lemma ImagePrepare_abort (versions archs : list string)
  (before after : list (string * string)) (version arch : string)
  (s s1 : State) (t1 : list Event) :
  pairs_of versions archs = before ++ (version, arch) :: after →
  forM_ before (λ p, ImagePrepare_pair E (cwd s) p.1 p.2) s = (Ret tt, s1, t1) →
  (∀ u, outcome_of (ImagePrepare_pair E (cwd s) version arch s1) ≠ Ret u) →
  ImagePrepare E versions archs s
  = prepend t1 (ImagePrepare_pair E (cwd s) version arch s1).
Proof.
  intros Hsplit Hb Habort. rewrite ImagePrepare_pairs, Hsplit.
  by rewrite (forM__abort before after (version, arch) _ s s1 t1 Hb).
Qed.

(** ** Runs that neither download nor extract *)

Lemma quiet_bind {A B} (m : M A) (k : A → M B) (s : State) :
  quiet_run m s →
  (∀ a, outcome_of (m s) = Ret a → quiet_run (k a) s) →
  quiet_run (bind m k) s.
Proof.
  unfold quiet_run, bind. intros [Hs Ht] Hk.
  destruct (m s) as [[[a| | | ] s1] t1]; simpl in *; try done.
  subst s1. destruct (Hk a eq_refl) as [Hs2 Ht2].
  destruct (k a s) as [[o s2] t2]; simpl in *.
  split; [done | by apply Forall_app].
Qed.

Lemma quiet_verify_checksum (ip sp : string) (s : State) :
  quiet_run (verify_checksum E ip sp) s.
Proof.
  unfold quiet_run, verify_checksum, sha256encode, ReadFile, os_ReadFile, bind,
    ret, panic, log_Fatal.
  repeat case_match; simplify_eq; simpl; by split.
Qed.

Lemma quiet_ensure_rootfs (pwd dir arch path : string) (s : State) :
  present E s path → quiet_run (ensure_rootfs E pwd dir arch path) s.
Proof.
  intros Hp. unfold quiet_run, ensure_rootfs.
  rewrite (bind_Ret _ _ _ _ _ _ (PathExists_present s path Hp)), prepend_nil.
  by destruct (negb _).
Qed.

Lemma quiet_pair (pwd version arch : string) (s : State) :
  present E s (imagePath pwd version arch) →
  present E s (sha256sumPath pwd version arch) →
  present E s (rootfsPath pwd version arch) →
  quiet_run (ImagePrepare_pair E pwd version arch) s.
Proof.
  intros Hi Hs Hr. unfold ImagePrepare_pair.
  fold (target_dir pwd version arch).
  fold (imagePath pwd version arch) (sha256sumPath pwd version arch)
    (rootfsPath pwd version arch).
  apply quiet_bind; [by repeat constructor|]. intros err _.
  apply quiet_bind; [destruct err; by repeat constructor|]. intros _ _.
  apply quiet_bind; [unfold quiet_run; by rewrite fetch_present|]. intros _ _.
  apply quiet_bind; [unfold quiet_run; by rewrite fetch_present|]. intros _ _.
  apply quiet_bind.
  { unfold quiet_run, wg_Wait. by destruct (decide _). }
  intros _ _. apply quiet_bind; [apply quiet_verify_checksum|]. intros _ _.
  by apply quiet_ensure_rootfs.
Qed.

Lemma quiet_forM_ {A} (l : list A) (body : A → M unit) (s : State) :
  (∀ x, x ∈ l → quiet_run (body x) s) → quiet_run (forM_ l body) s.
Proof.
  induction l as [|x l IH]; intros H; simpl.
  - by split.
  - apply quiet_bind; [apply H; left|].
    intros _ _. apply IH. intros y Hy. apply H. by right.
Qed.

End Materializer.

(** ** The commands of the repackaging *)

(** [ExecCommand] prints the command, runs it, prints its error if it has
    one, and returns its output: it never aborts. *)
Lemma ExecCommand_result (E : Env) (Command : string) (s : State) :
  ExecCommand E Command s
  = (Ret (shell E Command (cwd s) (files s)).1.2,
     mkState (shell E Command (cwd s) (files s)).1.1 (cwd s) (wg s),
     EvPrint Command :: EvExec Command ::
     match (shell E Command (cwd s) (files s)).2 with
     | Some err => [EvPrint err]
     | None => []
     end).
Proof.
  unfold ExecCommand, exec_Output, bind, Println, emit, ret.
  destruct (shell E Command (cwd s) (files s)) as [[fs out] [err|]]; done.
Qed.

Lemma ExecCommand_step (E : Env) (Command : string) (k : string → M unit)
  (s : State) :
  (let* result := ExecCommand E Command in Println result ;; k result) s
  = prepend (command_trace E Command s)
      (k (command_output E Command s) (command_state E Command s)).
Proof.
  rewrite (bind_Ret _ _ _ _ _ _ (ExecCommand_result E Command s)).
  fold (command_output E Command s) (command_state E Command s).
  rewrite (bind_Ret _ _ _ _ _ _ (Println_result _ _)), prepend_prepend.
  reflexivity.
Qed.

Lemma ExecCommand_last (E : Env) (Command : string) (s : State) :
  (let* result := ExecCommand E Command in Println result) s
  = (Ret tt, command_state E Command s, command_trace E Command s).
Proof.
  rewrite (bind_Ret _ _ _ _ _ _ (ExecCommand_result E Command s)).
  fold (command_output E Command s) (command_state E Command s).
  rewrite Println_result. reflexivity.
Qed.

(** The repackaging, command by command. *)
Lemma derive_rootfs_result (E : Env) (pwd dir arch : string) (s : State) :
  let s0 := chdir_state E dir s in
  let s1 := command_state E (tar_command arch) s0 in
  let listing := command_output E ls_command s1 in
  let s2 := command_state E ls_command s1 in
  let mv := mv_command (first_line listing) arch in
  let s3 := command_state E mv s2 in
  let s4 := command_state E (xz_command arch) s3 in
  derive_rootfs E pwd dir arch s
  = (Ret tt, command_state E (cp_command pwd dir) s4,
     EvChdir dir :: command_trace E (tar_command arch) s0
     ++ command_trace E ls_command s1
     ++ EvPrint (format_slice (Str.Split newline listing))
     :: command_trace E mv s2
     ++ command_trace E (xz_command arch) s3
     ++ command_trace E (cp_command pwd dir) s4).
Proof.
  intros s0 s1 listing s2 mv s3 s4. unfold derive_rootfs.
  assert (os_Chdir E dir s = (Ret (chdir_error E dir), s0, [EvChdir dir]))
    as Hchdir.
  { unfold os_Chdir, s0, chdir_state. by destruct (chdir_error E dir). }
  rewrite (bind_Ret _ _ _ _ _ _ Hchdir).
  rewrite (ExecCommand_step E (tar_command arch)). fold s1.
  rewrite (ExecCommand_step E ls_command). fold s2 listing.
  rewrite (bind_Ret _ _ _ _ _ _ (Println_result _ _)).
  rewrite (ExecCommand_step E mv). fold s3.
  rewrite (ExecCommand_step E (xz_command arch)). fold s4.
  rewrite (ExecCommand_last E (cp_command pwd dir)).
  rewrite !prepend_prepend.
  unfold prepend. cbn [outcome_of state_of trace_of fst snd].
  f_equal. rewrite <- !app_assoc. reflexivity.
Qed.

Lemma command_trace_commands (E : Env) (Command : string) (s : State) :
  List.filter is_command (command_trace E Command s) = [EvExec Command].
Proof.
  unfold command_trace. cbn [List.filter is_command].
  rewrite List.filter_app. by destruct (shell E Command (cwd s) (files s)).2.
Qed.

(** ** The fetch step *)

(** The steps of a pair after [os.MkdirAll]. *)
Lemma pair_after_mkdir (E : Env) (pwd version arch : string) (s : State) :
  ImagePrepare_pair E pwd version arch s
  = prepend (mkdir_trace E (target_dir pwd version arch))
      ((fetch_if_absent E (imagePath pwd version arch)
          (image_url E version arch) true ;;
        fetch_if_absent E (sha256sumPath pwd version arch)
          (sidecar_url E version arch) false ;;
        wg_Wait ;;
        verify_checksum E (imagePath pwd version arch)
          (sha256sumPath pwd version arch) ;;
        ensure_rootfs E pwd (target_dir pwd version arch) arch
          (rootfsPath pwd version arch)) s).
Proof.
  unfold ImagePrepare_pair. fold (target_dir pwd version arch).
  set (dir := target_dir pwd version arch).
  assert (os_MkdirAll E dir s = (Ret (mkdir_error E dir), s, [EvMkdirAll dir]))
    as Hmk by reflexivity.
  rewrite (bind_Ret _ _ _ _ _ _ Hmk). unfold mkdir_trace.
  destruct (mkdir_error E dir) as [e|].
  - rewrite (bind_Ret _ _ _ _ _ _ (Println_result e s)).
    by rewrite prepend_prepend.
  - assert (ret tt s = (Ret tt, s, [])) as Hret by reflexivity.
    by rewrite (bind_Ret _ _ _ _ _ _ Hret), prepend_nil.
Qed.

Lemma progress_is_fetch (t : list Event) :
  Forall (λ e, is_progress e = true) t →
  Forall (λ e, is_fetch e = true) t ∧ List.filter is_request t = [].
Proof.
  induction 1 as [|e t He _ [IH1 IH2]]; [done|].
  destruct e; try done. split; [by constructor | done].
Qed.

(** The fetch of a file that is supplied: the file holds its content
    afterwards, and it was requested exactly when it was not there. *)
Lemma fetch_supplied (E : Env) (s : State) (path url content : string)
  (announce : bool) :
  supplied E s path url content →
  ∃ t,
    fetch_if_absent E path url announce s
    = (Ret tt, mkState (<[path := content]> (files s)) (cwd s) (wg s), t)
    ∧ Forall (λ e, is_fetch e = true) t
    ∧ List.filter is_request t = absent_request s path url
    ∧ (is_Some (files s !! path) → t = []).
Proof.
  intros (Hstat & Hopen & [Hthere | (Hnone & Hcreate & resp & Hget & Hnz
                                     & Heof & Hbody)]).
  - exists []. rewrite fetch_present by (split; [done | by eexists]).
    rewrite insert_id, State_eta by done.
    unfold absent_request. by rewrite Hthere.
  - set (s0 := mkState (files s) (cwd s) (wg s + 1)).
    destruct (downloadFile_body E url path resp s0 Hget Hcreate Hnz)
      as (t & Ht & Hdl).
    rewrite Heof, Hbody in Hdl. cbv zeta in Hdl. unfold s0 in Hdl.
    cbn [files cwd wg] in Hdl. rewrite decide_False in Hdl by lia.
    replace (wg s + 1 - 1)%N with (wg s) in Hdl by lia.
    destruct (progress_is_fetch t Ht) as [Hfetch Hreq].
    assert (PathExists E path s = (Ret (false, None), s, [])) as Hpe
      by (unfold PathExists, bind, os_Stat; by rewrite Hstat, Hnone).
    assert ((if announce then Println url else ret tt) s
            = (Ret tt, s, if announce then [EvPrint url] else [])) as Hpr
      by (by destruct announce).
    exists ((if announce then [EvPrint url] else [])
            ++ EvHttpGet url :: EvCreate path :: t).
    split; [|split; [|split]].
    + unfold fetch_if_absent.
      rewrite (bind_Ret _ _ _ _ _ _ Hpe), prepend_nil. cbn iota beta.
      rewrite (bind_Ret _ _ _ _ _ _ Hpr).
      rewrite (bind_Ret _ _ _ _ _ _ (wg_Add_one s)), prepend_nil.
      by rewrite Hdl.
    + apply Forall_app. split; [by destruct announce; repeat constructor|].
      by repeat constructor.
    + rewrite List.filter_app. cbn [List.filter is_request].
      rewrite Hreq. unfold absent_request. rewrite Hnone.
      by destruct announce.
    + rewrite Hnone. by intros [? ?].
Qed.

(** A pair that is supplied with its image and its sidecar goes from
    [os.MkdirAll] through the fetch step to the verification, which finds
    the two files with the supplied content. *)
Lemma pair_fetch_stage (E : Env) (pwd version arch : string) (s : State)
  (image sidecar : string) :
  wg s = 0%N →
  imagePath pwd version arch ≠ sha256sumPath pwd version arch →
  supplied E s (imagePath pwd version arch) (image_url E version arch) image →
  supplied E s (sha256sumPath pwd version arch) (sidecar_url E version arch)
    sidecar →
  ∃ t,
    Forall (λ e, is_fetch e = true) t
    ∧ List.filter is_request t
      = absent_request s (imagePath pwd version arch)
          (image_url E version arch)
        ++ absent_request s (sha256sumPath pwd version arch)
             (sidecar_url E version arch)
    ∧ (is_Some (files s !! imagePath pwd version arch) →
       is_Some (files s !! sha256sumPath pwd version arch) → t = [])
    ∧ ImagePrepare_pair E pwd version arch s
      = prepend (mkdir_trace E (target_dir pwd version arch) ++ t)
          ((verify_checksum E (imagePath pwd version arch)
              (sha256sumPath pwd version arch) ;;
            ensure_rootfs E pwd (target_dir pwd version arch) arch
              (rootfsPath pwd version arch))
             (fetched s (imagePath pwd version arch) image
                (sha256sumPath pwd version arch) sidecar)).
Proof.
  intros Hwg Hne Hi Hs.
  set (ip := imagePath pwd version arch) in *.
  set (sp := sha256sumPath pwd version arch) in *.
  destruct (fetch_supplied E s ip _ image true Hi) as (t1 & H1 & F1 & R1 & P1).
  set (s1 := mkState (<[ip := image]> (files s)) (cwd s) (wg s)) in *.
  assert (files s1 !! sp = files s !! sp) as Hsame
    by (unfold s1; cbn [files]; by rewrite lookup_insert_ne).
  assert (supplied E s1 sp (sidecar_url E version arch) sidecar) as Hs1.
  { destruct Hs as (? & ? & Hcase). split; [done|]. split; [done|].
    by rewrite Hsame. }
  destruct (fetch_supplied E s1 sp _ sidecar false Hs1)
    as (t2 & H2 & F2 & R2 & P2).
  change (mkState (<[sp := sidecar]> (files s1)) (cwd s1) (wg s1))
    with (fetched s ip image sp sidecar) in H2.
  assert (wg_Wait (fetched s ip image sp sidecar)
          = (Ret tt, fetched s ip image sp sidecar, [])) as Hwait
    by (unfold wg_Wait; cbn [fetched wg]; by rewrite decide_True).
  exists (t1 ++ t2). split; [by apply Forall_app|]. split; [|split].
  - rewrite List.filter_app, R1, R2. unfold absent_request. by rewrite Hsame.
  - intros Pi Ps. rewrite P1 by done. rewrite P2; [done|]. by rewrite Hsame.
  - rewrite pair_after_mkdir. fold ip sp.
    rewrite (bind_Ret _ _ _ _ _ _ H1), (bind_Ret _ _ _ _ _ _ H2),
      (bind_Ret _ _ _ _ _ _ Hwait).
    by rewrite prepend_nil, !prepend_prepend, app_assoc.
Qed.

(** After the fetch step the two files hold what was supplied. *)
Lemma fetched_holds (E : Env) (s : State) (ip image sp sidecar : string) :
  ip ≠ sp → open_error E ip = None → open_error E sp = None →
  holds E (fetched s ip image sp sidecar) ip image
  ∧ holds E (fetched s ip image sp sidecar) sp sidecar.
Proof.
  intros Hne Hi Hs. unfold holds, fetched. cbn [files].
  split; (split; [done|]).
  - rewrite lookup_insert_ne by done. apply lookup_insert_eq.
  - apply lookup_insert_eq.
Qed.

(** ** A second run *)

(** A run over versions and architectures whose compressed image, checksum
    sidecar and [openEuler-docker-rootfs.<arch>.tar] file (the three paths
    that the run checks) are all there issues no HTTP request, creates no
    file, runs no command and leaves the files and the working directory
    as they are: every existence check finds its file. *)
Lemma ImagePrepare_skips_present (E : Env) (s : State)
  (versions archs : list string) :
  populated E s versions archs →
  state_of (ImagePrepare E versions archs s) = s
  ∧ Forall (λ e, is_quiet e = true) (trace_of (ImagePrepare E versions archs s)).
Proof.
  intros Hpop. unfold ImagePrepare.
  apply (quiet_bind os_Getwd); [by split|].
  intros pwd Hpwd. injection Hpwd as <-.
  apply quiet_forM_. intros version Hv.
  apply quiet_forM_. intros arch Ha.
  destruct (Hpop version arch Hv Ha) as (Hi & Hs & Hr).
  by apply quiet_pair.
Qed.

(** A run over the sample directory, which holds the [.tar] file: it
    returns, and all it shows is the call of [os.MkdirAll]. *)
Example tar_present_sample :
  ImagePrepare sample_env ["22.03-lts"] ["x86_64"] (sample_state sample_sidecar)
  = (Ret tt, sample_state sample_sidecar,
     [EvMkdirAll "/home/ci/openEuler/22.03-lts/x86_64"]).
Proof. vm_compute. reflexivity. Qed.

(** The pair of a repackaged directory: nothing is fetched, the checksum
    verifies, the rootfs file is not found, and the repackaging runs. *)
Lemma pair_repackaged (E : Env) (s : State) (version arch : string) :
  GOOS E = "linux" → wg s = 0%N → repackaged E s version arch →
  ImagePrepare_pair E (cwd s) version arch s
  = prepend (mkdir_trace E (target_dir (cwd s) version arch))
      (derive_rootfs E (cwd s) (target_dir (cwd s) version arch) arch s).
Proof.
  intros Hos Hwg (image & sidecar & Pi & Hi & Ps & Hs & Hlen & Hsum & _
                  & Hstat & Hnone).
  rewrite pair_present_prefix by done.
  assert (verify_checksum E (imagePath (cwd s) version arch)
            (sha256sumPath (cwd s) version arch) s = (Ret tt, s, [])) as Hv.
  { rewrite (verify_checksum_result E s _ _ image sidecar Hi Hs).
    rewrite decide_False by lia. rewrite Hsum. by rewrite String.eqb_refl. }
  rewrite (bind_Ret _ _ _ _ _ _ Hv), prepend_nil.
  assert (PathExists E (rootfsPath (cwd s) version arch) s
          = (Ret (false, None), s, [])) as Hpe
    by (unfold PathExists, bind, os_Stat; by rewrite Hstat, Hnone).
  unfold ensure_rootfs.
  rewrite (bind_Ret _ _ _ _ _ _ Hpe), prepend_nil. by rewrite Hos.
Qed.

(** C2.  The existence check that guards the repackaging tests the name
    [openEuler-docker-rootfs.<arch>.tar], while the repackaging ends by
    compressing that file with [xz -z], which replaces it by
    [openEuler-docker-rootfs.<arch>.tar.xz].  So a run over the target
    directory as a completed run left it (image and verified sidecar in
    place, compressed rootfs archive in place, no [.tar] file) requests
    nothing for the pair, but does not find the rootfs file and runs the
    five commands of the repackaging again, the extraction first. *)
Theorem ImagePrepare_derives_again (E : Env) (s : State)
  (version arch : string) (versions archs : list string) :
  let dir := target_dir (cwd s) version arch in
  let s0 := chdir_state E dir s in
  let s1 := command_state E (tar_command arch) s0 in
  let listing := command_output E ls_command s1 in
  GOOS E = "linux" → wg s = 0%N → repackaged E s version arch →
  ∃ t more,
    trace_of (ImagePrepare E (version :: versions) (arch :: archs) s)
    = mkdir_trace E dir ++ t ++ more
    ∧ List.filter is_request t = []
    ∧ List.filter is_command t
      = [EvExec ("tar -xf openEuler-docker." +:+ arch
                 +:+ ".tar.xz --wildcards '*.tar' --exclude 'layer.tar'");
         EvExec "ls | xargs -n1 | grep -v openEuler |grep *.tar";
         EvExec ("mv " +:+ first_line listing +:+ " openEuler-docker-rootfs."
                 +:+ arch +:+ ".tar");
         EvExec ("xz -z openEuler-docker-rootfs." +:+ arch +:+ ".tar");
         EvExec ("cp " +:+ cwd s +:+ "/Dockerfile " +:+ dir +:+ "/Dockerfile")].
Proof.
  intros dir s0 s1 listing Hos Hwg Hrep.
  pose proof (pair_repackaged E s version arch Hos Hwg Hrep) as Hpair.
  fold dir in Hpair. rewrite derive_rootfs_result in Hpair.
  fold s0 s1 listing in Hpair.
  unfold prepend in Hpair. cbn [outcome_of state_of trace_of fst snd] in Hpair.
  eexists _, _. split; [|split].
  - rewrite ImagePrepare_pairs. cbn [pairs_of flat_map map app forM_].
    cbn [fst snd]. rewrite (bind_Ret _ _ _ _ _ _ Hpair).
    unfold prepend. cbn [trace_of snd]. by rewrite <- app_assoc.
  - cbn [List.filter is_request]. rewrite !List.filter_app.
    cbn [List.filter is_request]. rewrite !List.filter_app.
    unfold command_trace. cbn [List.filter is_request].
    rewrite !List.filter_app. cbn [List.filter is_request].
    by repeat match goal with
       | |- context [(shell E ?c ?d ?f).2] => destruct (shell E c d f).2
       end.
  - cbn [List.filter is_command]. rewrite !List.filter_app.
    cbn [List.filter is_command].
    rewrite !List.filter_app, !command_trace_commands. reflexivity.
Qed.

(** C2, witness: the target directory that the first run under the serving
    mirror left, visited again by a new process. *)
Lemma ImagePrepare_derives_again_witness :
  ∃ t more,
    trace_of (ImagePrepare unix_env ["22.03-lts"] ["x86_64"; "aarch64"]
                second_state)
    = mkdir_trace unix_env (target_dir "/home/ci" "22.03-lts" "x86_64")
      ++ t ++ more
    ∧ List.filter is_request t = []
    ∧ List.filter is_command t
      = [EvExec ("tar -xf openEuler-docker.x86_64.tar.xz --wildcards '*.tar'"
                 +:+ " --exclude 'layer.tar'");
         EvExec "ls | xargs -n1 | grep -v openEuler |grep *.tar";
         EvExec "mv a3f5c1.tar openEuler-docker-rootfs.x86_64.tar";
         EvExec "xz -z openEuler-docker-rootfs.x86_64.tar";
         EvExec ("cp /home/ci/Dockerfile /home/ci/openEuler/22.03-lts/x86_64"
                 +:+ "/Dockerfile")].
Proof.
  destruct (ImagePrepare_derives_again unix_env second_state
              "22.03-lts" "x86_64" [] ["aarch64"])
    as (t & more & Htrace & Hreq & Hcmd).
  - reflexivity.
  - reflexivity.
  - exists sample_image, sample_sidecar.
    split; [split; [reflexivity | by eexists; vm_compute]|].
    split; [split; [reflexivity | by vm_compute]|].
    split; [split; [reflexivity | by eexists; vm_compute]|].
    split; [split; [reflexivity | by vm_compute]|].
    split; [vm_compute; lia|].
    split; [by vm_compute|].
    split; [split; [reflexivity | by eexists; vm_compute]|].
    split; [reflexivity | by vm_compute].
  - exists t, more. split; [exact Htrace|]. split; [exact Hreq|].
    rewrite Hcmd. vm_compute. reflexivity.
Defined.

(** The two runs: the first one fetches, verifies and repackages, and
    leaves the compressed archive without the [.tar] file; the second one,
    a new process in the same working directory, requests nothing and
    runs the five commands again. *)
Example two_runs_sample :
  let first := ImagePrepare unix_env ["22.03-lts"] ["x86_64"] first_state in
  let second := ImagePrepare unix_env ["22.03-lts"] ["x86_64"] second_state in
  outcome_of first = Ret tt
  ∧ files (state_of first) !! rootfsPath "/home/ci" "22.03-lts" "x86_64" = None
  ∧ files (state_of first) !! compressedPath "/home/ci" "22.03-lts" "x86_64"
    = Some "xz:rootfs"
  ∧ length (List.filter is_request (trace_of first)) = 2
  ∧ length (List.filter is_command (trace_of first)) = 5
  ∧ outcome_of second = Ret tt
  ∧ length (List.filter is_request (trace_of second)) = 0
  ∧ List.filter is_command (trace_of second)
    = List.filter is_command (trace_of first).
Proof. vm_compute. repeat split; reflexivity. Qed.

(** ** Checksum verification *)


Lemma run_Panic (E : Env) (versions archs : list string)
  (before after : list (string * string)) (version arch msg : string)
  (s0 s s' : State) (t0 t : list Event) :
  pairs_of versions archs = before ++ (version, arch) :: after →
  forM_ before (λ p, ImagePrepare_pair E (cwd s0) p.1 p.2) s0
  = (Ret tt, s, t0) →
  ImagePrepare_pair E (cwd s0) version arch s = (Panic msg, s', t) →
  ImagePrepare E versions archs s0 = (Panic msg, s', t0 ++ t).
Proof.
  intros Hsplit Hb Hp.
  rewrite (ImagePrepare_abort E versions archs before after version arch
             s0 s t0 Hsplit Hb).
  - by rewrite Hp.
  - intros u. by rewrite Hp.
Qed.

(** C3.  A pair whose image and sidecar are supplied, each by the file that
    is there or by the download of the file that is not, gets past the
    verification exactly when the lower-case hex encoding of the digest of
    the image is the first 64 bytes of the sidecar: then it goes on to the
    check of the rootfs file; when the sidecar has 64 bytes or more and the
    two differ, the whole run stops at that pair in the panic
    "Sha256 Sum Error.", after the requests for the files that were not
    there. *)
Theorem checksum_verification (E : Env) (versions archs : list string)
  (before after : list (string * string)) (version arch : string)
  (s0 s : State) (t0 : list Event) (image sidecar : string) :
  let ip := imagePath (cwd s0) version arch in
  let sp := sha256sumPath (cwd s0) version arch in
  let dir := target_dir (cwd s0) version arch in
  let s' := fetched s ip image sp sidecar in
  (∀ content, String.length (sha256_Sum E content) = 32) →
  pairs_of versions archs = before ++ (version, arch) :: after →
  forM_ before (λ p, ImagePrepare_pair E (cwd s0) p.1 p.2) s0
  = (Ret tt, s, t0) →
  wg s = 0%N → ip ≠ sp →
  supplied E s ip (image_url E version arch) image →
  supplied E s sp (sidecar_url E version arch) sidecar →
  (outcome_of (verify_checksum E ip sp s') = Ret tt
   ↔ hex.EncodeToString (sha256_Sum E image) = String.substring 0 64 sidecar)
  ∧ ∃ t,
      List.filter is_request t
      = absent_request s ip (image_url E version arch)
        ++ absent_request s sp (sidecar_url E version arch)
      ∧ (is_Some (files s !! ip) → is_Some (files s !! sp) → t = [])
      ∧ (hex.EncodeToString (sha256_Sum E image)
         = String.substring 0 64 sidecar →
         ImagePrepare_pair E (cwd s0) version arch s
         = prepend (mkdir_trace E dir ++ t)
             (ensure_rootfs E (cwd s0) dir arch
                (rootfsPath (cwd s0) version arch) s'))
      ∧ (64 ≤ String.length sidecar →
         hex.EncodeToString (sha256_Sum E image)
         ≠ String.substring 0 64 sidecar →
         ImagePrepare E versions archs s0
         = (Panic "Sha256 Sum Error.", s', t0 ++ mkdir_trace E dir ++ t)).
Proof.
  intros ip sp dir s' Hsize Hsplit Hbefore Hwg Hne Hi Hs.
  destruct (pair_fetch_stage E (cwd s0) version arch s image sidecar
              Hwg Hne Hi Hs) as (t & _ & Hreq & Hnil & Hpair).
  fold ip sp dir s' in Hreq, Hnil, Hpair.
  destruct (fetched_holds E s ip image sp sidecar Hne) as [Hhi Hhs];
    [by destruct Hi as (_ & ? & _) | by destruct Hs as (_ & ? & _) |].
  fold s' in Hhi, Hhs.
  pose proof (verify_checksum_result E s' ip sp image sidecar Hhi Hhs) as Hv.
  split.
  - rewrite Hv. destruct (decide (String.length sidecar < 64)) as [Hlt|Hge].
    + split; [done|]. intros Heq. exfalso.
      pose proof (substring_length_le 64 sidecar) as Hle.
      rewrite <- Heq, EncodeToString_length, Hsize in Hle. lia.
    + destruct (String.eqb_spec (hex.EncodeToString (sha256_Sum E image))
                  (String.substring 0 64 sidecar)); by split.
  - exists t. split; [done|]. split; [done|]. split.
    + intros Heq. rewrite Hpair. f_equal.
      assert (64 ≤ String.length sidecar) as Hlen.
      { pose proof (substring_length_le 64 sidecar) as Hle.
        rewrite <- Heq, EncodeToString_length, Hsize in Hle. lia. }
      rewrite decide_False, Heq, String.eqb_refl in Hv by lia.
      by rewrite (bind_Ret _ _ _ _ _ _ Hv), prepend_nil.
    + intros Hlen Hdiff.
      rewrite (run_Panic E versions archs before after version arch
                 "Sha256 Sum Error." s0 s s' t0 (mkdir_trace E dir ++ t));
        [done | done | done |].
      rewrite Hpair. unfold bind. rewrite Hv, decide_False by lia.
      destruct (String.eqb_spec (hex.EncodeToString (sha256_Sum E image))
                  (String.substring 0 64 sidecar)); [done|].
      unfold prepend. cbn. by rewrite app_nil_r.
Qed.

(** C3, witness: the first run under a mirror that serves the image with
    the tampered sidecar; both files are requested, and the run stops in
    the verification. *)
Lemma checksum_verification_witness :
  ∃ t,
    List.filter is_request t
    = [EvHttpGet (image_url tampering_env "22.03-lts" "x86_64");
       EvHttpGet (sidecar_url tampering_env "22.03-lts" "x86_64")]
    ∧ ImagePrepare tampering_env ["22.03-lts"] ["x86_64"] empty_state
      = (Panic "Sha256 Sum Error.",
         fetched empty_state (imagePath "/home/ci" "22.03-lts" "x86_64")
           sample_image (sha256sumPath "/home/ci" "22.03-lts" "x86_64")
           tampered_sidecar,
         [] ++ mkdir_trace tampering_env
                 (target_dir "/home/ci" "22.03-lts" "x86_64") ++ t).
Proof.
  destruct (checksum_verification tampering_env ["22.03-lts"] ["x86_64"] [] []
              "22.03-lts" "x86_64" empty_state empty_state []
              sample_image tampered_sidecar)
    as (_ & t & Hreq & _ & _ & Hrun).
  - reflexivity.
  - reflexivity.
  - reflexivity.
  - reflexivity.
  - by vm_compute.
  - split; [reflexivity|]. split; [reflexivity|]. right.
    split; [reflexivity|]. split; [reflexivity|].
    exists (mkResponse 5 (mkReader ["ima"; "ge"] None)).
    split; [by vm_compute|]. split; [discriminate|]. split; reflexivity.
  - split; [reflexivity|]. split; [reflexivity|]. right.
    split; [reflexivity|]. split; [reflexivity|].
    exists (mkResponse 96 (mkReader [tampered_sidecar] None)).
    split; [by vm_compute|]. split; [discriminate|]. split; [reflexivity|].
    by vm_compute.
  - exists t. split; [exact Hreq|].
    apply Hrun; [vm_compute; lia | by vm_compute].
Defined.

(** The run over the tampered sidecar, when the two files are there, and
    when they are fetched first. *)
Example tampered_run :
  ImagePrepare sample_env ["22.03-lts"] ["x86_64"]
    (sample_state tampered_sidecar)
  = (Panic "Sha256 Sum Error.", sample_state tampered_sidecar,
     [EvMkdirAll "/home/ci/openEuler/22.03-lts/x86_64"])
  ∧ outcome_of (ImagePrepare tampering_env ["22.03-lts"] ["x86_64"]
                  empty_state)
    = Panic "Sha256 Sum Error.".
Proof. vm_compute. split; reflexivity. Qed.



(** ** The assertion on the host *)






(** ** A failure of [os.MkdirAll] *)

Lemma trace_bind_l {A B} (m : M A) (k : A → M B) (s : State) (e : Event) :
  e ∈ trace_of (m s) → e ∈ trace_of (bind m k s).
Proof.
  unfold bind. destruct (m s) as [[[a| | | ] s1] t1]; simpl; try done.
  destruct (k a s1) as [[o s2] t2]. simpl. intros H.
  apply elem_of_app. by left.
Qed.

Lemma trace_bind_r {A B} (m : M A) (k : A → M B) (s s1 : State) (a : A)
  (t1 : list Event) (e : Event) :
  m s = (Ret a, s1, t1) → e ∈ trace_of (k a s1) → e ∈ trace_of (bind m k s).
Proof.
  intros Hm He. rewrite (bind_Ret _ _ _ _ _ _ Hm). simpl.
  apply elem_of_app. by right.
Qed.

(** A file that is not there is requested from the mirror. *)
Lemma fetch_absent_requests (E : Env) (path url : string) (announce : bool)
  (s : State) :
  stat_error E path = None → files s !! path = None →
  EvHttpGet url ∈ trace_of (fetch_if_absent E path url announce s).
Proof.
  intros Hstat Hfile. unfold fetch_if_absent.
  assert (PathExists E path s = (Ret (false, None), s, [])) as Hpe.
  { unfold PathExists, bind, os_Stat. by rewrite Hstat, Hfile. }
  eapply trace_bind_r; [exact Hpe|]. cbn iota beta.
  assert ((if announce then Println url else ret tt) s
          = (Ret tt, s, if announce then [EvPrint url] else [])) as Hpr
    by (by destruct announce).
  eapply trace_bind_r; [exact Hpr|].
  eapply trace_bind_r; [apply wg_Add_one|].
  unfold downloadFile. rewrite trace_defer_Done. apply trace_bind_l. simpl. by left.
Qed.

(** C5, counterexample.  [os.MkdirAll] fails for the first pair; the run
    prints the error, goes on to request the image from the mirror, and
    stops only when the file cannot be created. *)
Lemma mkdir_failure_not_fatal :
  mkdir_error denied_env (target_dir "/home/ci" "22.03-lts" "x86_64")
  = Some "mkdir /home/ci/openEuler: permission denied"
  ∧ ImagePrepare denied_env ["22.03-lts"] ["x86_64"; "aarch64"] empty_state
    = (Panic ("open /home/ci/openEuler/22.03-lts/x86_64/"
              +:+ "openEuler-docker.x86_64.tar.xz: no such file or directory"),
       empty_state,
       [EvMkdirAll "/home/ci/openEuler/22.03-lts/x86_64";
        EvPrint "mkdir /home/ci/openEuler: permission denied";
        EvPrint ("https://repo.openeuler.org/openEuler-22.03-LTS/docker_img/"
                 +:+ "x86_64/openEuler-docker.x86_64.tar.xz");
        EvHttpGet ("https://repo.openeuler.org/openEuler-22.03-LTS/docker_img/"
                   +:+ "x86_64/openEuler-docker.x86_64.tar.xz");
        EvCreate ("/home/ci/openEuler/22.03-lts/x86_64/"
                  +:+ "openEuler-docker.x86_64.tar.xz")]).
Proof. split; [reflexivity | vm_compute; reflexivity]. Qed.

(** C5, amended.  A failure of [os.MkdirAll] on the target directory of a
    pair is printed and is not fatal: the pair goes on exactly as it does
    when the directory is created, with the printed error as the only
    difference, and it requests the image from the mirror when the image
    is not there. *)
Theorem mkdir_failure_is_printed (E : Env) (pwd version arch err : string)
  (s : State) :
  mkdir_error E (target_dir pwd version arch) = Some err →
  ImagePrepare_pair E pwd version arch s
  = (outcome_of
       (ImagePrepare_pair (with_mkdir_error (λ _, None) E) pwd version arch s),
     state_of
       (ImagePrepare_pair (with_mkdir_error (λ _, None) E) pwd version arch s),
     EvMkdirAll (target_dir pwd version arch) :: EvPrint err ::
     tail (trace_of
             (ImagePrepare_pair (with_mkdir_error (λ _, None) E)
                pwd version arch s)))
  ∧ (stat_error E (imagePath pwd version arch) = None →
     files s !! imagePath pwd version arch = None →
     EvHttpGet (image_url E version arch)
     ∈ trace_of (ImagePrepare_pair E pwd version arch s)).
Proof.
  intros Hmk. split.
  - unfold ImagePrepare_pair. fold (target_dir pwd version arch).
    set (dir := target_dir pwd version arch) in *.
    assert (os_MkdirAll E dir s = (Ret (Some err), s, [EvMkdirAll dir]))
      as H1 by (unfold os_MkdirAll, bind, emit, ret; by rewrite Hmk).
    assert (os_MkdirAll (with_mkdir_error (λ _, None) E) dir s
            = (Ret None, s, [EvMkdirAll dir])) as H2 by reflexivity.
    rewrite (bind_Ret _ _ _ _ _ _ H1), (bind_Ret _ _ _ _ _ _ H2).
    rewrite (bind_Ret _ _ _ _ _ _ (Println_result err s)).
    assert (ret tt s = (Ret tt, s, [])) as H3 by reflexivity.
    rewrite (bind_Ret _ _ _ _ _ _ H3).
    rewrite prepend_nil, prepend_prepend. reflexivity.
  - intros Hstat Hfile. unfold ImagePrepare_pair.
    fold (target_dir pwd version arch). fold (imagePath pwd version arch).
    eapply trace_bind_r; [reflexivity|]. rewrite Hmk.
    eapply trace_bind_r; [reflexivity|].
    apply trace_bind_l. by apply fetch_absent_requests.
Qed.

(** C5, witness: the first pair on the host that denies the directory. *)
Lemma mkdir_failure_is_printed_witness :
  ImagePrepare_pair denied_env "/home/ci" "22.03-lts" "x86_64" empty_state
  = (outcome_of
       (ImagePrepare_pair (with_mkdir_error (λ _, None) denied_env)
          "/home/ci" "22.03-lts" "x86_64" empty_state),
     state_of
       (ImagePrepare_pair (with_mkdir_error (λ _, None) denied_env)
          "/home/ci" "22.03-lts" "x86_64" empty_state),
     EvMkdirAll (target_dir "/home/ci" "22.03-lts" "x86_64")
     :: EvPrint "mkdir /home/ci/openEuler: permission denied"
     :: tail (trace_of
                (ImagePrepare_pair (with_mkdir_error (λ _, None) denied_env)
                   "/home/ci" "22.03-lts" "x86_64" empty_state)))
  ∧ (stat_error denied_env (imagePath "/home/ci" "22.03-lts" "x86_64") = None →
     files empty_state !! imagePath "/home/ci" "22.03-lts" "x86_64" = None →
     EvHttpGet (image_url denied_env "22.03-lts" "x86_64")
     ∈ trace_of (ImagePrepare_pair denied_env "/home/ci" "22.03-lts" "x86_64"
                   empty_state)).
Proof.
  apply (mkdir_failure_is_printed denied_env "/home/ci" "22.03-lts" "x86_64"
           "mkdir /home/ci/openEuler: permission denied" empty_state).
  reflexivity.
Defined.

(** ** The versions read from the mirror *)

Lemma get_Some_lt (n : nat) (s : string) (c : ascii) :
  String.get n s = Some c → n < String.length s.
Proof.
  revert n. induction s as [|d s IH]; intros [|n] H; simpl in *; try done.
  - lia.
  - apply IH in H. lia.
Qed.

Lemma MatchDockerImageDir_length (Text : string) :
  MatchDockerImageDir Text = true → 11 ≤ String.length Text.
Proof.
  unfold MatchDockerImageDir. intros H.
  apply andb_true_iff in H as [_ H].
  destruct (String.get 10 Text) as [c|] eqn:Hget; [|done].
  apply get_Some_lt in Hget. lia.
Qed.

Lemma on_links_result (E : Env) (links : list (string * string))
  (Result : list WebPageInfo) (s : State) :
  ∃ added,
    on_links E Result links s = (Ret (Result ++ added), s, [])
    ∧ map Version added
      = map (version_of E) (List.filter MatchDockerImageDir (map fst links)).
Proof.
  revert Result. induction links as [|[text href] links IH]; intros Result.
  - exists []. by rewrite app_nil_r.
  - cbn [on_links map fst List.filter].
    destruct (MatchDockerImageDir text) eqn:Hm.
    + pose proof (MatchDockerImageDir_length text Hm) as Hlen.
      set (info := mkWebPageInfo text (filepath.Join [mirror_url; href])
                     (version_of E text)).
      assert (on_link E Result (text, href) s = (Ret (Result ++ [info]), s, []))
        as Hlink.
      { unfold on_link. cbn [fst snd]. rewrite Hm. unfold Str.slice.
        destruct (decide _) as [_|Hbad]; [|lia].
        unfold info, version_of.
        by replace (String.length text - 1 - 10) with (String.length text - 11)
          by lia. }
      destruct (IH (Result ++ [info])) as (added & Hrest & Hmap).
      exists (info :: added). split.
      * rewrite (bind_Ret _ _ _ _ _ _ Hlink), Hrest.
        unfold prepend. simpl. by rewrite <- app_assoc.
      * simpl. by rewrite Hmap.
    + assert (on_link E Result (text, href) s = (Ret Result, s, [])) as Hlink.
      { unfold on_link. cbn [fst snd]. by rewrite Hm. }
      destruct (IH Result) as (added & Hrest & Hmap).
      exists added. split; [|done].
      by rewrite (bind_Ret _ _ _ _ _ _ Hlink), Hrest.
Qed.

Lemma GetOpenEulerTag_result (E : Env) (s : State) :
  GetOpenEulerTag E s
  = (Ret (map (version_of E)
            (List.filter MatchDockerImageDir (map fst (mirror_links E)))),
     s,
     EvVisit mirror_url ::
     match mirror_error E with
     | Some err => [EvPrint err]
     | None => []
     end).
Proof.
  unfold GetOpenEulerTag.
  destruct (on_links_result E (mirror_links E) [] s) as (added & Hlinks & Hmap).
  assert (emit (EvVisit mirror_url) s = (Ret tt, s, [EvVisit mirror_url]))
    as Hvisit by reflexivity.
  rewrite (bind_Ret _ _ _ _ _ _ Hvisit), (bind_Ret _ _ _ _ _ _ Hlinks).
  simpl. rewrite <- Hmap.
  by destruct (mirror_error E).
Qed.

(** ** The entry point *)

Lemma main_wrong_count (E : Env) (Args : list string) (s s1 : State)
  (t1 : list Event) (u : unit) :
  length Args ≠ 3 → run E s = (Ret u, s1, t1) →
  main E Args s = (Exit 0, s1, t1 ++ [EvPrint usage]).
Proof.
  intros Hlen Hrun. unfold main.
  rewrite (bind_Ret _ _ _ _ _ _ Hrun).
  apply Nat.eqb_neq in Hlen. rewrite Hlen. reflexivity.
Qed.

Lemma main_right_count (E : Env) (Args : list string) (s s1 : State)
  (t1 : list Event) (u : unit) :
  length Args = 3 → run E s = (Ret u, s1, t1) →
  ∃ o t2, main E Args s = (o, s1, t1 ++ EvBuild (nth 1 Args "") (nth 2 Args "") :: t2)
          ∧ ∀ msg, EvPrint msg ∈ t2 → ∃ l, msg = format_slice l.
Proof.
  intros Hlen Hrun. unfold main.
  rewrite (bind_Ret _ _ _ _ _ _ Hrun).
  apply Nat.eqb_eq in Hlen. rewrite Hlen. cbn [negb].
  assert (ret tt s1 = (Ret tt, s1, [])) as Hret by reflexivity.
  rewrite (bind_Ret _ _ _ _ _ _ Hret), prepend_nil.
  unfold buildImage, bind, emit, ret, prepend. cbn -[nth format_slice].
  destruct (build_result E _ _) as [msg [err|]]; cbn -[nth format_slice].
  - eexists _, []. split; [done|]. intros ? H. inversion H.
  - eexists _, [_]. split; [done|]. intros m H.
    apply list_elem_of_singleton in H. injection H as ->. by eexists.
Qed.

Lemma main_abort (E : Env) (Args : list string) (s : State) :
  (∀ u, outcome_of (run E s) ≠ Ret u) →
  match run E s with
  | (Ret _, _, _) => False
  | (Panic msg, s1, t1) => main E Args s = (Panic msg, s1, t1)
  | (Fatal msg, s1, t1) => main E Args s = (Fatal msg, s1, t1)
  | (Exit code, s1, t1) => main E Args s = (Exit code, s1, t1)
  end.
Proof.
  intros H. unfold main.
  destruct (run E s) as [[[u| | | ] s1] t1] eqn:Hrun; simpl in H.
  - by apply (H u).
  - unfold bind at 1. by rewrite Hrun.
  - unfold bind at 1. by rewrite Hrun.
  - unfold bind at 1. by rewrite Hrun.
Qed.

(** [run], stage by stage: the visit of the mirror, the request to the
    registry, and [ImagePrepare] over the reconciled versions and the two
    architectures. *)
Lemma run_stages (E : Env) (s : State) :
  run E s
  = let queries :=
      EvVisit mirror_url ::
      match mirror_error E with
      | Some err => [EvPrint err]
      | None => []
      end ++ [EvHttpGet hub_url] in
    match hub_names E with
    | inr err => (Panic err, s, queries)
    | inl names =>
        prepend queries
          (ImagePrepare E
             (reconcile_spec
                (map (version_of E)
                   (List.filter MatchDockerImageDir (map fst (mirror_links E))))
                (List.filter (λ n, negb (String.eqb n "latest")) names))
             ["x86_64"; "aarch64"] s)
    end.
Proof.
  unfold run. rewrite (bind_Ret _ _ _ _ _ _ (GetOpenEulerTag_result E s)).
  cbv zeta. destruct (hub_names E) as [names|err] eqn:Hhub.
  - assert (GetDockerHubTag E s
            = (Ret (List.filter (λ n, negb (String.eqb n "latest")) names), s,
               [EvHttpGet hub_url])) as Hget
      by (unfold GetDockerHubTag, bind, emit, ret; by rewrite Hhub).
    rewrite (bind_Ret _ _ _ _ _ _ Hget).
    unfold MatchTag. rewrite MatchTag_loop_filter. cbn [app].
    fold (reconcile_spec
            (map (version_of E)
               (List.filter MatchDockerImageDir (map fst (mirror_links E))))
            (List.filter (λ n, negb (String.eqb n "latest")) names)).
    rewrite prepend_prepend. cbn [app]. reflexivity.
  - assert (GetDockerHubTag E s = (Panic err, s, [EvHttpGet hub_url])) as Hget
      by (unfold GetDockerHubTag, bind, emit, panic; by rewrite Hhub).
    unfold bind. rewrite Hget. unfold prepend. cbn. reflexivity.
Qed.

(** What [main] does after [run]. *)
Lemma main_after_run (E : Env) (Args : list string) (s : State) :
  match run E s with
  | (Ret _, s1, t1) =>
      ∃ o t2, main E Args s = (o, s1, t1 ++ t2)
              ∧ (EvPrint usage ∈ t2 ↔ length Args ≠ 3)
              ∧ (o = Exit 0 ↔ length Args ≠ 3)
  | (Panic msg, s1, t1) => main E Args s = (Panic msg, s1, t1)
  | (Fatal msg, s1, t1) => main E Args s = (Fatal msg, s1, t1)
  | (Exit code, s1, t1) => main E Args s = (Exit code, s1, t1)
  end.
Proof.
  destruct (run E s) as [[[u| | | ] s1] t1] eqn:Hrun.
  - destruct (decide (length Args = 3)) as [Heq|Hne].
    + destruct (main_right_count E Args s s1 t1 u Heq Hrun)
        as (o & t2 & Hmain & Hprints).
      exists o, (EvBuild (nth 1 Args "") (nth 2 Args "") :: t2).
      split; [done|]. split.
      * split; [|done]. intros Hin. exfalso.
        apply elem_of_cons in Hin as [Hin|Hin]; [done|].
        destruct (Hprints _ Hin) as [l Hl]. discriminate Hl.
      * split; [|done]. intros ->. exfalso.
        revert Hmain. unfold main.
        rewrite (bind_Ret _ _ _ _ _ _ Hrun).
        apply Nat.eqb_eq in Heq. rewrite Heq. cbn [negb].
        unfold buildImage, bind, emit, ret, prepend, log_Fatal, Println.
        cbn -[nth format_slice].
        by destruct (build_result E _ _) as [msg [err|]].
    + exists (Exit 0), [EvPrint usage].
      split; [by apply (main_wrong_count E Args s s1 t1 u)|].
      split; (split; [done|]); intros _; [by left | done].
  - pose proof (main_abort E Args s) as H. rewrite Hrun in H. by apply H.
  - pose proof (main_abort E Args s) as H. rewrite Hrun in H. by apply H.
  - pose proof (main_abort E Args s) as H. rewrite Hrun in H. by apply H.
Qed.

(** C10.  Whatever the arguments, [main] first carries out the whole
    pipeline: it visits the mirror, asks the registry for its tags,
    reconciles the two lists and materializes the versions that are left,
    for the two architectures.  When the request to the registry fails or
    the materialization aborts, [main] ends there in the same way for
    every list of arguments, which is never looked at; when the
    materialization returns, what depends on the number of arguments
    follows the whole trace of the pipeline, and the usage message is
    printed there, with exit status 0, exactly when that number is not
    three. *)
Theorem pipeline_before_arguments (E : Env) (Args : list string) (s : State) :
  let scraped :=
    map (version_of E)
      (List.filter MatchDockerImageDir (map fst (mirror_links E))) in
  let queries :=
    EvVisit mirror_url ::
    match mirror_error E with
    | Some err => [EvPrint err]
    | None => []
    end ++ [EvHttpGet hub_url] in
  match hub_names E with
  | inr err => main E Args s = (Panic err, s, queries)
  | inl names =>
      let published := List.filter (λ n, negb (String.eqb n "latest")) names in
      match ImagePrepare E (reconcile_spec scraped published)
              ["x86_64"; "aarch64"] s with
      | (Ret _, s1, t1) =>
          ∃ o t2, main E Args s = (o, s1, queries ++ t1 ++ t2)
                  ∧ (EvPrint usage ∈ t2 ↔ length Args ≠ 3)
                  ∧ (o = Exit 0 ↔ length Args ≠ 3)
      | (Panic msg, s1, t1) => main E Args s = (Panic msg, s1, queries ++ t1)
      | (Fatal msg, s1, t1) => main E Args s = (Fatal msg, s1, queries ++ t1)
      | (Exit code, s1, t1) => main E Args s = (Exit code, s1, queries ++ t1)
      end
  end.
Proof.
  intros scraped queries.
  pose proof (main_after_run E Args s) as H. rewrite run_stages in H.
  cbv zeta in H. fold scraped queries in H.
  destruct (hub_names E) as [names|err]; [|exact H].
  cbv zeta.
  destruct (ImagePrepare E _ _ s) as [[[u| | | ] s1] t1];
    unfold prepend in H; cbn [outcome_of state_of trace_of fst snd] in H;
    try exact H.
  destruct H as (o & t2 & Hmain & Husage & Hexit).
  exists o, t2. by rewrite app_assoc.
Qed.

(** The pipeline of the serving mirror, started with no argument: both
    architectures are materialized before the usage message appears. *)
Example pipeline_sample :
  let E :=
    mkEnv "linux" sample_sum (map_bytes upper_byte) (map_bytes lower_byte)
      (λ _, None) (λ _, None) (λ _, None) (λ _, None) (λ _, None)
      (λ url,
         if String.eqb url (image_url sample_env "22.03-lts" "x86_64")
            || String.eqb url (image_url sample_env "22.03-lts" "aarch64")
         then inl (mkResponse 5 (mkReader ["ima"; "ge"] None))
         else inl (mkResponse 96 (mkReader [sample_sidecar] None)))
      tools
      [("openEuler-20.03-LTS/", "openEuler-20.03-LTS/");
       ("openEuler-22.03-LTS/", "openEuler-22.03-LTS/")]
      None (inl ["latest"; "20.03-lts"]) (λ _ _, ([], None)) in
  let r := main E ["release"] first_state in
  outcome_of r = Exit 0
  ∧ List.filter is_mkdir (trace_of r)
    = [EvMkdirAll "/home/ci/openEuler/22.03-lts/x86_64";
       EvMkdirAll "/home/ci/openEuler/22.03-lts/aarch64"]
  ∧ length (List.filter is_request (trace_of r)) = 5
  ∧ last (trace_of r) = Some (EvPrint usage).
Proof. vm_compute. repeat split; reflexivity. Qed.

(** C8, counterexample.  Started with no positional argument on a host
    that cannot reach the registry, the program panics in [run]: it prints
    no usage message and does not exit with status 0.  The usage message
    itself has three lines. *)
Lemma usage_not_reached_offline :
  length ["release"] ≠ 3
  ∧ main offline_env ["release"] empty_state
    = (Panic "dial tcp: lookup hub.docker.com: no such host", empty_state,
       [EvVisit mirror_url; EvHttpGet hub_url])
  ∧ length (Str.Split newline usage) = 3.
Proof.
  split; [discriminate|]. split; [vm_compute; reflexivity | reflexivity].
Qed.

(** C8, amended.  When [run] has returned and the number of arguments is
    not three, [main] prints the usage message, a heading followed by one
    line for each of the two arguments, and exits with status 0. *)
Theorem usage_after_pipeline (E : Env) (Args : list string) (s s1 : State)
  (t1 : list Event) :
  length Args ≠ 3 → run E s = (Ret tt, s1, t1) →
  main E Args s = (Exit 0, s1, t1 ++ [EvPrint usage])
  ∧ Str.Split newline usage
    = ["bad num of arguments:";
       String (ascii_of_nat 9) "1. = dir with image content";
       String (ascii_of_nat 9) "2. = image name"].
Proof.
  intros Hlen Hrun. split; [|reflexivity].
  by apply (main_wrong_count E Args s s1 t1 tt).
Qed.

(** C8, witness: one positional argument on the sample host. *)
Lemma usage_after_pipeline_witness :
  main sample_env ["release"; "/srv/image"] empty_state
  = (Exit 0, empty_state,
     [EvVisit mirror_url; EvHttpGet hub_url] ++ [EvPrint usage])
  ∧ Str.Split newline usage
    = ["bad num of arguments:";
       String (ascii_of_nat 9) "1. = dir with image content";
       String (ascii_of_nat 9) "2. = image name"].
Proof.
  apply (usage_after_pipeline sample_env ["release"; "/srv/image"]
           empty_state empty_state [EvVisit mirror_url; EvHttpGet hub_url]).
  - simpl. lia.
  - vm_compute. reflexivity.
Defined.

(** ** A first run, and a sidecar with one altered digit *)

(** The first run under the serving mirror: both files are requested, the
    checksum verifies, and the five commands of the repackaging run in the
    target directory. *)
Example first_run_sample :
  let r := ImagePrepare serving_env ["22.03-lts"] ["x86_64"] empty_state in
  outcome_of r = Ret tt
  ∧ cwd (state_of r) = "/home/ci/openEuler/22.03-lts/x86_64"
  ∧ files (state_of r) !! imagePath "/home/ci" "22.03-lts" "x86_64"
    = Some sample_image
  ∧ length (List.filter is_request (trace_of r)) = 2
  ∧ length (List.filter is_command (trace_of r)) = 5.
Proof. vm_compute. repeat split; reflexivity. Qed.

Lemma set_byte_length (i : nat) (c : ascii) (s : string) :
  String.length (set_byte i c s) = String.length s.
Proof.
  revert i. induction s as [|d s IH]; intros [|i]; simpl; try done.
  by rewrite IH.
Qed.

Lemma substring_set_byte (n i : nat) (c d : ascii) (s : string) :
  i < n → String.get i s = Some d → d ≠ c →
  String.substring 0 n (set_byte i c s) ≠ String.substring 0 n s.
Proof.
  revert n i. induction s as [|e s IH]; intros n i Hi Hget Hne.
  - by destruct i.
  - destruct n as [|n]; [lia|]. destruct i as [|i]; simpl in *.
    + injection Hget as ->. intros Heq. injection Heq as Heq. by subst.
    + intros Heq. injection Heq as Heq.
      by apply (IH n i ltac:(lia) Hget Hne).
Qed.

(** A sidecar that verifies no longer does once one of its first 64 bytes
    is replaced by another: the verification panics. *)
Lemma mutated_digest_rejected (E : Env) (s : State) (ip sp image sidecar : string)
  (i : nat) (c d : ascii) :
  holds E s ip image → holds E s sp (set_byte i c sidecar) →
  64 ≤ String.length sidecar →
  hex.EncodeToString (sha256_Sum E image) = String.substring 0 64 sidecar →
  i < 64 → String.get i sidecar = Some d → d ≠ c →
  verify_checksum E ip sp s = (Panic "Sha256 Sum Error.", s, []).
Proof.
  intros Hi Hs Hlen Hsum Hlt Hget Hne.
  rewrite (verify_checksum_result E s ip sp image _ Hi Hs).
  rewrite set_byte_length, decide_False by lia.
  rewrite Hsum.
  destruct (String.eqb_spec (String.substring 0 64 sidecar)
              (String.substring 0 64 (set_byte i c sidecar))) as [Heq|]; [|done].
  exfalso. by apply (substring_set_byte 64 i c d sidecar Hlt Hget Hne).
Qed.

(** * Further properties of the code *)

(** ** The reconciler *)

Lemma filter_not_in_app (A B1 B2 : list string) :
  filter (λ s, s ∉ B1 ++ B2) A = filter (λ s, s ∉ B2) (filter (λ s, s ∉ B1) A).
Proof.
  induction A as [|a A IH]; [done|].
  destruct (decide (a ∈ B1)) as [H1|H1].
  - rewrite filter_cons_False by (intros H; apply H, elem_of_app; by left).
    rewrite (filter_cons_False (λ s, s ∉ B1)) by (intros H; by apply H).
    done.
  - rewrite (filter_cons_True (λ s, s ∉ B1)) by done.
    destruct (decide (a ∈ B2)) as [H2|H2].
    + rewrite filter_cons_False by (intros H; apply H, elem_of_app; by right).
      rewrite (filter_cons_False (λ s, s ∉ B2)) by (intros H; by apply H).
      done.
    + rewrite filter_cons_True
        by (intros H; apply elem_of_app in H as [?|?]; done).
      rewrite (filter_cons_True (λ s, s ∉ B2)) by done.
      by rewrite IH.
Qed.

(** X1.  [SelectStringInList] answers true exactly when the string occurs
    in the list, and false exactly when it occurs nowhere in it. *)
Theorem SelectStringInList_membership (SrcString : string)
  (DestinationTag : list string) :
  (SelectStringInList SrcString DestinationTag = true
   ↔ SrcString ∈ DestinationTag)
  ∧ (SelectStringInList SrcString DestinationTag = false
     ↔ SrcString ∉ DestinationTag).
Proof.
  pose proof (SelectStringInList_elem SrcString DestinationTag) as H.
  split; [done|].
  destruct (SelectStringInList SrcString DestinationTag).
  - split; [done|]. intros Hn. exfalso. apply Hn. by apply H.
  - split; [|done]. intros _ Hin. apply H in Hin. discriminate.
Qed.

(** X2.  [MatchTag] works entry by entry: on a source made of two parts it
    returns what it returns on the first part followed by what it returns on
    the second. *)
Theorem MatchTag_source_app (A1 A2 B : list string) :
  MatchTag (A1 ++ A2) B = MatchTag A1 B ++ MatchTag A2 B.
Proof.
  unfold MatchTag. rewrite !MatchTag_loop_filter. simpl.
  by rewrite filter_app.
Qed.

(** X3.  Reconciling against two destinations at once is reconciling
    against the first and then against the second. *)
Theorem MatchTag_destination_app (A B1 B2 : list string) :
  MatchTag A (B1 ++ B2) = MatchTag (MatchTag A B1) B2.
Proof.
  unfold MatchTag. rewrite !MatchTag_loop_filter. simpl.
  apply filter_not_in_app.
Qed.

(** X4.  [MatchTag] is idempotent in its source, a list reconciled against
    itself leaves nothing, and a source that shares no entry with the
    destination comes back whole. *)
Theorem MatchTag_idempotent (A B : list string) :
  MatchTag (MatchTag A B) B = MatchTag A B
  ∧ MatchTag A A = []
  ∧ ((∀ x, x ∈ A → x ∉ B) → MatchTag A B = A).
Proof.
  unfold MatchTag. rewrite !MatchTag_loop_filter. simpl.
  split; [|split].
  - induction A as [|a A IH]; [done|].
    destruct (decide (a ∈ B)) as [Hin|Hn].
    + by rewrite filter_cons_False by (intros H; by apply H).
    + rewrite (filter_cons_True (λ s, s ∉ B) a A) by done.
      rewrite filter_cons_True by done. by rewrite IH.
  - assert (∀ L : list string, (∀ x, x ∈ L → x ∈ A) →
              filter (λ s, s ∉ A) L = []) as H.
    { induction L as [|x L IH]; intros Hsub; [done|].
      rewrite filter_cons_False
        by (intros Hn; apply Hn, Hsub; left).
      apply IH. intros y Hy. apply Hsub. by right. }
    by apply H.
  - intros Hdis. induction A as [|a A IH]; [done|].
    rewrite filter_cons_True by (apply Hdis; left).
    rewrite IH; [done|]. intros x Hx. apply Hdis. by right.
Qed.

(** ** The versions of the mirror *)

(** X5.  [GetOpenEulerTag] never aborts: the slice [Path[10:len(Path)-1]]
    is taken only of texts that [MatchDockerImageDir] accepts, which have
    eleven bytes or more.  It returns, in the order of the listing, the
    lower-cased text between the prefix [openEuler-] and the last byte of
    every accepted link, leaves the state as it is, and prints the error of
    the visit without failing. *)
Theorem GetOpenEulerTag_versions (E : Env) (s : State) :
  GetOpenEulerTag E s
  = (Ret (map (version_of E)
            (List.filter MatchDockerImageDir (map fst (mirror_links E)))),
     s,
     EvVisit mirror_url ::
     match mirror_error E with
     | Some err => [EvPrint err]
     | None => []
     end)
  ∧ ∀ Text, MatchDockerImageDir Text = true →
      Str.slice Text 10 (String.length Text - 1)
      = Some (String.substring 10 (String.length Text - 11) Text).
Proof.
  split; [apply GetOpenEulerTag_result|].
  intros Text Hm. apply MatchDockerImageDir_length in Hm.
  unfold Str.slice. destruct (decide _) as [_|Hbad]; [|lia].
  by replace (String.length Text - 1 - 10) with (String.length Text - 11)
    by lia.
Qed.

Example GetOpenEulerTag_sample :
  outcome_of
    (GetOpenEulerTag
       (mkEnv "linux" sample_sum (map_bytes upper_byte) (map_bytes lower_byte)
          (λ _, None) (λ _, None) (λ _, None) (λ _, None) (λ _, None)
          (λ _, inr "unreachable") (λ _ _ fs, (fs, "", None))
          [("../", "../"); ("openEuler-20.03-LTS/", "openEuler-20.03-LTS/");
           ("openEuler-preview/", "openEuler-preview/");
           ("openEuler-22.03-LTS-SP1/", "openEuler-22.03-LTS-SP1/")]
          None (inl []) (λ _ _, ([], None)))
       empty_state)
  = Ret ["20.03-lts"; "22.03-lts-sp1"].
Proof. vm_compute. reflexivity. Qed.

(** ** The downloader *)

Lemma int64_wrap_small (z : Z) :
  (- 2 ^ 63 ≤ z < 2 ^ 63)%Z → int64.wrap z = z.
Proof.
  intros H. unfold int64.wrap.
  rewrite Z.mod_small by lia. lia.
Qed.

(** X6.  While the bytes read so far stay within the declared length, and
    that length times 10000 fits [int64], a [Read] returns what the
    underlying reader returned, adds the number of bytes to [Current], and
    prints a progress between 0 and 100 percent (in hundredths), computed
    without overflow; the completion line follows exactly when the bytes
    read reach the declared length, which is exactly when the progress is
    100 percent. *)
Theorem Downloader_Read_progress (d : Downloader) (s : State) :
  let r := (io_Reader_Read (Reader d)).1.1 in
  let data := (io_Reader_Read (Reader d)).1.2 in
  let err := (io_Reader_Read (Reader d)).2 in
  let current := (Current d + Z.of_nat (String.length data))%Z in
  let q := (current * 10000 / Total d)%Z in
  (0 ≤ Current d)%Z → (current ≤ Total d)%Z → (0 < Total d)%Z →
  (Total d * 10000 < 2 ^ 63)%Z →
  Downloader_Read d s
  = (Ret (mkDownloader r (Total d) current, data, err), s,
     EvProgress false q ::
     (if decide (current = Total d) then [EvProgress true q] else []))
  ∧ (0 ≤ q ≤ 10000)%Z
  ∧ (q = 10000%Z ↔ current = Total d).
Proof.
  intros r data err current q Hcur Hle Hpos Hfit.
  assert (0 ≤ current)%Z as Hc0 by (unfold current; lia).
  assert (int64.add (Current d) (Z.of_nat (String.length data)) = current)
    as Hadd by (unfold int64.add; apply int64_wrap_small; lia).
  assert (int64.div (int64.mul current 10000) (Total d) = Some q) as Hdiv.
  { unfold int64.div, int64.mul. rewrite decide_False by lia.
    rewrite (int64_wrap_small (current * 10000)) by lia.
    rewrite Z.quot_div_nonneg by lia. fold q.
    assert (0 ≤ q ≤ current * 10000)%Z.
    { unfold q. split; [apply Z.div_pos; lia|].
      apply Z.div_le_upper_bound; nia. }
    by rewrite int64_wrap_small by lia. }
  assert (0 ≤ q ≤ 10000)%Z as Hq.
  { unfold q. split; [apply Z.div_pos; lia|].
    apply Z.div_le_upper_bound; nia. }
  split; [|split; [done|]].
  - unfold Downloader_Read.
    destruct (io_Reader_Read (Reader d)) as [[r' data'] err'] eqn:Hread.
    subst r data err. cbn [fst snd] in *. cbn [Total Current].
    rewrite Hadd.
    assert (divide (int64.mul current 10000) (Total d) = ret q) as Hdivide
      by (unfold divide; by rewrite Hdiv).
    rewrite !Hdivide.
    by destruct (decide (current = Total d)).
  - split.
    + intros Hfull. unfold q in Hfull.
      assert (Total d * 10000 ≤ current * 10000)%Z; [|lia].
      destruct (Z.lt_ge_cases (current * 10000) (Total d * 10000)) as [Hlt|];
        [|lia].
      apply (Z.div_lt_upper_bound _ (Total d) 10000) in Hlt; lia.
    + intros ->. unfold q. rewrite Z.mul_comm. apply Z.div_mul. lia.
Qed.

(** X6, witness: the second chunk of a body of five bytes. *)
Lemma Downloader_Read_progress_witness :
  Downloader_Read (mkDownloader (mkReader ["ge"] None) 5 3) empty_state
  = (Ret (mkDownloader (mkReader [] None) 5 5, "ge", None), empty_state,
     [EvProgress false 10000; EvProgress true 10000]).
Proof.
  destruct (Downloader_Read_progress
              (mkDownloader (mkReader ["ge"] None) 5 3) empty_state)
    as (H & _ & _); [cbn; lia | cbn; lia | cbn; lia | cbn; lia |].
  exact H.
Defined.

(** ** Downloads *)

(** X7.  A download whose request and file creation succeed, whose
    response declares a length other than zero and whose body ends in
    [io.EOF] leaves the file holding exactly the bytes of the body (a file
    that was there is replaced), with the request, the creation and
    progress lines as its only actions.  Called with the counter of the
    wait group above zero, as after the [wg.Add(1)] that precedes every
    call, it returns with the counter lowered by one; called with the
    counter at zero it ends, the file written, in the panic of the deferred
    [wg.Done()]. *)
Theorem downloadFile_stores_body (E : Env) (url filePath : string)
  (resp : Response) (s : State) :
  http_reply E url = inl resp → create_error E filePath = None →
  ContentLength resp ≠ 0%Z → copy_error (failure (Body resp)) = None →
  (0 < wg s)%N →
  (∃ t,
     downloadFile E url filePath s
     = (Ret tt,
        mkState (<[filePath := concat_chunks (pending (Body resp))]> (files s))
          (cwd s) (wg s - 1),
        EvHttpGet url :: EvCreate filePath :: t)
     ∧ Forall (λ e, is_progress e = true) t)
  ∧ (∃ t,
       downloadFile E url filePath (mkState (files s) (cwd s) 0)
       = (Panic "sync: negative WaitGroup counter",
          mkState
            (<[filePath := concat_chunks (pending (Body resp))]> (files s))
            (cwd s) 0,
          EvHttpGet url :: EvCreate filePath :: t)
       ∧ Forall (λ e, is_progress e = true) t).
Proof.
  intros Hget Hcreate Hnz Heof Hwg. split.
  - destruct (downloadFile_body E url filePath resp s Hget Hcreate Hnz)
      as (t & Ht & Hbody).
    exists t. split; [|done].
    rewrite Hbody, Heof. cbv zeta. by rewrite decide_False by lia.
  - destruct (downloadFile_body E url filePath resp
                (mkState (files s) (cwd s) 0) Hget Hcreate Hnz)
      as (t & Ht & Hbody).
    exists t. split; [|done].
    rewrite Hbody, Heof. reflexivity.
Qed.

(** X7, witness: the image served in two chunks, after [wg.Add(1)]. *)
Lemma downloadFile_stores_body_witness :
  (∃ t,
     downloadFile serving_env (image_url sample_env "22.03-lts" "x86_64")
       "/tmp/image" added_state
     = (Ret tt,
        mkState
          (<["/tmp/image" :=
               concat_chunks
                 (pending (Body (mkResponse 5 (mkReader ["ima"; "ge"] None))))]>
             (files added_state))
          (cwd added_state) (wg added_state - 1),
        EvHttpGet (image_url sample_env "22.03-lts" "x86_64")
        :: EvCreate "/tmp/image" :: t)
     ∧ Forall (λ e, is_progress e = true) t)
  ∧ (∃ t,
       downloadFile serving_env (image_url sample_env "22.03-lts" "x86_64")
         "/tmp/image" (mkState (files added_state) (cwd added_state) 0)
       = (Panic "sync: negative WaitGroup counter",
          mkState
            (<["/tmp/image" :=
                 concat_chunks
                   (pending
                      (Body (mkResponse 5 (mkReader ["ima"; "ge"] None))))]>
               (files added_state))
            (cwd added_state) 0,
          EvHttpGet (image_url sample_env "22.03-lts" "x86_64")
          :: EvCreate "/tmp/image" :: t)
       ∧ Forall (λ e, is_progress e = true) t).
Proof.
  apply (downloadFile_stores_body serving_env
           (image_url sample_env "22.03-lts" "x86_64") "/tmp/image"
           (mkResponse 5 (mkReader ["ima"; "ge"] None)) added_state).
  - reflexivity.
  - reflexivity.
  - discriminate.
  - reflexivity.
  - reflexivity.
Defined.

(** X8.  A download whose body fails midway ends the process with
    [log.Fatal] and leaves on disk the bytes received so far; at a later
    run [PathExists] finds that file, so it is not requested again. *)
Theorem downloadFile_partial_file (E : Env) (url filePath e : string)
  (resp : Response) (s : State) :
  http_reply E url = inl resp → create_error E filePath = None →
  ContentLength resp ≠ 0%Z → copy_error (failure (Body resp)) = Some e →
  stat_error E filePath = None →
  ∃ s' t,
    downloadFile E url filePath s = (Fatal e, s', t)
    ∧ files s' !! filePath = Some (concat_chunks (pending (Body resp)))
    ∧ ∀ announce,
        fetch_if_absent E filePath url announce s' = (Ret tt, s', []).
Proof.
  intros Hget Hcreate Hnz Hfail Hstat.
  destruct (downloadFile_body E url filePath resp s Hget Hcreate Hnz)
    as (t & _ & Hbody).
  eexists _, _. split; [|split].
  - rewrite Hbody, Hfail. reflexivity.
  - cbn. apply lookup_insert_eq.
  - intros announce. apply fetch_present. split; [done|].
    eexists. cbn. apply lookup_insert_eq.
Qed.

(** X8, witness: the broken connection. *)
Lemma downloadFile_partial_file_witness :
  ∃ s' t,
    downloadFile broken_env "https://repo.openeuler.org/image" "/tmp/image"
      empty_state = (Fatal "unexpected EOF", s', t)
    ∧ files s' !! "/tmp/image"
      = Some (concat_chunks
                (pending (Body (mkResponse 5
                                  (mkReader ["ima"] (Some "unexpected EOF"))))))
    ∧ ∀ announce,
        fetch_if_absent broken_env "/tmp/image"
          "https://repo.openeuler.org/image" announce s' = (Ret tt, s', []).
Proof.
  apply (downloadFile_partial_file broken_env
           "https://repo.openeuler.org/image" "/tmp/image" "unexpected EOF"
           (mkResponse 5 (mkReader ["ima"] (Some "unexpected EOF")))
           empty_state).
  - reflexivity.
  - reflexivity.
  - discriminate.
  - reflexivity.
  - reflexivity.
Defined.

(** ** The wait group *)

Lemma wg_kept_bind {A B} (m : M A) (k : A → M B) :
  wg_kept m → (∀ a, wg_kept (k a)) → wg_kept (bind m k).
Proof.
  intros Hm Hk s b s' t. unfold bind.
  destruct (m s) as [[[a| | | ] s1] t1] eqn:Hms; try done.
  destruct (k a s1) as [[o s2] t2] eqn:Hks. intros Heq.
  injection Heq as Ho Hs _. subst o s2.
  rewrite (Hk a s1 b s' t2 Hks). by apply (Hm s a s1 t1).
Qed.

Lemma wg_kept_pure {A} (m : M A) :
  (∀ s, state_of (m s) = s) → wg_kept m.
Proof.
  intros H s a s' t Hm. specialize (H s). rewrite Hm in H. simpl in H.
  by subst.
Qed.

Lemma wg_kept_files {A} (m : M A) :
  (∀ s, wg (state_of (m s)) = wg s) → wg_kept m.
Proof.
  intros H s a s' t Hm. specialize (H s). by rewrite Hm in H.
Qed.

Lemma wg_kept_Downloader_Read (d : Downloader) : wg_kept (Downloader_Read d).
Proof.
  apply wg_kept_pure. intros s. unfold Downloader_Read.
  destruct (io_Reader_Read (Reader d)) as [[r data] err].
  unfold divide, bind, emit, ret, panic.
  repeat case_match; simplify_eq; done.
Qed.

Lemma wg_kept_io_Copy_loop (reads : list string) (dst : string)
  (d : Downloader) :
  wg_kept (io_Copy_loop reads dst d).
Proof.
  revert d. induction reads as [|chunk rest IH]; intros d; cbn [io_Copy_loop].
  - apply wg_kept_bind; [apply wg_kept_Downloader_Read|].
    intros [[d' data] err]. apply wg_kept_bind.
    + destruct (String.eqb data ""); by apply wg_kept_files.
    + intros _. by apply wg_kept_pure.
  - apply wg_kept_bind; [apply wg_kept_Downloader_Read|].
    intros [[d' data] err]. apply wg_kept_bind.
    + destruct (String.eqb data ""); by apply wg_kept_files.
    + intros _. apply IH.
Qed.

(** A download that returns has lowered the counter by one. *)
Lemma downloadFile_Done (E : Env) (url filePath : string) (s s' : State)
  (t : list Event) :
  downloadFile E url filePath s = (Ret tt, s', t) → (wg s' + 1 = wg s)%N.
Proof.
  unfold downloadFile, defer.
  match goal with
  | |- context [match ?body s with _ => _ end] =>
      assert (wg_kept body) as Hbody; [|destruct (body s) as [[[u| | | ] s1] t1] eqn:Hb]
  end.
  - apply wg_kept_bind; [by apply wg_kept_pure|].
    intros [resp|err]; [|by intros ? ? ? ? ?].
    apply wg_kept_bind.
    + apply wg_kept_files. intros s0. unfold os_Create.
      by destruct (create_error E filePath).
    + intros [e|]; [by intros ? ? ? ? ?|].
      apply wg_kept_bind; [apply wg_kept_io_Copy_loop|].
      intros [e|]; [by intros ? ? ? ? ?|]. by apply wg_kept_pure.
  - unfold bind. rewrite wg_Done_result.
    destruct (decide (wg s1 = 0%N)) as [Hz|Hpos]; [done|].
    unfold prepend, ret. simpl. intros Heq. simplify_eq. cbn.
    rewrite <- (Hbody s _ s1 _ Hb). lia.
  - unfold bind. rewrite wg_Done_result.
    by destruct (decide (wg s1 = 0%N)).
  - done.
  - done.
Qed.

Lemma wg_kept_fetch_if_absent (E : Env) (path url : string) (announce : bool) :
  wg_kept (fetch_if_absent E path url announce).
Proof.
  intros s a s' t. unfold fetch_if_absent.
  assert (∃ r, PathExists E path s = (Ret r, s, [])) as [r Hpe].
  { unfold PathExists, os_Stat, bind, ret.
    repeat case_match; simplify_eq; by eexists. }
  rewrite (bind_Ret _ _ _ _ _ _ Hpe), prepend_nil.
  destruct r as [isExist [err|]]; [done|].
  destruct isExist; [by intros [= _ <- _]|].
  assert ((if announce then Println url else ret tt) s
          = (Ret tt, s, if announce then [EvPrint url] else [])) as Hpr
    by (by destruct announce).
  rewrite (bind_Ret _ _ _ _ _ _ Hpr).
  rewrite (bind_Ret _ _ _ _ _ _ (wg_Add_one s)), prepend_nil.
  destruct (downloadFile E url path _) as [[o s1] t1] eqn:Hdl.
  unfold prepend. cbn. intros Heq. simplify_eq.
  destruct a. apply downloadFile_Done in Hdl. cbn in Hdl. lia.
Qed.

Lemma wg_kept_Println (text : string) : wg_kept (Println text).
Proof. by apply wg_kept_pure. Qed.

Lemma wg_kept_ExecCommand (E : Env) (Command : string) :
  wg_kept (ExecCommand E Command).
Proof.
  unfold ExecCommand.
  apply wg_kept_bind; [apply wg_kept_Println|]. intros _.
  apply wg_kept_bind.
  - apply wg_kept_files. intros s. unfold exec_Output.
    by destruct (shell E Command (cwd s) (files s)) as [[fs out] err].
  - intros [out err]. apply wg_kept_bind.
    + destruct err; by apply wg_kept_pure.
    + intros _. by apply wg_kept_pure.
Qed.

Lemma wg_kept_derive_rootfs (E : Env) (pwd dir arch : string) :
  wg_kept (derive_rootfs E pwd dir arch).
Proof.
  unfold derive_rootfs.
  apply wg_kept_bind.
  { apply wg_kept_files. intros s. unfold os_Chdir.
    by destruct (chdir_error E dir). }
  intros _.
  repeat (first [ apply wg_kept_Println
                | apply wg_kept_ExecCommand
                | apply wg_kept_bind; [|intros ?] ]).
Qed.

Lemma wg_kept_PathExists (E : Env) (path : string) :
  wg_kept (PathExists E path).
Proof.
  apply wg_kept_pure. intros s. unfold PathExists, os_Stat, bind, ret.
  repeat case_match; simplify_eq; done.
Qed.

Lemma wg_kept_pair (E : Env) (pwd version arch : string) :
  wg_kept (ImagePrepare_pair E pwd version arch).
Proof.
  unfold ImagePrepare_pair.
  apply wg_kept_bind; [by apply wg_kept_pure|]. intros err.
  apply wg_kept_bind; [destruct err; by apply wg_kept_pure|]. intros _.
  apply wg_kept_bind; [apply wg_kept_fetch_if_absent|]. intros _.
  apply wg_kept_bind; [apply wg_kept_fetch_if_absent|]. intros _.
  apply wg_kept_bind.
  { apply wg_kept_pure. intros s. unfold wg_Wait. by destruct (decide _). }
  intros _. apply wg_kept_bind.
  { apply wg_kept_pure. intros s. apply quiet_verify_checksum. }
  intros _. unfold ensure_rootfs.
  apply wg_kept_bind; [apply wg_kept_PathExists|].
  intros [isExist [stat|]]; [by intros ? ? ? ? ?|].
  destruct (negb (String.eqb (GOOS E) "linux")); [by intros ? ? ? ? ?|].
  destruct (negb isExist); [apply wg_kept_derive_rootfs | by apply wg_kept_pure].
Qed.

Lemma wg_kept_forM_ {A} (l : list A) (body : A → M unit) :
  (∀ x, wg_kept (body x)) → wg_kept (forM_ l body).
Proof.
  intros H. induction l as [|x l IH]; simpl.
  - by apply wg_kept_pure.
  - apply wg_kept_bind; [apply H | by intros _].
Qed.

(** X9.  Every [wg.Add(1)] is matched by the deferred [wg.Done] of the
    download it precedes: a step that fetches a file, and a whole run of
    [ImagePrepare], return with the counter of the wait group as they found
    it; so, started with the counter at zero, [wg.Wait] after the two
    fetches of a pair never blocks. *)
Theorem wait_group_balanced (E : Env) :
  (∀ path url announce s s' t,
     fetch_if_absent E path url announce s = (Ret tt, s', t) →
     wg s' = wg s)
  ∧ (∀ versions archs s s' t,
       ImagePrepare E versions archs s = (Ret tt, s', t) → wg s' = wg s)
  ∧ (∀ path1 url1 path2 url2 s s1 s2 t1 t2,
       wg s = 0%N →
       fetch_if_absent E path1 url1 true s = (Ret tt, s1, t1) →
       fetch_if_absent E path2 url2 false s1 = (Ret tt, s2, t2) →
       wg_Wait s2 = (Ret tt, s2, [])).
Proof.
  split; [|split].
  - intros path url announce s s' t H.
    by apply (wg_kept_fetch_if_absent E path url announce s tt s' t).
  - intros versions archs s s' t H.
    assert (wg_kept (ImagePrepare E versions archs)) as Hk; [|by apply (Hk s tt s' t)].
    unfold ImagePrepare. apply wg_kept_bind; [by apply wg_kept_pure|].
    intros pwd. apply wg_kept_forM_. intros version.
    apply wg_kept_forM_. intros arch. apply wg_kept_pair.
  - intros path1 url1 path2 url2 s s1 s2 t1 t2 Hwg H1 H2.
    apply (wg_kept_fetch_if_absent E _ _ _ s tt s1 t1) in H1.
    apply (wg_kept_fetch_if_absent E _ _ _ s1 tt s2 t2) in H2.
    unfold wg_Wait. rewrite decide_True by lia. done.
Qed.

(** ** External commands *)

Lemma chdir_state_cwd (E : Env) (dir : string) (s : State) :
  cwd (chdir_state E dir s)
  = match chdir_error E dir with
    | Some _ => cwd s
    | None =>
        if Str.HasPrefix dir "/" then dir else filepath.Join [cwd s; dir]
    end.
Proof. unfold chdir_state. by destruct (chdir_error E dir). Qed.

(** X10.  The repackaging never aborts: the error of [os.Chdir] is
    dropped and the error of a command is only printed, so the five
    commands always run, in the same order, each on the files that the one
    before it left; the third one moves what the first line of the output
    of the second one, the listing, names.  Afterwards the working
    directory of the process is the target directory when [os.Chdir]
    succeeded, and it is not changed back. *)
Theorem derive_rootfs_never_aborts (E : Env) (pwd dir arch : string)
  (s : State) :
  let s0 := chdir_state E dir s in
  let s1 := command_state E (tar_command arch) s0 in
  let listing := command_output E ls_command s1 in
  let s2 := command_state E ls_command s1 in
  let mv := mv_command (first_line listing) arch in
  let s3 := command_state E mv s2 in
  let s4 := command_state E (xz_command arch) s3 in
  let s5 := command_state E (cp_command pwd dir) s4 in
  outcome_of (derive_rootfs E pwd dir arch s) = Ret tt
  ∧ state_of (derive_rootfs E pwd dir arch s) = s5
  ∧ cwd s5
    = match chdir_error E dir with
      | Some _ => cwd s
      | None =>
          if Str.HasPrefix dir "/" then dir else filepath.Join [cwd s; dir]
      end
  ∧ List.filter is_command (trace_of (derive_rootfs E pwd dir arch s))
    = [EvExec ("tar -xf openEuler-docker." +:+ arch
               +:+ ".tar.xz --wildcards '*.tar' --exclude 'layer.tar'");
       EvExec "ls | xargs -n1 | grep -v openEuler |grep *.tar";
       EvExec ("mv " +:+ first_line listing +:+ " openEuler-docker-rootfs."
               +:+ arch +:+ ".tar");
       EvExec ("xz -z openEuler-docker-rootfs." +:+ arch +:+ ".tar");
       EvExec ("cp " +:+ pwd +:+ "/Dockerfile " +:+ dir +:+ "/Dockerfile")].
Proof.
  intros s0 s1 listing s2 mv s3 s4 s5.
  rewrite derive_rootfs_result.
  fold s0 s1 listing s2 mv s3 s4 s5.
  split; [done|]. split; [done|]. split; [apply chdir_state_cwd|].
  cbn [trace_of snd List.filter is_command].
  rewrite !List.filter_app. cbn [List.filter is_command].
  rewrite !List.filter_app, !command_trace_commands. reflexivity.
Qed.

(** ** Runs with nothing to do *)

Lemma forM__nothing {A} (l : list A) (s : State) :
  forM_ l (λ _, ret tt) s = (Ret tt, s, []).
Proof. induction l as [|x l IH]; simpl; [done|]. unfold bind. cbn. by rewrite IH. Qed.

Lemma ImagePrepare_nothing (E : Env) (versions archs : list string)
  (s : State) :
  versions = [] ∨ archs = [] →
  ImagePrepare E versions archs s = (Ret tt, s, []).
Proof.
  intros [-> | ->]; [done|].
  unfold ImagePrepare.
  assert (os_Getwd s = (Ret (cwd s), s, [])) as Hwd by reflexivity.
  rewrite (bind_Ret _ _ _ _ _ _ Hwd), prepend_nil.
  apply (forM__nothing versions s).
Qed.

(** X11.  With no version or with no architecture [ImagePrepare] does
    nothing: no directory is made, nothing is requested, and it returns
    with the state as it was. *)
Theorem ImagePrepare_empty (E : Env) (versions archs : list string)
  (s : State) :
  versions = [] ∨ archs = [] →
  ImagePrepare E versions archs s = (Ret tt, s, []).
Proof.
  intros [-> | ->]; [done|].
  rewrite ImagePrepare_pairs.
  assert (pairs_of versions [] = []) as ->; [|done].
  unfold pairs_of. by induction versions.
Qed.

(** X11, witness: versions without architectures. *)
Lemma ImagePrepare_empty_witness :
  ImagePrepare denied_env ["22.03-lts"; "20.03-lts"] [] empty_state
  = (Ret tt, empty_state, []).
Proof.
  apply (ImagePrepare_empty denied_env ["22.03-lts"; "20.03-lts"] []
           empty_state).
  by right.
Defined.

Lemma MatchTag_covered (A B : list string) :
  (∀ x, x ∈ A → x ∈ B) → MatchTag A B = [].
Proof.
  intros Hsub. unfold MatchTag. rewrite MatchTag_loop_filter. simpl.
  induction A as [|a A IH]; [done|].
  rewrite filter_cons_False by (intros Hn; apply Hn, Hsub; left).
  apply IH. intros x Hx. apply Hsub. by right.
Qed.

(** X12.  When every version that the mirror lists is a tag of the
    registry other than [latest] (in particular when the visit of the
    mirror fails and lists nothing), [run] visits the mirror, prints the
    error of the visit if there is one, asks the registry, and returns
    without making a directory, requesting a file or running a command. *)
Theorem run_nothing_to_materialize (E : Env) (names : list string)
  (s : State) :
  hub_names E = inl names →
  (∀ Text, Text ∈ map fst (mirror_links E) →
     MatchDockerImageDir Text = true →
     version_of E Text ∈ names ∧ version_of E Text ≠ "latest") →
  run E s
  = (Ret tt, s,
     EvVisit mirror_url ::
     match mirror_error E with
     | Some err => [EvPrint err]
     | None => []
     end ++ [EvHttpGet hub_url]).
Proof.
  intros Hhub Hpub. unfold run.
  rewrite (bind_Ret _ _ _ _ _ _ (GetOpenEulerTag_result E s)).
  assert (GetDockerHubTag E s
          = (Ret (List.filter (λ n, negb (String.eqb n "latest")) names), s,
             [EvHttpGet hub_url])) as Hget
    by (unfold GetDockerHubTag, bind, emit, ret; by rewrite Hhub).
  rewrite (bind_Ret _ _ _ _ _ _ Hget).
  rewrite MatchTag_covered.
  - rewrite ImagePrepare_nothing by (by left).
    unfold prepend. cbn. by rewrite ?app_nil_r.
  - intros v Hv. apply list_elem_of_In, List.in_map_iff in Hv
      as (Text & <- & Hin).
    apply List.filter_In in Hin as [Hin Hm].
    apply list_elem_of_In in Hin. destruct (Hpub Text Hin Hm) as [Hn Hl].
    apply list_elem_of_In, List.filter_In. split.
    + by apply list_elem_of_In.
    + by apply negb_true_iff, String.eqb_neq.
Qed.

(** X12, witness: the registry that has both versions. *)
Lemma run_nothing_to_materialize_witness :
  run published_env empty_state
  = (Ret tt, empty_state,
     EvVisit mirror_url ::
     match mirror_error published_env with
     | Some err => [EvPrint err]
     | None => []
     end ++ [EvHttpGet hub_url]).
Proof.
  apply (run_nothing_to_materialize published_env
           ["latest"; "22.03-lts"; "20.03-lts"] empty_state).
  - reflexivity.
  - intros Text Hin Hm. cbn in Hin.
    repeat (apply elem_of_cons in Hin as [->|Hin]);
      [discriminate Hm | | | by apply elem_of_nil in Hin].
    + split; [vm_compute; by repeat constructor | discriminate].
    + split; [vm_compute; by repeat constructor | discriminate].
Defined.

(** ** The layout on disk *)

Lemma fold_push_elements (rooted : bool) (names stack : list string) :
  Forall (λ w, is_element w = true) names →
  fold_left (filepath.push rooted) names stack = rev names ++ stack.
Proof.
  revert stack. induction names as [|w names IH]; intros stack Hall; [done|].
  inversion Hall as [|? ? Hw Hrest]; subst. cbn [fold_left rev].
  rewrite is_element_push by done. rewrite IH by done.
  by rewrite <- app_assoc.
Qed.

Lemma filter_kept_elements (names : list string) :
  Forall (λ w, is_element w = true) names →
  List.filter filepath.kept names = names.
Proof.
  induction names as [|w names IH]; intros Hall; [done|].
  inversion Hall as [|? ? Hw Hrest]; subst. cbn [List.filter].
  by rewrite is_element_kept, IH.
Qed.

(** The elements of a path joined with single elements. *)
Lemma elements_extend (rooted : bool) (dir : string) (names : list string) :
  names ≠ [] → Forall (λ w, is_element w = true) names →
  filepath.elements rooted (Str.Join (dir :: names) "/")
  = filepath.elements rooted dir ++ names.
Proof.
  intros Hne Hall. unfold filepath.elements.
  rewrite Split_Join_cons by done.
  pose proof (Split_Join filepath.Separator names Hne) as HSJ.
  change (String filepath.Separator "") with "/" in HSJ.
  rewrite HSJ.
  - rewrite List.filter_app, fold_left_app, filter_kept_elements by done.
    rewrite fold_push_elements by done.
    by rewrite rev_app_distr, rev_involutive.
  - eapply Forall_impl; [exact Hall|]. intros w Hw.
    by apply is_element_piece in Hw as [_ ?].
Qed.

Lemma Str_Join_app (l1 l2 : list string) :
  l1 ≠ [] → l2 ≠ [] →
  Str.Join (l1 ++ l2) "/" = Str.Join l1 "/" +:+ "/" +:+ Str.Join l2 "/".
Proof.
  intros H1 H2. induction l1 as [|e l1 IH]; [done|].
  destruct l1 as [|e' l1].
  - destruct l2; [done|]. reflexivity.
  - change (Str.Join ((e :: e' :: l1) ++ l2) "/")
      with (e +:+ "/" +:+ Str.Join ((e' :: l1) ++ l2) "/").
    rewrite IH by done.
    change (Str.Join (e :: e' :: l1) "/")
      with (e +:+ "/" +:+ Str.Join (e' :: l1) "/").
    by rewrite !append_assoc.
Qed.

(** Joining a cleaned directory, other than the root and [.], with single
    elements writes them after it, a separator before each. *)
Lemma Join_elements (dir : string) (names : list string) :
  filepath.Clean dir = dir → dir ≠ "/" → dir ≠ "." →
  names ≠ [] → Forall (λ w, is_element w = true) names →
  filepath.Join (dir :: names) = dir +:+ "/" +:+ Str.Join names "/".
Proof.
  intros Hclean Hroot Hdot Hne Hall.
  assert (dir ≠ "") as Hdir by (intros ->; discriminate).
  cbn [filepath.Join]. destruct (String.eqb_spec dir ""); [done|].
  unfold filepath.Clean. rewrite HasPrefix_Join by done.
  rewrite elements_extend by done.
  set (r := Str.HasPrefix dir "/") in *.
  pose proof (elements_pieces r dir) as Hels.
  assert (Forall piece names) as Hnames
    by (eapply Forall_impl; [exact Hall|]; intros w; apply is_element_piece).
  destruct (filepath.elements r dir) as [|e els] eqn:Heq.
  - exfalso. unfold filepath.Clean in Hclean. fold r in Hclean.
    rewrite Heq in Hclean. destruct r; cbn in Hclean; by subst.
  - rewrite assemble_pieces; [|done|by apply Forall_app].
    rewrite Str_Join_app by done.
    unfold filepath.Clean in Hclean. fold r in Hclean. rewrite Heq in Hclean.
    rewrite assemble_pieces in Hclean by done.
    rewrite <- append_assoc. by rewrite Hclean.
Qed.

Lemma contains_app (c : ascii) (s1 s2 : string) :
  Str.contains c (s1 +:+ s2) = Str.contains c s1 || Str.contains c s2.
Proof.
  induction s1 as [|d s1 IH]; [done|].
  change (Str.contains c (String d s1 +:+ s2))
    with (Ascii.eqb d c || Str.contains c (s1 +:+ s2)).
  rewrite IH. cbn [Str.contains]. by rewrite orb_assoc.
Qed.

(** A name made of a fixed start, a single element and a fixed end is a
    single element. *)
Lemma is_element_named (c : ascii) (start arch ending : string) :
  c ≠ "."%char → Str.contains filepath.Separator (String c start) = false →
  Str.contains filepath.Separator ending = false → is_element arch = true →
  is_element (String c start +:+ arch +:+ ending) = true.
Proof.
  intros Hc Hstart Hend Harch.
  apply is_element_piece in Harch as [_ Hslash].
  unfold is_element.
  rewrite !contains_app, Hstart, Hslash, Hend.
  change (String c start +:+ arch +:+ ending)
    with (String c (start +:+ arch +:+ ending)).
  cbn [String.eqb]. destruct (Ascii.eqb_spec c "."); [done|]. done.
Qed.

Lemma target_dir_written (pwd version arch : string) :
  filepath.Clean pwd = pwd → pwd ≠ "/" → pwd ≠ "." →
  is_element version = true → is_element arch = true →
  target_dir pwd version arch
  = pwd +:+ "/openEuler/" +:+ version +:+ "/" +:+ arch.
Proof.
  intros Hclean Hroot Hdot Hv Ha.
  unfold target_dir. rewrite Join_elements; try done.
  by repeat constructor.
Qed.

(** A file named by a single element lies directly in the target
    directory. *)
Lemma file_in_target_dir (pwd version arch name : string) :
  filepath.Clean pwd = pwd → pwd ≠ "/" → pwd ≠ "." →
  is_element version = true → is_element arch = true →
  is_element name = true →
  filepath.Join [target_dir pwd version arch; name]
  = target_dir pwd version arch +:+ "/" +:+ name.
Proof.
  intros Hclean Hroot Hdot Hv Ha Hn.
  assert (pwd ≠ "") as Hne by (intros ->; discriminate).
  rewrite (target_dir_written pwd version arch) by done.
  transitivity (filepath.Join [pwd; "openEuler"; version; arch; name]).
  - cbn [filepath.Join].
    destruct (String.eqb_spec pwd ""); [done|].
    destruct pwd as [|c pwd]; [done|].
    change (String.eqb (String c pwd +:+ "/openEuler/" +:+ version
                        +:+ "/" +:+ arch) "") with false.
    cbn iota. f_equal. cbn [Str.Join].
    rewrite !append_assoc. reflexivity.
  - rewrite Join_elements; try done; [|by repeat constructor].
    cbn [Str.Join]. rewrite !append_assoc. reflexivity.
Qed.

(** X13.  Under a cleaned working directory other than the root and [.],
    and for a version and an architecture that are single path elements,
    the target directory is [<cwd>/openEuler/<version>/<arch>] as written,
    the three files of the pair lie directly in it under the names built
    from the architecture, and their paths differ from one another. *)
Theorem pair_layout (pwd version arch : string) :
  filepath.Clean pwd = pwd → pwd ≠ "/" → pwd ≠ "." →
  is_element version = true → is_element arch = true →
  target_dir pwd version arch
  = pwd +:+ "/openEuler/" +:+ version +:+ "/" +:+ arch
  ∧ imagePath pwd version arch
    = target_dir pwd version arch +:+ "/" +:+ imageFile arch
  ∧ sha256sumPath pwd version arch
    = target_dir pwd version arch +:+ "/" +:+ sha256sumFile arch
  ∧ rootfsPath pwd version arch
    = target_dir pwd version arch +:+ "/" +:+ rootfsFile arch
  ∧ imagePath pwd version arch ≠ sha256sumPath pwd version arch
  ∧ imagePath pwd version arch ≠ rootfsPath pwd version arch
  ∧ sha256sumPath pwd version arch ≠ rootfsPath pwd version arch.
Proof.
  intros Hclean Hroot Hdot Hv Ha.
  assert (imagePath pwd version arch
          = target_dir pwd version arch +:+ "/" +:+ imageFile arch) as Hi.
  { apply file_in_target_dir; try done.
    by apply (is_element_named "o" "penEuler-docker." arch ".tar.xz"). }
  assert (sha256sumPath pwd version arch
          = target_dir pwd version arch +:+ "/" +:+ sha256sumFile arch) as Hs.
  { apply file_in_target_dir; try done.
    by apply (is_element_named "o" "penEuler-docker." arch
                ".tar.xz.sha256sum"). }
  assert (rootfsPath pwd version arch
          = target_dir pwd version arch +:+ "/" +:+ rootfsFile arch) as Hr.
  { apply file_in_target_dir; try done.
    by apply (is_element_named "o" "penEuler-docker-rootfs." arch ".tar"). }
  split; [by apply target_dir_written|].
  split; [done|]. split; [done|]. split; [done|].
  rewrite Hi, Hs, Hr. unfold imageFile, sha256sumFile, rootfsFile.
  split; [|split]; intros Heq;
    repeat (apply String.app_inj in Heq); vm_compute in Heq;
    repeat (apply String.app_inj in Heq); simplify_eq.
Qed.

(** X13, witness: the sample pair. *)
Lemma pair_layout_witness :
  target_dir "/home/ci" "22.03-lts" "x86_64"
  = "/home/ci" +:+ "/openEuler/" +:+ "22.03-lts" +:+ "/" +:+ "x86_64"
  ∧ imagePath "/home/ci" "22.03-lts" "x86_64"
    = target_dir "/home/ci" "22.03-lts" "x86_64" +:+ "/"
      +:+ imageFile "x86_64"
  ∧ sha256sumPath "/home/ci" "22.03-lts" "x86_64"
    = target_dir "/home/ci" "22.03-lts" "x86_64" +:+ "/"
      +:+ sha256sumFile "x86_64"
  ∧ rootfsPath "/home/ci" "22.03-lts" "x86_64"
    = target_dir "/home/ci" "22.03-lts" "x86_64" +:+ "/"
      +:+ rootfsFile "x86_64"
  ∧ imagePath "/home/ci" "22.03-lts" "x86_64"
    ≠ sha256sumPath "/home/ci" "22.03-lts" "x86_64"
  ∧ imagePath "/home/ci" "22.03-lts" "x86_64"
    ≠ rootfsPath "/home/ci" "22.03-lts" "x86_64"
  ∧ sha256sumPath "/home/ci" "22.03-lts" "x86_64"
    ≠ rootfsPath "/home/ci" "22.03-lts" "x86_64".
Proof.
  apply (pair_layout "/home/ci" "22.03-lts" "x86_64");
    [reflexivity | discriminate | discriminate | reflexivity | reflexivity].
Defined.

(** ** Temporary file names (main.go, lines 414-421) *)

Lemma unhex_byte_digits (v : ascii) :
  unhex_byte (hex.digit (N.shiftr (N_of_ascii v) 4))
    (hex.digit (N.land (N_of_ascii v) 15)) = v.
Proof.
  destruct v as [[] [] [] [] [] [] [] []]; vm_compute; reflexivity.
Qed.

Lemma digits_without_separator (v : ascii) :
  Ascii.eqb (hex.digit (N.shiftr (N_of_ascii v) 4)) filepath.Separator = false
  ∧ Ascii.eqb (hex.digit (N.land (N_of_ascii v) 15)) filepath.Separator
    = false.
Proof.
  destruct v as [[] [] [] [] [] [] [] []]; vm_compute; by split.
Qed.

(** The encoding can be read back: [hex.EncodeToString] loses nothing. *)
Lemma unhex_EncodeToString (src : string) :
  unhex (hex.EncodeToString src) = src.
Proof.
  induction src as [|v src IH]; [done|].
  cbn [hex.EncodeToString unhex]. by rewrite unhex_byte_digits, IH.
Qed.

Lemma EncodeToString_inj (r1 r2 : string) :
  hex.EncodeToString r1 = hex.EncodeToString r2 → r1 = r2.
Proof.
  intros H. rewrite <- (unhex_EncodeToString r1), <- (unhex_EncodeToString r2).
  by rewrite H.
Qed.

Lemma EncodeToString_without_separator (src : string) :
  Str.contains filepath.Separator (hex.EncodeToString src) = false.
Proof.
  induction src as [|v src IH]; [done|].
  cbn [hex.EncodeToString Str.contains].
  destruct (digits_without_separator v) as [-> ->]. by rewrite IH.
Qed.

Lemma append_length (s1 s2 : string) :
  String.length (s1 +:+ s2) = String.length s1 + String.length s2.
Proof.
  induction s1 as [|c s1 IH]; [done|].
  change (String.length (String c s1 +:+ s2))
    with (S (String.length (s1 +:+ s2))).
  rewrite IH. reflexivity.
Qed.

(** Strings of one length followed by the same ending are equal when the
    wholes are. *)
Lemma append_inj_l (s1 s2 ending : string) :
  String.length s1 = String.length s2 →
  s1 +:+ ending = s2 +:+ ending → s1 = s2.
Proof.
  revert s2. induction s1 as [|c s1 IH]; intros [|d s2] Hlen Heq;
    try done.
  change (String c (s1 +:+ ending) = String d (s2 +:+ ending)) in Heq.
  injection Heq as -> Heq. f_equal. apply IH; [|done].
  simpl in Hlen. lia.
Qed.

Lemma is_element_built (c : ascii) (start middle ending : string) :
  c ≠ "."%char → Str.contains filepath.Separator (String c start) = false →
  Str.contains filepath.Separator middle = false →
  Str.contains filepath.Separator ending = false →
  is_element (String c start +:+ middle +:+ ending) = true.
Proof.
  intros Hc Hstart Hmid Hend. unfold is_element.
  rewrite !contains_app, Hstart, Hmid, Hend.
  change (String c start +:+ middle +:+ ending)
    with (String c (start +:+ middle +:+ ending)).
  cbn [String.eqb]. by destruct (Ascii.eqb_spec c ".").
Qed.

(** X14.  In a cleaned temporary directory other than the root and [.],
    with a prefix that does not start with a dot and no separator in prefix
    or suffix, [tempFileName] returns without error the path
    [<TempDir>/<prefix><hex of the random bytes><suffix>], whose name has
    twice as many hex digits as there are random bytes; two draws of the
    same length give the same name only when the random bytes are the
    same; and an error of the random source is returned with an empty
    name. *)
Theorem tempFileName_names (TempDir suffix start : string) (c : ascii)
  (r1 r2 : string) :
  filepath.Clean TempDir = TempDir → TempDir ≠ "/" → TempDir ≠ "." →
  c ≠ "."%char →
  Str.contains filepath.Separator (String c start) = false →
  Str.contains filepath.Separator suffix = false →
  String.length r1 = String.length r2 →
  tempFileName TempDir (inl r1) (String c start) suffix
  = (TempDir +:+ "/" +:+ String c start +:+ hex.EncodeToString r1 +:+ suffix,
     None)
  ∧ String.length (hex.EncodeToString r1) = 2 * String.length r1
  ∧ (tempFileName TempDir (inl r1) (String c start) suffix
     = tempFileName TempDir (inl r2) (String c start) suffix → r1 = r2)
  ∧ ∀ err, tempFileName TempDir (inr err) (String c start) suffix
           = ("", Some err).
Proof.
  intros Hclean Hroot Hdot Hc Hstart Hsuffix Hlen.
  assert (∀ r, tempFileName TempDir (inl r) (String c start) suffix
               = (TempDir +:+ "/" +:+ String c start
                  +:+ hex.EncodeToString r +:+ suffix, None)) as Hname.
  { intros r. unfold tempFileName.
    rewrite Join_elements; try done.
    repeat constructor.
    apply is_element_built; try done.
    apply EncodeToString_without_separator. }
  split; [apply Hname|]. split; [apply EncodeToString_length|].
  split; [|done].
  rewrite !Hname. intros Heq. injection Heq as Heq.
  repeat (apply String.app_inj in Heq).
  apply EncodeToString_inj.
  apply (append_inj_l _ _ suffix); [|done].
  by rewrite !EncodeToString_length, Hlen.
Qed.

(** X14, witness: the call of [buildImage], with two draws of 16 bytes. *)
Lemma tempFileName_names_witness :
  tempFileName "/tmp" (inl (repeat_byte 16 "a")) "docker-" ".image"
  = ("/tmp" +:+ "/" +:+ "docker-"
     +:+ hex.EncodeToString (repeat_byte 16 "a") +:+ ".image", None)
  ∧ String.length (hex.EncodeToString (repeat_byte 16 "a"))
    = 2 * String.length (repeat_byte 16 "a")
  ∧ (tempFileName "/tmp" (inl (repeat_byte 16 "a")) "docker-" ".image"
     = tempFileName "/tmp" (inl (repeat_byte 16 "b")) "docker-" ".image"
     → repeat_byte 16 "a" = repeat_byte 16 "b")
  ∧ ∀ err, tempFileName "/tmp" (inr err) "docker-" ".image" = ("", Some err).
Proof.
  apply (tempFileName_names "/tmp" ".image" "ocker-" "d"
           (repeat_byte 16 "a") (repeat_byte 16 "b"));
    try reflexivity; discriminate.
Defined.

Example tempFileName_sample :
  tempFileName "/tmp" (inl (repeat_byte 16 (ascii_of_nat 171)))
    "docker-" ".image"
  = ("/tmp/docker-abababababababababababababababab.image", None).
Proof. vm_compute. reflexivity. Qed.

(** ** Digests *)

Lemma digits_lower_hex (v : ascii) :
  is_lower_hex (hex.digit (N.shiftr (N_of_ascii v) 4)) = true
  ∧ is_lower_hex (hex.digit (N.land (N_of_ascii v) 15)) = true.
Proof.
  destruct v as [[] [] [] [] [] [] [] []]; vm_compute; by split.
Qed.

Lemma EncodeToString_lower_hex (src : string) :
  all_bytes is_lower_hex (hex.EncodeToString src) = true.
Proof.
  induction src as [|v src IH]; [done|].
  cbn [hex.EncodeToString all_bytes].
  destruct (digits_lower_hex v) as [-> ->]. by rewrite IH.
Qed.

(** X15.  For a file that can be read, and a digest function that returns
    32 bytes, [sha256encode] returns 64 lower-case hex digits and leaves
    the state as it is; the comparison with the sidecar is byte for byte,
    so a sidecar whose first 64 bytes hold anything else (an upper-case
    digit, say) never verifies. *)
Theorem sha256encode_digest (E : Env) (s : State) (path content : string) :
  (∀ bytes, String.length (sha256_Sum E bytes) = 32) →
  holds E s path content →
  ∃ digest,
    sha256encode E path s = (Ret digest, s, [])
    ∧ String.length digest = 64
    ∧ all_bytes is_lower_hex digest = true
    ∧ ∀ sp sidecar,
        holds E s sp sidecar →
        all_bytes is_lower_hex (String.substring 0 64 sidecar) = false →
        outcome_of (verify_checksum E path sp s) ≠ Ret tt.
Proof.
  intros Hsize Hfile.
  exists (hex.EncodeToString (sha256_Sum E content)).
  split; [by apply sha256encode_holds|].
  split; [by rewrite EncodeToString_length, Hsize|].
  split; [apply EncodeToString_lower_hex|].
  intros sp sidecar Hs Hbad.
  rewrite (verify_checksum_result E s path sp content sidecar Hfile Hs).
  destruct (decide _); [done|].
  destruct (String.eqb_spec (hex.EncodeToString (sha256_Sum E content))
              (String.substring 0 64 sidecar)) as [Heq|]; [|done].
  rewrite <- Heq, EncodeToString_lower_hex in Hbad. discriminate.
Qed.

(** X15, witness: the sample image. *)
Lemma sha256encode_digest_witness :
  ∃ digest,
    sha256encode sample_env (imagePath "/home/ci" "22.03-lts" "x86_64")
      (sample_state sample_sidecar)
    = (Ret digest, sample_state sample_sidecar, [])
    ∧ String.length digest = 64
    ∧ all_bytes is_lower_hex digest = true
    ∧ ∀ sp sidecar,
        holds sample_env (sample_state sample_sidecar) sp sidecar →
        all_bytes is_lower_hex (String.substring 0 64 sidecar) = false →
        outcome_of (verify_checksum sample_env
                      (imagePath "/home/ci" "22.03-lts" "x86_64") sp
                      (sample_state sample_sidecar)) ≠ Ret tt.
Proof.
  apply (sha256encode_digest sample_env (sample_state sample_sidecar)
           (imagePath "/home/ci" "22.03-lts" "x86_64") sample_image).
  - reflexivity.
  - split; reflexivity.
Defined.

Lemma substring_whole (s : string) :
  String.substring 0 (String.length s) s = s.
Proof. induction s as [|c s IH]; [done|]. simpl. by rewrite IH. Qed.

Lemma substring_split (n : nat) (s : string) :
  n ≤ String.length s →
  s = String.substring 0 n s +:+ String.substring n (String.length s - n) s
  ∧ String.length (String.substring 0 n s) = n.
Proof.
  revert n. induction s as [|c s IH]; intros n Hn.
  - assert (n = 0) as -> by (simpl in Hn; lia). done.
  - destruct n as [|n].
    + rewrite Nat.sub_0_r, substring_whole. by destruct s.
    + destruct (IH n ltac:(simpl in Hn; lia)) as [Hs Hl].
      cbn [String.substring String.length Nat.sub]. split; [|by rewrite Hl].
      change (String c s
              = String c (String.substring 0 n s
                          +:+ String.substring n (String.length s - n) s)).
      by rewrite <- Hs.
Qed.

(** X16.  Of a sidecar of 64 bytes or more [ReadFile] returns the first 64
    bytes, dropping what follows (the file name that [sha256sum] writes
    after the digest), and leaves the state as it is. *)
Theorem ReadFile_first_64 (E : Env) (s : State) (path content : string) :
  holds E s path content → 64 ≤ String.length content →
  ∃ digest rest,
    ReadFile E path s = (Ret digest, s, [])
    ∧ String.length digest = 64
    ∧ content = digest +:+ rest.
Proof.
  intros Hfile Hlen.
  destruct (substring_split 64 content Hlen) as [Hsplit Hl].
  exists (String.substring 0 64 content),
    (String.substring 64 (String.length content - 64) content).
  split; [by apply ReadFile_long|]. by split.
Qed.

(** X16, witness: the sample sidecar. *)
Lemma ReadFile_first_64_witness :
  ∃ digest rest,
    ReadFile sample_env (sha256sumPath "/home/ci" "22.03-lts" "x86_64")
      (sample_state sample_sidecar)
    = (Ret digest, sample_state sample_sidecar, [])
    ∧ String.length digest = 64
    ∧ sample_sidecar = digest +:+ rest.
Proof.
  apply (ReadFile_first_64 sample_env (sample_state sample_sidecar)
           (sha256sumPath "/home/ci" "22.03-lts" "x86_64") sample_sidecar).
  - split; reflexivity.
  - vm_compute. lia.
Defined.

(** ** [PathExists] *)

(** X17.  [PathExists] never aborts and never changes the state.  It
    answers true exactly for a file that [os.Stat] finds, false without
    error exactly for a file that is not there, and passes on every other
    error of [os.Stat] together with false. *)
Theorem PathExists_answers (E : Env) (path : string) (s : State) :
  ∃ r,
    PathExists E path s = (Ret r, s, [])
    ∧ (r = (true, None) ↔ present E s path)
    ∧ (r = (false, None)
       ↔ stat_error E path = None ∧ files s !! path = None)
    ∧ ∀ e, r = (false, Some e)
           ↔ ∃ msg, stat_error E path = Some msg ∧ e = ErrOther msg.
Proof.
  unfold PathExists, os_Stat, bind, ret, present.
  destruct (stat_error E path) as [msg|] eqn:Hstat.
  - eexists. split; [reflexivity|]. cbn.
    split; [split; [done | by intros [? _]]|].
    split; [split; [done | by intros [? _]]|].
    intros e. split.
    + intros [= <-]. by exists msg.
    + intros (m & [= <-] & ->). done.
  - destruct (files s !! path) as [content|] eqn:Hfile.
    + eexists. split; [reflexivity|]. cbn.
      split; [split; [by intros _; split; [|eexists] | done]|].
      split; [split; [done | by intros [_ ?]]|].
      intros e. split; [done | by intros (m & ? & _)].
    + eexists. split; [reflexivity|]. cbn.
      split; [split; [done | by intros [_ [? ?]]]|].
      split; [done|].
      intros e. split; [done | by intros (m & ? & _)].
Qed.

(** ** The directories of a run *)

Lemma no_mkdir_bind {A B} (m : M A) (k : A → M B) :
  no_mkdir m → (∀ a, no_mkdir (k a)) → no_mkdir (bind m k).
Proof.
  intros Hm Hk s. unfold bind. specialize (Hm s).
  destruct (m s) as [[[a| | | ] s1] t1]; simpl in *; try done.
  specialize (Hk a s1). destruct (k a s1) as [[o s2] t2]. simpl in *.
  by rewrite List.filter_app, Hm, Hk.
Qed.

Lemma no_mkdir_silent {A} (m : M A) :
  (∀ s, trace_of (m s) = []) → no_mkdir m.
Proof. intros H s. by rewrite H. Qed.

Lemma no_mkdir_Println (text : string) : no_mkdir (Println text).
Proof. by intros s. Qed.

Lemma no_mkdir_Downloader_Read (d : Downloader) :
  no_mkdir (Downloader_Read d).
Proof.
  intros s. unfold Downloader_Read.
  destruct (io_Reader_Read (Reader d)) as [[r data] err].
  unfold divide, bind, emit, ret, panic.
  repeat case_match; simplify_eq; done.
Qed.

Lemma no_mkdir_io_Copy_loop (reads : list string) (dst : string)
  (d : Downloader) :
  no_mkdir (io_Copy_loop reads dst d).
Proof.
  revert d. induction reads as [|chunk rest IH]; intros d; cbn [io_Copy_loop];
    (apply no_mkdir_bind; [apply no_mkdir_Downloader_Read|]);
    intros [[d' data] err]; apply no_mkdir_bind;
    try (destruct (String.eqb data ""); by apply no_mkdir_silent);
    intros _; [by apply no_mkdir_silent | apply IH].
Qed.

Lemma no_mkdir_downloadFile (E : Env) (url filePath : string) :
  no_mkdir (downloadFile E url filePath).
Proof.
  intros s. unfold downloadFile. rewrite trace_defer_Done. revert s.
  apply no_mkdir_bind; [by intros s|].
  intros [resp|err]; [|by apply no_mkdir_silent].
  apply no_mkdir_bind.
  { intros s. unfold os_Create. by destruct (create_error E filePath). }
  intros [e|]; [by apply no_mkdir_silent|].
  apply no_mkdir_bind; [apply no_mkdir_io_Copy_loop|].
  intros [e|]; by apply no_mkdir_silent.
Qed.

Lemma no_mkdir_PathExists (E : Env) (path : string) :
  no_mkdir (PathExists E path).
Proof.
  apply no_mkdir_silent. intros s. unfold PathExists, os_Stat, bind, ret.
  repeat case_match; simplify_eq; done.
Qed.

Lemma no_mkdir_fetch_if_absent (E : Env) (path url : string)
  (announce : bool) :
  no_mkdir (fetch_if_absent E path url announce).
Proof.
  unfold fetch_if_absent.
  apply no_mkdir_bind; [apply no_mkdir_PathExists|].
  intros [isExist [err|]]; [by apply no_mkdir_silent|].
  destruct isExist; [by apply no_mkdir_silent|].
  apply no_mkdir_bind; [by destruct announce|]. intros _.
  apply no_mkdir_bind;
    [apply no_mkdir_silent; intros s; by rewrite wg_Add_one|]. intros _.
  apply no_mkdir_downloadFile.
Qed.

Lemma no_mkdir_ExecCommand (E : Env) (Command : string) :
  no_mkdir (ExecCommand E Command).
Proof.
  intros s. rewrite ExecCommand_result. cbn.
  by destruct (shell E Command (cwd s) (files s)).2.
Qed.

Lemma no_mkdir_derive_rootfs (E : Env) (pwd dir arch : string) :
  no_mkdir (derive_rootfs E pwd dir arch).
Proof.
  unfold derive_rootfs.
  apply no_mkdir_bind.
  { intros s. unfold os_Chdir. by destruct (chdir_error E dir). }
  intros _.
  repeat (first [ apply no_mkdir_Println
                | apply no_mkdir_ExecCommand
                | apply no_mkdir_bind; [|intros ?] ]).
Qed.

Lemma no_mkdir_after_MkdirAll (E : Env) (pwd version arch : string)
  (s : State) :
  List.filter is_mkdir (trace_of (ImagePrepare_pair E pwd version arch s))
  = [EvMkdirAll (target_dir pwd version arch)].
Proof.
  unfold ImagePrepare_pair. fold (target_dir pwd version arch).
  set (dir := target_dir pwd version arch).
  assert (os_MkdirAll E dir s = (Ret (mkdir_error E dir), s, [EvMkdirAll dir]))
    as Hmk by reflexivity.
  rewrite (bind_Ret _ _ _ _ _ _ Hmk). unfold prepend.
  cbn [trace_of snd]. rewrite List.filter_app. cbn [List.filter is_mkdir].
  match goal with
  | |- [_] ++ List.filter is_mkdir (trace_of (?rest s)) = _ =>
      assert (no_mkdir rest) as Hrest; [|by rewrite Hrest]
  end.
  apply no_mkdir_bind; [destruct (mkdir_error E dir); by intros ?|]. intros _.
  apply no_mkdir_bind; [apply no_mkdir_fetch_if_absent|]. intros _.
  apply no_mkdir_bind; [apply no_mkdir_fetch_if_absent|]. intros _.
  apply no_mkdir_bind.
  { apply no_mkdir_silent. intros s0. unfold wg_Wait. by destruct (decide _). }
  intros _. apply no_mkdir_bind.
  { apply no_mkdir_silent. intros s0.
    unfold verify_checksum, sha256encode, ReadFile, os_ReadFile, bind, ret,
      panic, log_Fatal.
    repeat case_match; simplify_eq; done. }
  intros _. unfold ensure_rootfs.
  apply no_mkdir_bind; [apply no_mkdir_PathExists|].
  intros [isExist [stat|]]; [by apply no_mkdir_silent|].
  destruct (negb (String.eqb (GOOS E) "linux")); [by apply no_mkdir_silent|].
  destruct (negb isExist);
    [apply no_mkdir_derive_rootfs | by apply no_mkdir_silent].
Qed.

Lemma forM__marks {A} (P : Event → bool) (f : A → Event)
  (body : A → M unit) (l : list A) (s : State) :
  (∀ x s0, List.filter P (trace_of (body x s0)) = [f x]) →
  ∃ visited rest,
    l = visited ++ rest
    ∧ List.filter P (trace_of (forM_ l body s)) = map f visited
    ∧ (outcome_of (forM_ l body s) = Ret tt → rest = []).
Proof.
  intros Hbody. revert s. induction l as [|x l IH]; intros s.
  - by exists [], [].
  - cbn [forM_]. unfold bind. specialize (Hbody x s).
    destruct (body x s) as [[[u| | | ] s1] t1]; simpl in Hbody.
    + destruct (IH s1) as (visited & rest & -> & Hf & Hret).
      destruct (forM_ (visited ++ rest) body s1) as [[o s2] t2].
      simpl in *. exists (x :: visited), rest.
      split; [done|]. split; [|done].
      by rewrite List.filter_app, Hbody, Hf.
    + by exists [x], l.
    + by exists [x], l.
    + by exists [x], l.
Qed.

(** X18.  [ImagePrepare] calls [os.MkdirAll] once for each pair it visits
    and nowhere else, on the target directory computed from the working
    directory it read at its start (not from the one that the repackaging
    of an earlier pair changed to), version by version and, within a
    version, architecture by architecture; a run that returns has visited
    every pair. *)
Theorem ImagePrepare_directories (E : Env) (versions archs : list string)
  (s : State) :
  ∃ visited rest,
    pairs_of versions archs = visited ++ rest
    ∧ List.filter is_mkdir (trace_of (ImagePrepare E versions archs s))
      = map (λ p, EvMkdirAll (target_dir (cwd s) p.1 p.2)) visited
    ∧ (outcome_of (ImagePrepare E versions archs s) = Ret tt → rest = []).
Proof.
  rewrite ImagePrepare_pairs.
  apply (forM__marks is_mkdir
           (λ p, EvMkdirAll (target_dir (cwd s) p.1 p.2))).
  intros p s0. apply no_mkdir_after_MkdirAll.
Qed.

Example ImagePrepare_directories_sample :
  List.filter is_mkdir
    (trace_of (ImagePrepare serving_env ["22.03-lts"] ["x86_64"; "aarch64"]
                 empty_state))
  = [EvMkdirAll "/home/ci/openEuler/22.03-lts/x86_64";
     EvMkdirAll "/home/ci/openEuler/22.03-lts/aarch64"].
Proof. vm_compute. reflexivity. Qed.

(** ** Aborts and repeated fetches *)

(** X19.  An abort of one pair ends the run: when the pairs before it
    returned and it does not, [ImagePrepare] ends with its outcome and its
    state, and the trace holds nothing after it, so no later pair is
    visited. *)
Theorem ImagePrepare_stops_at_abort (E : Env) (versions archs : list string)
  (before after : list (string * string)) (version arch : string)
  (s s1 : State) (t1 : list Event) :
  pairs_of versions archs = before ++ (version, arch) :: after →
  forM_ before (λ p, ImagePrepare_pair E (cwd s) p.1 p.2) s = (Ret tt, s1, t1) →
  (∀ u, outcome_of (ImagePrepare_pair E (cwd s) version arch s1) ≠ Ret u) →
  ImagePrepare E versions archs s
  = (outcome_of (ImagePrepare_pair E (cwd s) version arch s1),
     state_of (ImagePrepare_pair E (cwd s) version arch s1),
     t1 ++ trace_of (ImagePrepare_pair E (cwd s) version arch s1)).
Proof.
  intros Hsplit Hbefore Habort.
  rewrite ImagePrepare_pairs, Hsplit, forM__app.
  rewrite (bind_Ret _ _ _ _ _ _ Hbefore). cbn [forM_].
  by rewrite bind_abort.
Qed.

(** X19, witness: the tampered sidecar of the first of two
    architectures. *)
Lemma ImagePrepare_stops_at_abort_witness :
  ImagePrepare sample_env ["22.03-lts"] ["x86_64"; "aarch64"]
    (sample_state tampered_sidecar)
  = (outcome_of (ImagePrepare_pair sample_env
                   (cwd (sample_state tampered_sidecar)) "22.03-lts" "x86_64"
                   (sample_state tampered_sidecar)),
     state_of (ImagePrepare_pair sample_env
                 (cwd (sample_state tampered_sidecar)) "22.03-lts" "x86_64"
                 (sample_state tampered_sidecar)),
     [] ++ trace_of (ImagePrepare_pair sample_env
                       (cwd (sample_state tampered_sidecar)) "22.03-lts"
                       "x86_64" (sample_state tampered_sidecar))).
Proof.
  apply (ImagePrepare_stops_at_abort sample_env ["22.03-lts"]
           ["x86_64"; "aarch64"] [] [("22.03-lts", "aarch64")]
           "22.03-lts" "x86_64" (sample_state tampered_sidecar)
           (sample_state tampered_sidecar) []).
  - reflexivity.
  - reflexivity.
  - intros u. vm_compute. discriminate.
Defined.

(** X20.  Fetching is idempotent: a file that is not there, and that
    the mirror serves whole, is requested once and stored; after that
    [PathExists] finds it, and fetching it again does nothing. *)
Theorem fetch_if_absent_once (E : Env) (path url : string) (resp : Response)
  (s : State) :
  stat_error E path = None → files s !! path = None →
  http_reply E url = inl resp → create_error E path = None →
  ContentLength resp ≠ 0%Z → copy_error (failure (Body resp)) = None →
  ∃ s' t,
    fetch_if_absent E path url false s = (Ret tt, s', t)
    ∧ files s' = <[path := concat_chunks (pending (Body resp))]> (files s)
    ∧ List.filter is_request t = [EvHttpGet url]
    ∧ fetch_if_absent E path url false s' = (Ret tt, s', []).
Proof.
  intros Hstat Hfile Hget Hcreate Hnz Heof.
  set (s0 := mkState (files s) (cwd s) (wg s + 1)).
  destruct (downloadFile_body E url path resp s0 Hget Hcreate Hnz)
    as (t & Ht & Hbody).
  set (s' := mkState (<[path := concat_chunks (pending (Body resp))]> (files s))
               (cwd s) (wg s)).
  assert (downloadFile E url path s0
          = (Ret tt, s', EvHttpGet url :: EvCreate path :: t)) as Hdl.
  { rewrite Hbody, Heof. unfold s', s0. cbn [files cwd wg].
    rewrite decide_False by lia.
    by replace (wg s + 1 - 1)%N with (wg s) by lia. }
  exists s', (EvHttpGet url :: EvCreate path :: t).
  assert (PathExists E path s = (Ret (false, None), s, [])) as Hpe
    by (unfold PathExists, bind, os_Stat; by rewrite Hstat, Hfile).
  split; [|split; [done|split]].
  - unfold fetch_if_absent.
    rewrite (bind_Ret _ _ _ _ _ _ Hpe), prepend_nil. cbn iota beta.
    assert (ret tt s = (Ret tt, s, [])) as Hret by reflexivity.
    rewrite (bind_Ret _ _ _ _ _ _ Hret), prepend_nil.
    by rewrite (bind_Ret _ _ _ _ _ _ (wg_Add_one s)), prepend_nil.
  - cbn [List.filter is_request].
    f_equal. clear -Ht. induction Ht as [|e t He _ IH]; [done|].
    destruct e; try done.
  - apply fetch_present. split; [done|]. eexists. apply lookup_insert_eq.
Qed.

(** X20, witness: the sidecar of the serving mirror. *)
Lemma fetch_if_absent_once_witness :
  ∃ s' t,
    fetch_if_absent serving_env "/tmp/sidecar"
      (image_url sample_env "22.03-lts" "x86_64" +:+ ".sha256sum") false
      empty_state = (Ret tt, s', t)
    ∧ files s'
      = <["/tmp/sidecar" :=
            concat_chunks
              (pending (Body (mkResponse 96 (mkReader [sample_sidecar] None))))]>
          (files empty_state)
    ∧ List.filter is_request t
      = [EvHttpGet (image_url sample_env "22.03-lts" "x86_64"
                    +:+ ".sha256sum")]
    ∧ fetch_if_absent serving_env "/tmp/sidecar"
        (image_url sample_env "22.03-lts" "x86_64" +:+ ".sha256sum") false s'
      = (Ret tt, s', []).
Proof.
  apply (fetch_if_absent_once serving_env "/tmp/sidecar"
           (image_url sample_env "22.03-lts" "x86_64" +:+ ".sha256sum")
           (mkResponse 96 (mkReader [sample_sidecar] None)) empty_state).
  - reflexivity.
  - reflexivity.
  - reflexivity.
  - reflexivity.
  - discriminate.
  - reflexivity.
Defined.
